(** * Crawl job orchestrator: a shallow embedding of the Python sources

    The definitions follow [app/models/schemas.py],
    [app/services/crawler_service.py] and
    [app/api/v1/endpoints/crawler.py].  Python values are modelled as follows:
    [str] as [string], [int] as [Z], [Optional[T]] as [option T], a [list] as
    [list], and a [dict] (whose iteration order is insertion order) as an
    association list with unique keys.  The characters of a [str] are those
    of [ascii], that is code points below 256.  What the code reaches
    outside the process (clock, random ids, the discovery tool, files, the
    network) is a parameter of the development, [Service.Outside]; the
    [csv] reader is a parameter of the extraction, and [Csv.reader] is a
    model of it used to run examples. *)

From Stdlib Require Import List String Ascii ZArith QArith Bool Lia.
From Stdlib Require Import Permutation Sorted DecimalString.
Import ListNotations.
Open Scope string_scope.
Open Scope Z_scope.
Open Scope list_scope.

Set Implicit Arguments.

(* ================================================================== *)
(** * Part I: definitions *)
(* ================================================================== *)

(** ** Python built-ins used by the sources *)

Module Py.

(** [len(s)] of a [str] or a [list], as a Python [int]. *)
Definition len_str (s : string) : Z := Z.of_nat (String.length s).
Definition len {A} (l : list A) : Z := Z.of_nat (List.length l).

(** Truthiness of a [str]: only the empty string is falsy. *)
Definition truthy_str (s : string) : bool :=
  match s with EmptyString => false | String _ _ => true end.

(** [x in s] for a set of strings kept as a list. *)
Fixpoint mem (x : string) (s : list string) : bool :=
  match s with
  | [] => false
  | y :: s' => String.eqb x y || mem x s'
  end.

(** [d.get(k, default)] on an optional entry. *)
Definition get_default {A} (v : option A) (default : A) : A :=
  match v with Some a => a | None => default end.

(** [s.startswith(p)] and [s.endswith(p)]. *)
Definition startswith (s p : string) : bool := String.prefix p s.

Definition endswith (s p : string) : bool :=
  let n := String.length s in
  let m := String.length p in
  (m <=? n)%nat && String.eqb (String.substring (n - m) m s) p.

(** [l[:k]] for a Python [int] [k]: a negative [k] counts from the end. *)
Definition slice_to {A} (l : list A) (k : Z) : list A :=
  if k <? 0 then firstn (List.length l - Z.to_nat (- k)) l
  else firstn (Z.to_nat k) l.

(** Exceptions that the modelled code can meet, and results of calls that
    may raise. *)
Inductive exn : Type :=
| UnicodeDecodeError
| IndexError
| TypeError
| KeyError
| ValueError
| csv_Error
| OSError
| OverflowError.

Inductive result (A : Type) : Type :=
| Ok (a : A)
| Raise (e : exn).
Arguments Ok {A} a.
Arguments Raise {A} e.

(** A [float]: a finite value, an infinity, or not a number. *)
Inductive float : Type :=
| finite (q : Q)
| inf
| neg_inf
| nan.

(** [sub in s] for strings. *)
Fixpoint contains (s sub : string) : bool :=
  String.prefix sub s
  || match s with
     | EmptyString => false
     | String _ s' => contains s' sub
     end.

(** [s.split(',')]: never empty. *)
Fixpoint split_comma (s : string) : list string :=
  match s with
  | EmptyString => [EmptyString]
  | String c s' =>
      let parts := split_comma s' in
      if Ascii.eqb c "," then EmptyString :: parts
      else match parts with
           | p :: ps => String c p :: ps
           | [] => [String c EmptyString]
           end
  end.

(** [str.isspace] on one character (code points below 256). *)
Definition isspace (c : ascii) : bool :=
  let n := nat_of_ascii c in
  ((9 <=? n) && (n <=? 13) || (28 <=? n) && (n <=? 32)
   || (n =? 133) || (n =? 160))%nat.

Fixpoint lstrip (s : string) : string :=
  match s with
  | EmptyString => EmptyString
  | String c s' => if isspace c then lstrip s' else s
  end.

Fixpoint rstrip (s : string) : string :=
  match s with
  | EmptyString => EmptyString
  | String c s' =>
      match rstrip s' with
      | EmptyString => if isspace c then EmptyString
                       else String c EmptyString
      | r => String c r
      end
  end.

(** [s.strip()] *)
Definition strip (s : string) : string := rstrip (lstrip s).

(** A [dict] as an association list in insertion order. *)
Section Dict.
Context {K V : Type} (eqb : K -> K -> bool).

(** [d.get(k)] *)
Fixpoint dict_get (d : list (K * V)) (k : K) : option V :=
  match d with
  | [] => None
  | (k', v) :: d' => if eqb k' k then Some v else dict_get d' k
  end.

(** [d[k] = v]: an existing key keeps its position. *)
Fixpoint dict_set (d : list (K * V)) (k : K) (v : V) : list (K * V) :=
  match d with
  | [] => [(k, v)]
  | (k', v') :: d' =>
      if eqb k' k then (k', v) :: d' else (k', v') :: dict_set d' k v
  end.

(** [list(d.values())] *)
Definition dict_values (d : list (K * V)) : list V := map snd d.

(** [del d[k]] for a key that is present. *)
Fixpoint dict_del (d : list (K * V)) (k : K) : list (K * V) :=
  match d with
  | [] => []
  | (k', v') :: d' => if eqb k' k then d' else (k', v') :: dict_del d' k
  end.
End Dict.

(** [str(n)] for an [int]. *)
Definition str_int (n : Z) : string := NilZero.string_of_int (Z.to_int n).

(** [s.replace(old, new)] for a non-empty [old]: every occurrence, scanning
    from the left; [skip] counts the characters of a replaced occurrence
    that are still to be dropped. *)
Fixpoint replace_from (skip : nat) (s old new : string) : string :=
  match s with
  | EmptyString => EmptyString
  | String c s' =>
      match skip with
      | S n => replace_from n s' old new
      | O =>
          if String.prefix old s
          then String.append new
                 (replace_from (String.length old - 1) s' old new)
          else String c (replace_from O s' old new)
      end
  end.

Definition replace (s old new : string) : string := replace_from O s old new.

End Py.

(** ** [models/schemas.py] *)

Module Schemas.

Inductive CrawlStatus : Type := PENDING | IN_PROGRESS | COMPLETED | FAILED.

(** A [datetime] as a point on the clock. *)
Definition datetime := Z.

Module OnionLink.
Record t := mk {
  url : string;
  title : option string;
  engine : option string;
  status : string
}.
(** [OnionLink(url=..., title=..., engine=...)] with the default
    [status]. *)
Definition new (url : string) (title engine : option string) : t :=
  mk url title engine "discovered".
End OnionLink.

Module CrawledPage.
Record t := mk {
  url : string;
  title : option string;
  text_content : string;
  images : list string;
  crawl_timestamp : datetime;
  file_path : option string;
  status : string
}.
End CrawledPage.

Module CrawlJob.
Record t := mk {
  id : string;
  query : string;
  status : CrawlStatus;
  created_at : datetime;
  updated_at : datetime;
  total_links : Z;
  crawled_links : Z;
  failed_links : Z;
  pages : list CrawledPage.t;
  error_message : option string
}.
(** [CrawlJob(id=..., query=..., status=..., created_at=...,
    updated_at=...)] with the defaults of the other fields. *)
Definition new (id query : string) (status : CrawlStatus)
    (created_at updated_at : datetime) : t :=
  mk id query status created_at updated_at 0 0 0 [] None.
End CrawlJob.

End Schemas.

(** ** The [csv] module's reader in its default ([excel]) dialect

    A model of the reader's character automaton for the comma as delimiter,
    the double quote as quote character (doubled inside a quoted field), no
    escape character, not strict.  The
    extraction results below hold for any reader; this one is used to run
    the code on concrete files. *)

Module Csv.

Inductive state : Type :=
| START_RECORD | START_FIELD | IN_FIELD
| IN_QUOTED_FIELD | QUOTE_IN_QUOTED_FIELD | EAT_CRNL.

Record parser := mkParser {
  st : state;
  field : string;
  field_len : N;
  fields : list string
}.

Definition reset : parser := mkParser START_RECORD "" 0 [].

Definition field_limit : N := 131072.

Definition set_state (s : state) (p : parser) : parser :=
  mkParser s (field p) (field_len p) (fields p).

Definition parse_save_field (p : parser) : parser :=
  mkParser (st p) "" 0 (fields p ++ [field p]).

(** [None] stands for [csv.Error]. *)
Definition parse_add_char (p : parser) (c : ascii) : option parser :=
  if (field_limit <=? field_len p)%N then None
  else Some (mkParser (st p) (String.append (field p) (String c ""))
                      (field_len p + 1) (fields p)).

(** A character of the line, or the end of the line. *)
Inductive input : Type := Char (c : ascii) | EOL.

Definition is_newline (c : ascii) : bool :=
  Ascii.eqb c (ascii_of_nat 10) || Ascii.eqb c (ascii_of_nat 13).

Definition is_quote (c : ascii) : bool := Ascii.eqb c (ascii_of_nat 34).
Definition is_delimiter (c : ascii) : bool := Ascii.eqb c ",".

Definition end_of_line (p : parser) (i : input) : option parser :=
  Some (set_state (match i with EOL => START_RECORD | Char _ => EAT_CRNL end)
                  (parse_save_field p)).

Definition start_field (p : parser) (i : input) : option parser :=
  match i with
  | EOL => end_of_line p i
  | Char c =>
      if is_newline c then end_of_line p i
      else if is_quote c then Some (set_state IN_QUOTED_FIELD p)
      else if is_delimiter c then Some (parse_save_field p)
      else option_map (set_state IN_FIELD) (parse_add_char p c)
  end.

Definition parse_process_char (p : parser) (i : input) : option parser :=
  match st p with
  | START_RECORD =>
      match i with
      | EOL => Some p
      | Char c =>
          if is_newline c then Some (set_state EAT_CRNL p)
          else start_field (set_state START_FIELD p) i
      end
  | START_FIELD => start_field p i
  | IN_FIELD =>
      match i with
      | EOL => end_of_line p i
      | Char c =>
          if is_newline c then end_of_line p i
          else if is_delimiter c
               then Some (set_state START_FIELD (parse_save_field p))
               else parse_add_char p c
      end
  | IN_QUOTED_FIELD =>
      match i with
      | EOL => Some p
      | Char c =>
          if is_quote c then Some (set_state QUOTE_IN_QUOTED_FIELD p)
          else parse_add_char p c
      end
  | QUOTE_IN_QUOTED_FIELD =>
      match i with
      | EOL => end_of_line p i
      | Char c =>
          if is_quote c
          then option_map (set_state IN_QUOTED_FIELD) (parse_add_char p c)
          else if is_delimiter c
               then Some (set_state START_FIELD (parse_save_field p))
               else if is_newline c then end_of_line p i
               else option_map (set_state IN_FIELD) (parse_add_char p c)
      end
  | EAT_CRNL =>
      match i with
      | EOL => Some (set_state START_RECORD p)
      | Char c => if is_newline c then Some p else None
      end
  end.

(** One line: its characters, then [EOL]. *)
Fixpoint feed_line (p : parser) (line : string) : option parser :=
  match line with
  | EmptyString => parse_process_char p EOL
  | String c line' =>
      match parse_process_char p (Char c) with
      | None => None
      | Some p' => feed_line p' line'
      end
  end.

Definition at_start (p : parser) : bool :=
  match st p with START_RECORD => true | _ => false end.

Definition in_quoted (p : parser) : bool :=
  match st p with IN_QUOTED_FIELD => true | _ => false end.

(** The reader run over all lines: a record ends when a line leaves the
    automaton in [START_RECORD]; input that ends inside a quoted field
    yields the unfinished record. *)
Fixpoint read_records (p : parser) (lines : list string)
    : list (list string) * bool :=
  match lines with
  | [] =>
      if negb (field_len p =? 0)%N || in_quoted p
      then ([fields (parse_save_field p)], false)
      else ([], false)
  | line :: lines' =>
      match feed_line p line with
      | None => ([], true)
      | Some p' =>
          if at_start p'
          then let '(rows, failed) := read_records reset lines' in
               (fields p' :: rows, failed)
          else read_records p' lines'
      end
  end.

Definition reader (lines : list string) : list (list string) * bool :=
  read_records reset lines.

End Csv.

(** ** [crawler_service.py]: extraction of onion links *)

Module Extract.
Import Schemas.

Inductive encoding : Type := utf_8 | windows_1252.

Definition try_encodings : list encoding := [utf_8; windows_1252].

(** A discovery artifact as the code sees it: what
    [open(file_path, encoding=enc)] followed by [f.readlines()] gives for
    each encoding, the decoded lines or the exception raised. *)
Definition artifact := encoding -> Py.result (list string).

(** A value in a [csv.DictReader] row: a field, [None] for a field missing
    from a short row, or the list of surplus fields of a long row. *)
Inductive cell : Type :=
| Str (s : string)
| NoneVal
| Rest (l : list string).

(** A [csv.DictReader] row; the key [None] is the reader's [restkey]. *)
Definition dict_row := list (option string * cell).

Definition key_eqb (a b : option string) : bool :=
  match a, b with
  | Some x, Some y => String.eqb x y
  | None, None => true
  | _, _ => false
  end.

(** [dict(zip(fieldnames, row))] *)
Fixpoint dict_zip (d : dict_row) (fieldnames row : list string) : dict_row :=
  match fieldnames, row with
  | k :: ks, v :: vs => dict_zip (Py.dict_set key_eqb d (Some k) (Str v)) ks vs
  | _, _ => d
  end.

(** [DictReader.__next__] on one non-empty row:
    [d = dict(zip(self.fieldnames, row))], then surplus fields go under
    [restkey], and the field names a short row lacks are set to
    [restval]. *)
Definition make_row (fieldnames row : list string) : dict_row :=
  let d := dict_zip [] fieldnames row in
  let lf := List.length fieldnames in
  let lr := List.length row in
  if (lf <? lr)%nat then Py.dict_set key_eqb d None (Rest (skipn lf row))
  else if (lr <? lf)%nat then
    fold_left (fun d key => Py.dict_set key_eqb d (Some key) NoneVal)
              (skipn lr fieldnames) d
  else d.

Definition is_empty_row (r : list string) : bool :=
  match r with [] => true | _ => false end.

Section WithReader.

(** [csv.reader(lines)] run to its end: the rows it yields and whether
    it then raised [csv.Error]. *)
Variable csv_reader : list string -> list (list string) * bool.

(** [csv.DictReader(lines)] run to its end: the first row gives the
    field names and empty rows are skipped. *)
Definition DictReader (lines : list string) : list dict_row * bool :=
  let '(rows, failed) := csv_reader lines in
  match rows with
  | [] => ([], failed)
  | fieldnames :: data =>
      (map (make_row fieldnames)
           (filter (fun r => negb (is_empty_row r)) data),
       failed)
  end.

(** [row.get('link', '')]: [Some s] for a string, [None] for Python's
    [None]. *)
Definition get_link (row : dict_row) : option string :=
  match Py.dict_get key_eqb row (Some "link") with
  | Some (Str s) => Some s
  | Some _ => None
  | None => Some ""
  end.

(** [row.get(key, '')] as an [Optional[str]] field of the model. *)
Definition get_field (row : dict_row) (key : string) : option string :=
  match Py.dict_get key_eqb row (Some key) with
  | Some (Str s) => Some s
  | Some _ => None
  | None => Some ""
  end.

(** Lines 225-229. *)
Definition link_of_row (url : string) (row : dict_row) : OnionLink.t :=
  OnionLink.new url (get_field row "name") (get_field row "engine").

(** Lines 223-229: the loop over the reader; ['.onion' in None] raises
    [TypeError]. *)
Fixpoint collect (links : list OnionLink.t) (rows : list dict_row)
    : list OnionLink.t * option Py.exn :=
  match rows with
  | [] => (links, None)
  | row :: rows' =>
      match get_link row with
      | None => (links, Some Py.TypeError)
      | Some link =>
          if Py.contains link ".onion"
          then collect (links ++ [link_of_row link row]) rows'
          else collect links rows'
      end
  end.

(** Lines 215-220: the header is missing when the last field of the
    first line holds the marker. *)
Definition header_missing (line0 : string) : bool :=
  Py.contains (last (Py.split_comma (Py.strip line0)) "") ".onion".

Definition header : string :=
  String.append "engine,name,link" (String (ascii_of_nat 10) "").

Definition with_header (line0 : string) (rest : list string)
    : list string :=
  if header_missing line0 then header :: line0 :: rest
  else line0 :: rest.

(** Lines 213-229: the body of the [try], giving [links] afterwards and
    the exception that left it, if any. *)
Definition try_body (links : list OnionLink.t)
    (read : Py.result (list string))
    : list OnionLink.t * option Py.exn :=
  match read with
  | Py.Raise e => (links, Some e)
  | Py.Ok [] => (links, Some Py.IndexError)
  | Py.Ok (line0 :: rest) =>
      let '(rows, failed) := DictReader (with_header line0 rest) in
      match collect links rows with
      | (links', Some e) => (links', Some e)
      | (links', None) =>
          (links', if failed then Some Py.csv_Error else None)
      end
  end.

(** Lines 211-232: [for enc in try_encodings], leaving at the first
    encoding whose body ends normally and going on after
    [UnicodeDecodeError]. *)
Fixpoint try_loop (file : artifact) (encs : list encoding)
    (links : list OnionLink.t) : Py.result (list OnionLink.t) :=
  match encs with
  | [] => Py.Ok links
  | enc :: encs' =>
      match try_body links (file enc) with
      | (links', None) => Py.Ok links'
      | (links', Some Py.UnicodeDecodeError) => try_loop file encs' links'
      | (_, Some e) => Py.Raise e
      end
  end.

(** Line 234: [list({link.url: link for link in links}.values())]. *)
Definition unique_links (links : list OnionLink.t) : list OnionLink.t :=
  Py.dict_values
    (fold_left (fun d link => Py.dict_set String.eqb d (OnionLink.url link) link)
               links []).

Definition _extract_onion_links (file : artifact)
    : Py.result (list OnionLink.t) :=
  match try_loop file try_encodings [] with
  | Py.Ok links => Py.Ok (unique_links links)
  | Py.Raise e => Py.Raise e
  end.

End WithReader.

(** The links appended for the rows of a reader, in row order. *)
Definition retained (rows : list dict_row) : list OnionLink.t :=
  flat_map (fun row =>
              match get_link row with
              | Some link =>
                  if Py.contains link ".onion" then [link_of_row link row]
                  else []
              | None => []
              end) rows.

(** Keys are distinct and every link is stored under its own url. *)
Definition keyed (d : list (string * OnionLink.t)) : Prop :=
  NoDup (map fst d) /\ forall k v, In (k, v) d -> OnionLink.url v = k.

(** An artifact that neither encoding decodes, such as a file holding the
    single byte 0x81: a lone continuation byte in UTF-8 and an unassigned
    position in Windows-1252. *)
Definition garbled : artifact := fun _ => Py.Raise Py.UnicodeDecodeError.

(** An artifact that every encoding decodes to the same lines, such as an
    ASCII file. *)
Definition plain (lines : list string) : artifact := fun _ => Py.Ok lines.

Definition nl : string := String (ascii_of_nat 10) "".

(** Two rows for one url around a row without the marker. *)
Definition demo_rows : list string :=
  [ String.append "ahmia,First,http://abc.onion" nl;
    String.append "tor66,Other,http://example.com" nl;
    String.append "tor66,Second,http://abc.onion" nl ].

(** Scenario C of the spec: no header row. *)
Definition scenario_C_rows : list string :=
  [ "tor66,ExampleSite,http://abc.onion" ].

(** The artifact made of the canonical header row followed by the lines of
    [file], under every encoding. *)
Definition prepend_header (file : artifact) : artifact :=
  fun enc =>
    match file enc with
    | Py.Ok lines => Py.Ok (header :: lines)
    | Py.Raise e => Py.Raise e
    end.

(** The code takes the decoded lines to lack a header row: there is a first
    line and its last field holds the marker. *)
Definition headerless (lines : list string) : Prop :=
  exists line0 rest, lines = line0 :: rest /\ header_missing line0 = true.

End Extract.

(** ** [crawler_service.py]: the per-engine limiter *)

Module Limiter.

(** A row as [csv.reader] yields it. *)
Definition row := list string.

(** [engine_results = defaultdict(list)]: engine to rows, in the order in
    which the engines were first seen. *)
Definition engine_results := list (string * list row).

(** [row[0]], read only for rows with at least three fields. *)
Definition engine_of (r : row) : string := hd "" r.

(** [engine_results[engine].append(row)] *)
Fixpoint append_row (d : engine_results) (engine : string) (r : row)
    : engine_results :=
  match d with
  | [] => [(engine, [r])]
  | (e, rs) :: d' =>
      if String.eqb e engine then (e, rs ++ [r]) :: d'
      else (e, rs) :: append_row d' engine r
  end.

(** Lines 175-178: the body of [for row in reader]. *)
Definition add_row (d : engine_results) (r : row) : engine_results :=
  if 3 <=? Py.len r then append_row d (engine_of r) r else d.

Definition group_rows (d : engine_results) (rows : list row)
    : engine_results :=
  fold_left add_row rows d.

(** Lines 184-191: [limited_results]. *)
Definition limit_groups (d : engine_results) (per_engine_limit : Z)
    : list row :=
  flat_map (fun '(engine, results) => Py.slice_to results per_engine_limit)
           d.

(** [total_limited], the sum of [len(limited)] over the engines. *)
Definition total_limited (d : engine_results) (per_engine_limit : Z) : Z :=
  fold_left
    (fun n '(engine, results) =>
       n + Py.len (Py.slice_to results per_engine_limit))
    d 0.

(** The rows written for the rows read. *)
Definition limit_rows (rows : list row) (per_engine_limit : Z) : list row :=
  limit_groups (group_rows [] rows) per_engine_limit.

(** The links of one engine among rows: those with at least three fields
    whose first field is the engine. *)
Definition of_engine (engine : string) (r : row) : bool :=
  (3 <=? Py.len r) && String.eqb (engine_of r) engine.

(** [engine_results.get(engine, [])] *)
Fixpoint lookup (d : engine_results) (engine : string) : list row :=
  match d with
  | [] => []
  | (e, rs) :: d' => if String.eqb e engine then rs else lookup d' engine
  end.

(** Keys are distinct and every row is filed under its own engine. *)
Definition well_formed (d : engine_results) : Prop :=
  NoDup (map fst d) /\
  forall e rs, In (e, rs) d -> forall r, In r rs -> of_engine e r = true.

(** Scenario A of the spec: three engines with five links each. *)
Definition five (engine : string) : list row :=
  map (fun n => [engine; "site";
                   ("http://" ++ engine ++ n ++ ".onion")%string])
      ["1"; "2"; "3"; "4"; "5"].

Definition scenario_A_rows : list row :=
  five "ahmia" ++ five "tor66" ++ five "phobos".

End Limiter.

(** ** [core/config.py] *)

Module Config.

Record Settings := mkSettings {
  TOR_PROXY_HOST : string;
  TOR_PROXY_PORT : Z;
  DEFAULT_CRAWL_LIMIT : Z;
  CRAWL_DELAY : Py.float;
  ONIONSEARCH_PER_ENGINE_LIMIT : Z;
  OUTPUT_DIR : string
}.

(** [Settings()] when neither the environment nor the [.env] file sets a
    field: the values written in the class.  [Settings] is a
    [BaseSettings], so every field can be set from outside; the object
    [settings] that the service reads is part of [Service.Outside]. *)
Definition default_settings : Settings :=
  mkSettings "127.0.0.1" 9050 10 (Py.finite (2 # 1)) 5 "data".

End Config.

(** ** [crawler_service.py]: the service and its jobs *)

Module Service.
Import Schemas Config.

(** What the code reaches outside the process: the clock, the random
    source, the discovery tool, the files and the network.  [World] is the
    state of all of it. *)
Class Outside := {
  World : Type;
  (** [datetime.now()] *)
  datetime_now : World -> datetime * World;
  (** [str(uuid.uuid4())] *)
  uuid4 : World -> string * World;
  (** [subprocess.run(argv)]: the world afterwards and the exception raised
      when the program could not be started; its exit status is not
      looked at. *)
  subprocess_run : list string -> World -> World * option Py.exn;
  (** [csv.reader] over [open(path, 'r', encoding=enc)], iterated: the rows
      yielded, and the exception that ended the iteration, if any. *)
  read_csv : string -> Extract.encoding -> World
             -> list Limiter.row * option Py.exn;
  (** [open(path, 'w', ...)] and [writer.writerows(rows)]. *)
  write_csv : string -> list Limiter.row -> World -> World * option Py.exn;
  (** [open(path, encoding=enc)] and [f.readlines()]. *)
  readlines : string -> Extract.encoding -> World -> Py.result (list string);
  (** [csv.reader] over a list of lines. *)
  csv_reader : list string -> list (list string) * bool;
  (** [_crawl_page]: the proxied request, the parsing of the answer and the
      saving of the page; [None] on any failure. *)
  crawl_page : string -> World -> option CrawledPage.t * World;
  (** The passing of [secs] seconds in [time.sleep]. *)
  elapse : Q -> World -> World;
  (** [str(e)] *)
  str_exn : Py.exn -> string;
  (** [settings = Settings()] of [core/config.py], as the environment and
      the [.env] file of the process fill it. *)
  settings : Settings;
  (** [from ..services.ai_service import ai_service]: the exception raised
      when the module cannot be imported (on its first import the module
      builds the client of the language model). *)
  import_ai_service : World -> option Py.exn
}.

(** [self.active_jobs]: job id to job, in insertion order. *)
Definition registry := list (string * CrawlJob.t).

Record CrawlerService := mkService { active_jobs : registry }.

(** A coroutine handed to [asyncio.create_task]. *)
Inductive task : Type :=
| execute_crawl_background (job_id query : string) (limit : Z)
| analyze_crawl_job (job_id : string) (pages : list CrawledPage.t).

(** [status in [CrawlStatus.PENDING, CrawlStatus.IN_PROGRESS]] *)
Definition is_active (s : CrawlStatus) : bool :=
  match s with
  | PENDING | IN_PROGRESS => true
  | COMPLETED | FAILED => false
  end.

(** The condition of lines 34-35. *)
Definition same_active_query (query : string) (job : CrawlJob.t) : bool :=
  String.eqb (CrawlJob.query job) query && is_active (CrawlJob.status job).

(** [limit or settings.DEFAULT_CRAWL_LIMIT] *)
Definition limit_or_default {outside : Outside} (limit : option Z) : Z :=
  match limit with
  | Some l => if l =? 0 then DEFAULT_CRAWL_LIMIT settings else l
  | None => DEFAULT_CRAWL_LIMIT settings
  end.

(** What a call of [start_crawl] leaves behind. *)
Record started {W : Type} := mkStarted {
  job_id : string;
  service : CrawlerService;
  spawned : list task;
  world : W
}.
Arguments started W : clear implicits.

Section WithOutside.
Context {outside : Outside}.

(** [start_crawl] *)
Definition start_crawl (self : CrawlerService) (query : string)
    (limit : option Z) (w : World) : started World :=
  match find (same_active_query query) (Py.dict_values (active_jobs self)) with
  | Some existing_job => mkStarted (CrawlJob.id existing_job) self [] w
  | None =>
      let '(job_id, w) := uuid4 w in
      let limit := limit_or_default limit in
      let '(created_at, w) := datetime_now w in
      let '(updated_at, w) := datetime_now w in
      let job := CrawlJob.new job_id query PENDING created_at updated_at in
      mkStarted job_id
        (mkService (Py.dict_set String.eqb (active_jobs self) job_id job))
        [execute_crawl_background job_id query limit] w
  end.

(** [get_job_status] *)
Definition get_job_status (self : CrawlerService) (job_id : string)
    : option CrawlJob.t :=
  Py.dict_get String.eqb (active_jobs self) job_id.

(** [list_jobs] *)
Definition list_jobs (self : CrawlerService) : list CrawlJob.t :=
  Py.dict_values (active_jobs self).

(** [get_job_pages]: [job.pages if job else []].  The result is given as an
    optional value because the caller tests it against [None]; it is never
    [None]. *)
Definition get_job_pages (self : CrawlerService) (job_id : string)
    : option (list CrawledPage.t) :=
  match Py.dict_get String.eqb (active_jobs self) job_id with
  | Some job => Some (CrawlJob.pages job)
  | None => Some []
  end.

(** *** Discovery *)

(** The body of the reading loop of [_limit_results_per_engine]
    (lines 171-181): rows are filed as they are read, also those read before
    a decoding error. *)
Fixpoint read_engine_results (csv_file : string)
    (encs : list Extract.encoding) (d : Limiter.engine_results) (w : World)
    : Py.result Limiter.engine_results :=
  match encs with
  | [] => Py.Ok d
  | enc :: encs' =>
      let '(rows, ended) := read_csv csv_file enc w in
      let d := Limiter.group_rows d rows in
      match ended with
      | None => Py.Ok d
      | Some Py.UnicodeDecodeError => read_engine_results csv_file encs' d w
      | Some e => Py.Raise e
      end
  end.

(** [_limit_results_per_engine]: the path of the file to use and the world
    afterwards; any exception gives back the original file. *)
Definition _limit_results_per_engine (csv_file : string)
    (per_engine_limit : Z) (w : World) : string * World :=
  match read_engine_results csv_file Extract.try_encodings [] w with
  | Py.Raise _ => (csv_file, w)
  | Py.Ok engine_results =>
      let limited_results :=
        Limiter.limit_groups engine_results per_engine_limit in
      let limited_file := Py.replace csv_file ".csv" "_limited.csv" in
      match write_csv limited_file limited_results w with
      | (w, None) => (limited_file, w)
      | (w, Some _) => (csv_file, w)
      end
  end.

(** [_run_onionsearch]; the parameter [limit] is not read. *)
Definition _run_onionsearch (query : string) (limit : Z) (w : World)
    : Py.result string * World :=
  let safe_query := Py.replace query " " "_" in
  let output_file :=
    (OUTPUT_DIR settings ++ "/onionsearch_" ++ safe_query ++ ".csv")%string in
  let per_engine_limit := ONIONSEARCH_PER_ENGINE_LIMIT settings in
  match subprocess_run
          [ "onionsearch"; query;
            "--proxy";
            (TOR_PROXY_HOST settings ++ ":"
             ++ Py.str_int (TOR_PROXY_PORT settings))%string;
            "--output"; output_file;
            "--limit"; Py.str_int per_engine_limit ] w with
  | (w, Some e) => (Py.Raise e, w)
  | (w, None) =>
      let '(limited_output_file, w) :=
        _limit_results_per_engine output_file per_engine_limit w in
      (Py.Ok limited_output_file, w)
  end.

(** [_extract_onion_links] on the file at [file_path]. *)
Definition _extract_onion_links (file_path : string) (w : World)
    : Py.result (list OnionLink.t) :=
  Extract._extract_onion_links csv_reader
    (fun enc => readlines file_path enc w).

(** Steps 1 and 2 of [_execute_crawl] (lines 78-81). *)
Definition discover (query : string) (limit : Z) (w : World)
    : Py.result (list OnionLink.t) * World :=
  match _run_onionsearch query limit w with
  | (Py.Raise e, w) => (Py.Raise e, w)
  | (Py.Ok csv_file, w) => (_extract_onion_links csv_file w, w)
  end.

(** *** The job object under execution *)

Definition set_status (s : CrawlStatus) (j : CrawlJob.t) : CrawlJob.t :=
  CrawlJob.mk (CrawlJob.id j) (CrawlJob.query j) s (CrawlJob.created_at j)
    (CrawlJob.updated_at j) (CrawlJob.total_links j) (CrawlJob.crawled_links j)
    (CrawlJob.failed_links j) (CrawlJob.pages j) (CrawlJob.error_message j).

Definition set_updated_at (t : datetime) (j : CrawlJob.t) : CrawlJob.t :=
  CrawlJob.mk (CrawlJob.id j) (CrawlJob.query j) (CrawlJob.status j)
    (CrawlJob.created_at j) t (CrawlJob.total_links j)
    (CrawlJob.crawled_links j) (CrawlJob.failed_links j) (CrawlJob.pages j)
    (CrawlJob.error_message j).

Definition set_total_links (n : Z) (j : CrawlJob.t) : CrawlJob.t :=
  CrawlJob.mk (CrawlJob.id j) (CrawlJob.query j) (CrawlJob.status j)
    (CrawlJob.created_at j) (CrawlJob.updated_at j) n
    (CrawlJob.crawled_links j) (CrawlJob.failed_links j) (CrawlJob.pages j)
    (CrawlJob.error_message j).

(** [job.pages.append(page)] *)
Definition append_page (page : CrawledPage.t) (j : CrawlJob.t) : CrawlJob.t :=
  CrawlJob.mk (CrawlJob.id j) (CrawlJob.query j) (CrawlJob.status j)
    (CrawlJob.created_at j) (CrawlJob.updated_at j) (CrawlJob.total_links j)
    (CrawlJob.crawled_links j) (CrawlJob.failed_links j)
    (CrawlJob.pages j ++ [page]) (CrawlJob.error_message j).

(** [job.crawled_links += 1] *)
Definition incr_crawled (j : CrawlJob.t) : CrawlJob.t :=
  CrawlJob.mk (CrawlJob.id j) (CrawlJob.query j) (CrawlJob.status j)
    (CrawlJob.created_at j) (CrawlJob.updated_at j) (CrawlJob.total_links j)
    (CrawlJob.crawled_links j + 1) (CrawlJob.failed_links j)
    (CrawlJob.pages j) (CrawlJob.error_message j).

(** [job.failed_links += 1] *)
Definition incr_failed (j : CrawlJob.t) : CrawlJob.t :=
  CrawlJob.mk (CrawlJob.id j) (CrawlJob.query j) (CrawlJob.status j)
    (CrawlJob.created_at j) (CrawlJob.updated_at j) (CrawlJob.total_links j)
    (CrawlJob.crawled_links j) (CrawlJob.failed_links j + 1)
    (CrawlJob.pages j) (CrawlJob.error_message j).

Definition set_error_message (m : string) (j : CrawlJob.t) : CrawlJob.t :=
  CrawlJob.mk (CrawlJob.id j) (CrawlJob.query j) (CrawlJob.status j)
    (CrawlJob.created_at j) (CrawlJob.updated_at j) (CrawlJob.total_links j)
    (CrawlJob.crawled_links j) (CrawlJob.failed_links j) (CrawlJob.pages j)
    (Some m).

(** The job object now, and every state it went through since the start of
    the execution, oldest first: each assignment to the object adds one. *)
Definition running : Type := (CrawlJob.t * list CrawlJob.t)%type.

Definition mutate (f : CrawlJob.t -> CrawlJob.t) (x : running) : running :=
  let j := f (fst x) in (j, snd x ++ [j]).

(** [job.updated_at = datetime.now()] *)
Definition touch (x : running) (w : World) : running * World :=
  let '(t, w) := datetime_now w in (mutate (set_updated_at t) x, w).

(** The largest number of seconds that the clock of [time.sleep] holds:
    the nanoseconds of a signed 64-bit integer. *)
Definition PyTime_MAX : Q := 9223372036854775807 # 1000000000.

(** [time.sleep(secs)]: the argument is first converted to the clock, which
    raises [ValueError] for a NaN and [OverflowError] for a value out of the
    range of the clock; a negative argument then raises [ValueError]. *)
Definition time_sleep (secs : Py.float) (w : World)
    : World * option Py.exn :=
  match secs with
  | Py.nan => (w, Some Py.ValueError)
  | Py.inf | Py.neg_inf => (w, Some Py.OverflowError)
  | Py.finite q =>
      if Qle_bool (- PyTime_MAX) q && Qle_bool q PyTime_MAX
      then if Qle_bool 0 q then (elapse q w, None)
           else (w, Some Py.ValueError)
      else (w, Some Py.OverflowError)
  end.

(** *** The fetch loop *)

(** Lines 90-106: one iteration of [for i, link in enumerate(...)]. *)
Definition crawl_link (x : running) (link : OnionLink.t) (w : World)
    : running * World :=
  let '(page, w) := crawl_page (OnionLink.url link) w in
  let x :=
    match page with
    | Some page => mutate incr_crawled (mutate (append_page page) x)
    | None => mutate incr_failed x
    end in
  let '(x, w) := touch x w in
  match time_sleep (CRAWL_DELAY settings) w with
  | (w, None) => (x, w)
  | (w, Some _) => (mutate incr_failed x, w)
  end.

(** Lines 89-106. *)
Fixpoint fetch_loop (x : running) (links_to_crawl : list OnionLink.t)
    (w : World) : running * World :=
  match links_to_crawl with
  | [] => (x, w)
  | link :: links' =>
      let '(x, w) := crawl_link x link w in fetch_loop x links' w
  end.

(** *** Execution of a job *)

(** What an execution leaves behind. *)
Record executed := mkExecuted {
  exec_service : CrawlerService;
  exec_states : list CrawlJob.t;
  exec_spawned : list task;
  exec_world : World
}.

(** The job object is the one held by the registry: its final state is
    what the registry shows afterwards.  Nothing in the execution suspends,
    so no other task runs in between. *)
Definition finish (self : CrawlerService) (job_id : string) (x : running)
    (spawned : list task) (w : World) : executed :=
  mkExecuted
    (mkService (Py.dict_set String.eqb (active_jobs self) job_id (fst x)))
    (snd x) spawned w.

(** [_trigger_ai_analysis] (lines 144-159), for the job object that the
    registry holds under [job_id]: the task created, if any.  An exception
    of the import is caught and logged by the function, and no task is
    created then. *)
Definition _trigger_ai_analysis (job_id : string) (job : CrawlJob.t)
    (w : World) : list task :=
  match import_ai_service w with
  | Some _ => []
  | None =>
      match CrawlJob.pages job with
      | [] => []
      | _ :: _ => [analyze_crawl_job job_id (CrawlJob.pages job)]
      end
  end.

(** Lines 116-119: the [except] of [_execute_crawl]. *)
Definition fail (x : running) (e : Py.exn) (w : World) : running * World :=
  touch (mutate (set_error_message (str_exn e)) (mutate (set_status FAILED) x))
        w.

(** [_execute_crawl]; [KeyError] when the job is not registered. *)
Definition _execute_crawl (self : CrawlerService) (job_id query : string)
    (limit : Z) (w : World) : Py.result executed :=
  match Py.dict_get String.eqb (active_jobs self) job_id with
  | None => Py.Raise Py.KeyError
  | Some job =>
      let x := mutate (set_status IN_PROGRESS) (job, []) in
      let '(x, w) := touch x w in
      match discover query limit w with
      | (Py.Raise e, w) =>
          let '(x, w) := fail x e w in
          Py.Ok (finish self job_id x [] w)
      | (Py.Ok all_onion_links, w) =>
          let x := mutate (set_total_links (Py.len all_onion_links)) x in
          let links_to_crawl := all_onion_links in
          let '(x, w) := fetch_loop x links_to_crawl w in
          let x := mutate (set_status COMPLETED) x in
          let '(x, w) := touch x w in
          let spawned :=
            match CrawlJob.pages (fst x) with
            | [] => []
            | _ :: _ => _trigger_ai_analysis job_id (fst x) w
            end in
          Py.Ok (finish self job_id x spawned w)
      end
  end.

(** [_execute_crawl_background] *)
Definition _execute_crawl_background (self : CrawlerService)
    (job_id query : string) (limit : Z) (w : World) : executed :=
  match _execute_crawl self job_id query limit w with
  | Py.Ok r => r
  | Py.Raise e =>
      match Py.dict_get String.eqb (active_jobs self) job_id with
      | Some job =>
          let '(x, w) := fail (job, []) e w in finish self job_id x [] w
      | None => mkExecuted self [] [] w
      end
  end.

(** Running a task created by [start_crawl]. *)
Definition run_task (self : CrawlerService) (t : task) (w : World)
    : option executed :=
  match t with
  | execute_crawl_background job_id query limit =>
      Some (_execute_crawl_background self job_id query limit w)
  | analyze_crawl_job _ _ => None
  end.

End WithOutside.

(** *** Invariants of the registry *)

(** Keys are distinct, every job is registered under its own id, and no two
    registered jobs with one query are both PENDING or IN_PROGRESS. *)
Definition registry_inv (jobs : registry) : Prop :=
  NoDup (map fst jobs) /\
  (forall k job, In (k, job) jobs -> CrawlJob.id job = k) /\
  (forall j1 j2,
      In j1 (Py.dict_values jobs) -> In j2 (Py.dict_values jobs) ->
      CrawlJob.query j1 = CrawlJob.query j2 ->
      is_active (CrawlJob.status j1) = true ->
      is_active (CrawlJob.status j2) = true ->
      CrawlJob.id j1 = CrawlJob.id j2).

(** *** A small world to run the code in

    The clock is a counter, files hold rows, the discovery tool writes the
    fifteen rows of scenario A to its output file, and every page can be
    fetched except one. *)

Record demo_world := mkDemo {
  clock : Z;
  files : list (string * list Limiter.row)
}.

Definition demo_line (r : Limiter.row) : string :=
  String.append (String.concat "," r) Extract.nl.

Definition demo_write (path : string) (rows : list Limiter.row)
    (w : demo_world) : demo_world :=
  mkDemo (clock w) (Py.dict_set String.eqb (files w) path rows).

Definition demo_page (url : string) (w : demo_world) : CrawledPage.t :=
  CrawledPage.mk url (Some "") "text" [] (clock w) (Some "page.txt")
                 "crawled".

Definition demo : Outside := {|
  World := demo_world;
  datetime_now := fun w => (clock w, w);
  uuid4 := fun w =>
    (String.append "job-" (Py.str_int (clock w)),
     mkDemo (clock w + 1) (files w));
  subprocess_run := fun argv w =>
    (demo_write (nth 5 argv "") Limiter.scenario_A_rows w, None);
  read_csv := fun path enc w =>
    match Py.dict_get String.eqb (files w) path with
    | Some rows => (rows, None)
    | None => ([], Some Py.OSError)
    end;
  write_csv := fun path rows w => (demo_write path rows w, None);
  readlines := fun path enc w =>
    match Py.dict_get String.eqb (files w) path with
    | Some rows => Py.Ok (map demo_line rows)
    | None => Py.Raise Py.OSError
    end;
  csv_reader := Csv.reader;
  crawl_page := fun url w =>
    (if String.eqb url "http://tor662.onion" then None
     else Some (demo_page url w), w);
  elapse := fun secs w => mkDemo (clock w + Qnum secs / Z.pos (Qden secs))
                                 (files w);
  str_exn := fun e => "error";
  settings := default_settings;
  import_ai_service := fun w => None
|}.

Definition demo_start : demo_world := mkDemo 0 [].

Definition empty_service : CrawlerService := mkService [].

(** The first submission of the query [test] in the small world, and the
    execution of the task it spawns. *)
Definition demo_submitted : started demo_world :=
  start_crawl (outside := demo) empty_service "test" (Some 3) demo_start.

Definition demo_executed : executed (outside := demo) :=
  _execute_crawl_background (outside := demo) (service demo_submitted)
    "job-0" "test" 3 (world demo_submitted).

(** [crawled_links + failed_links] of a job state. *)
Definition attempted (j : CrawlJob.t) : Z :=
  CrawlJob.crawled_links j + CrawlJob.failed_links j.

(** Two states of one job object between which only [updated_at], [pages]
    and the two counters may differ. *)
Definition same_job (j j' : CrawlJob.t) : Prop :=
  CrawlJob.id j' = CrawlJob.id j /\
  CrawlJob.query j' = CrawlJob.query j /\
  CrawlJob.status j' = CrawlJob.status j /\
  CrawlJob.total_links j' = CrawlJob.total_links j.

End Service.


(** ** [endpoints/crawler.py]: aggregation of analysis reports *)

Module Aggregator.

(** One element of the ["analyses"] array of a report: a JSON object of
    which the merge reads the keys [url], [summary] and
    [risk_assessment.score]; a key may be missing.  [risk_score] is [None]
    when [risk_assessment] or its [score] is missing.  The remaining keys
    are carried along untouched in [body]. *)
Record Analysis := mkAnalysis {
  url : option string;
  title : option string;
  summary : option string;
  risk_score : option Z;
  body : string
}.

(** [analysis.get('url', '')] *)
Definition get_url (a : Analysis) : string := Py.get_default (url a) "".

(** [analysis.get('risk_assessment', {}).get('score', 0)] *)
Definition score (a : Analysis) : Z := Py.get_default (risk_score a) 0.

(** [len(analysis.get('summary', ''))] *)
Definition summary_len (a : Analysis) : Z :=
  Py.len_str (Py.get_default (summary a) "").

(** [existing.get('url') == url] *)
Definition url_is (existing : Analysis) (u : string) : bool :=
  match url existing with
  | Some v => String.eqb v u
  | None => false
  end.

(** The condition of lines 112-113:
    [current_score > existing_score or
     (current_score == existing_score and
      current_summary_len > existing_summary_len)]. *)
Definition better (analysis existing : Analysis) : bool :=
  (score analysis >? score existing)
  || ((score analysis =? score existing)
      && (summary_len analysis >? summary_len existing)).

(** Lines 104-116: the scan of [all_analyses] for the entry with this url;
    the first hit is compared, possibly overwritten in place, and the scan
    stops ([break]). *)
Fixpoint replace_if_better (analysis : Analysis) (u : string)
    (all_analyses : list Analysis) : list Analysis :=
  match all_analyses with
  | [] => []
  | existing :: rest =>
      if url_is existing u
      then (if better analysis existing then analysis else existing) :: rest
      else existing :: replace_if_better analysis u rest
  end.

(** The loop state: [all_analyses] and [seen_urls]. *)
Definition state : Type := (list Analysis * list string)%type.

(** Lines 98-120: the body of [for analysis in analyses]. *)
Definition add_analysis (st : state) (analysis : Analysis) : state :=
  let '(all_analyses, seen_urls) := st in
  let u := get_url analysis in
  if Py.truthy_str u then
    if Py.mem u seen_urls
    then (replace_if_better analysis u all_analyses, seen_urls)
    else (all_analyses ++ [analysis], u :: seen_urls)
  else st.

(** Processing a sequence of records from the empty state. *)
Definition merge_from (st : state) (records : list Analysis) : state :=
  fold_left add_analysis records st.

Definition merge (records : list Analysis) : list Analysis :=
  fst (merge_from ([], []) records).

(** What [json.load] and [analysis_data.get('analyses', [])] give for one
    report file: [None] when opening or parsing raises (the file is then
    skipped by the [except] of line 121), otherwise the array. *)
Definition report := option (list Analysis).

Definition records_of (r : report) : list Analysis :=
  match r with Some l => l | None => [] end.

(** Lines 82-126 on the already ordered files. *)
Definition aggregate_reports (reports : list report) : list Analysis :=
  fst (fold_left (fun st r => merge_from st (records_of r)) reports ([], [])).

(** The records of the reports in processing order. *)
Definition records (reports : list report) : list Analysis :=
  flat_map records_of reports.

(** The pair compared by [better], and the url it is compared under. *)
Definition rank (a : Analysis) : Z * Z := (score a, summary_len a).
Definition tag (a : Analysis) : string * (Z * Z) := (get_url a, rank a).

(** No two records for the same url share both score and summary length
    (records without a url are never kept and are left out). *)
Definition no_ties (rs : list Analysis) : Prop :=
  NoDup (map tag (filter (fun a => Py.truthy_str (get_url a)) rs)).

(** [leftmost_best l a]: [a] occurs in [l], beats every earlier record of
    [l] with its url and is beaten by no later one. *)
Definition leftmost_best (l : list Analysis) (a : Analysis) : Prop :=
  exists pre post,
    l = pre ++ a :: post /\
    (forall r, In r pre -> get_url r = get_url a -> better a r = true) /\
    (forall r, In r post -> get_url r = get_url a -> better r a = false).

(** The loop invariant after the records [l] were processed. *)
Record invariant (l : list Analysis) (st : state) : Prop := {
  inv_urls : map url (fst st) = map Some (rev (snd st));
  inv_nodup : NoDup (snd st);
  inv_truthy : forall u, In u (snd st) -> Py.truthy_str u = true;
  inv_seen : forall r, In r l -> Py.truthy_str (get_url r) = true ->
                       In (get_url r) (snd st);
  inv_best : forall a, In a (fst st) -> leftmost_best l a
}.

(** The two reports of the spec's scenario B. *)
Definition rec_short : Analysis :=
  mkAnalysis (Some "a") None (Some "short") (Some 40) "".
Definition rec_x : Analysis :=
  mkAnalysis (Some "a") None (Some "x") (Some 70) "".

(** *** Selection of the report files (lines 60-86) *)

(** One entry of [os.listdir(reports_dir)]: its name, what
    [os.path.getctime] returns for it, and what reading it gives. *)
Record report_file := mkFile {
  filename : string;
  ctime : Z;
  content : report
}.

(** The reports directory: [None] when [os.path.exists] is false,
    otherwise the entries in [os.listdir] order. *)
Definition storage := option (list report_file).

Definition listdir (dir : storage) : list report_file :=
  match dir with Some entries => entries | None => [] end.

(** Line 67: [filename.startswith(f"analysis_report_{job_id}") and
    filename.endswith(".json")]. *)
Definition matches_job (job_id : string) (f : report_file) : bool :=
  Py.startswith (filename f) ("analysis_report_" ++ job_id)
  && Py.endswith (filename f) ".json".

(** Line 73: [f.startswith("analysis_report_") and f.endswith(".json")]. *)
Definition is_report (f : report_file) : bool :=
  Py.startswith (filename f) "analysis_report_"
  && Py.endswith (filename f) ".json".

(** Lines 63-79: the files to read, [None] standing for [return None]. *)
Definition analysis_files (dir : storage) (job_id : string)
    : option (list report_file) :=
  let analysis_files := filter (matches_job job_id) (listdir dir) in
  match analysis_files with
  | _ :: _ => Some analysis_files
  | [] =>
      let all_analysis_files := filter is_report (listdir dir) in
      match all_analysis_files with
      | _ :: _ => Some all_analysis_files
      | [] => None
      end
  end.

(** Line 86: [analysis_files.sort(key=os.path.getctime, reverse=True)].
    Python's sort is stable, also with [reverse=True]: entries with equal
    keys keep their relative order. *)
Fixpoint insert_newest_first (x : report_file) (l : list report_file)
    : list report_file :=
  match l with
  | [] => [x]
  | y :: l' =>
      if ctime y <=? ctime x then x :: y :: l'
      else y :: insert_newest_first x l'
  end.

Fixpoint sort_newest_first (l : list report_file) : list report_file :=
  match l with
  | [] => []
  | x :: l' => insert_newest_first x (sort_newest_first l')
  end.

(** The files in the order in which the loop of line 90 opens them. *)
Definition files_read (dir : storage) (job_id : string)
    : option (list report_file) :=
  option_map sort_newest_first (analysis_files dir job_id).

(** [get_analysis_results_for_job]; [None] is Python's [None].  The outer
    [except], which returns [None] as well, catches failures of the
    listing or of [getctime]; the directory model has none. *)
Definition get_analysis_results_for_job (dir : storage) (job_id : string)
    : option (list Analysis) :=
  match analysis_files dir job_id with
  | None => None
  | Some files =>
      Some (aggregate_reports (map content (sort_newest_first files)))
  end.


(** A reports directory with one report of job [j1] and two of job [j2]. *)
Definition demo_dir : storage :=
  Some [ mkFile "analysis_report_j2_20250101_000000.json" 10
                (Some [rec_short]);
         mkFile "analysis_report_j1_20250102_000000.json" 20
                (Some [rec_x]);
         mkFile "notes.txt" 30 None;
         mkFile "analysis_report_j2_20250103_000000.json" 30
                (Some [rec_x]) ].

End Aggregator.


(** ** [endpoints/crawler.py]: the lookups *)

Module Endpoints.
Import Schemas Service.

(** What a route gives: the value returned, or the [HTTPException]
    raised. *)
Inductive response (A : Type) : Type :=
| Returned (body : A)
| HTTPException (status_code : Z) (detail : string).
Arguments Returned {A} body.
Arguments HTTPException {A} status_code detail.

(** [GET /crawl/{job_id}]: the job and its [analysis_results]. *)
Definition get_crawl_status (self : CrawlerService)
    (dir : Aggregator.storage) (job_id : string)
    : response (CrawlJob.t * option (list Aggregator.Analysis)) :=
  match get_job_status self job_id with
  | None => HTTPException 404 "Crawl job not found"
  | Some job =>
      Returned (job, Aggregator.get_analysis_results_for_job dir job_id)
  end.

(** [GET /crawl/{job_id}/pages]: [{"job_id": job_id, "pages": pages}]. *)
Definition get_crawl_pages (self : CrawlerService) (job_id : string)
    : response (string * list CrawledPage.t) :=
  match get_job_pages self job_id with
  | None => HTTPException 404 "Crawl job not found"
  | Some pages => Returned (job_id, pages)
  end.

(** [DELETE /crawl/{job_id}] *)
Definition delete_crawl_job (self : CrawlerService) (job_id : string)
    : response string * CrawlerService :=
  match get_job_status self job_id with
  | None => (HTTPException 404 "Crawl job not found", self)
  | Some _ =>
      (Returned ("Crawl job " ++ job_id ++ " deleted successfully")%string,
       mkService (Py.dict_del String.eqb (active_jobs self) job_id))
  end.

End Endpoints.

(** ** The life of the service *)

Module Lifecycle.
Import Schemas Service.

Section WithOutside.
Context {outside : Outside}.

(** The states of [crawler_service] between two tasks: it starts with an
    empty registry ([CrawlerService.__init__]), and is changed by
    submissions, by executions of crawl tasks and by deletions. *)
Inductive reachable : CrawlerService -> Prop :=
| reach_init : reachable (mkService [])
| reach_start self query limit w :
    reachable self ->
    reachable (service (start_crawl self query limit w))
| reach_execute self job_id query limit w :
    reachable self ->
    reachable
      (exec_service (_execute_crawl_background self job_id query limit w))
| reach_delete self job_id :
    reachable self ->
    reachable (snd (Endpoints.delete_crawl_job self job_id)).

(** A terminal status. *)
Definition is_terminal (s : CrawlStatus) : bool :=
  match s with
  | COMPLETED | FAILED => true
  | PENDING | IN_PROGRESS => false
  end.

End WithOutside.

End Lifecycle.

(** ** Groups of limited rows *)

Module Regroup.
Import Limiter.

(** A group that holds a row. *)
Definition nonempty_group (g : string * list row) : bool :=
  match snd g with [] => false | _ :: _ => true end.

(** The groups after [results[:per_engine_limit]] was taken of each. *)
Definition sliced (k : Z) (d : engine_results) : engine_results :=
  map (fun '(e, rs) => (e, Py.slice_to rs k)) d.

End Regroup.

(** ** A world with a late decoding error *)

Module Worlds.
Import Schemas Service.

Definition row_one : Limiter.row := ["ahmia"; "One"; "http://one.onion"].
Definition row_two : Limiter.row := ["ahmia"; "Two"; "http://two.onion"].

(** The discovery file holds two rows, the second with a byte that UTF-8
    rejects: reading it as UTF-8 yields the first row and then raises,
    reading it as Windows-1252 yields both.  The world is the files
    written. *)
Definition late_error : Outside := {|
  World := list (string * list Limiter.row);
  datetime_now := fun w => (0, w);
  uuid4 := fun w => ("id", w);
  subprocess_run := fun argv w => (w, None);
  read_csv := fun path enc w =>
    match enc with
    | Extract.utf_8 => ([row_one], Some Py.UnicodeDecodeError)
    | Extract.windows_1252 => ([row_one; row_two], None)
    end;
  write_csv := fun path rows w => (Py.dict_set String.eqb w path rows, None);
  readlines := fun path enc w => Py.Raise Py.OSError;
  csv_reader := Csv.reader;
  crawl_page := fun url w => (None, w);
  elapse := fun secs w => w;
  str_exn := fun e => "error";
  settings := Config.default_settings;
  import_ai_service := fun w => None
|}.

End Worlds.

(** ** Artifacts for the error cases of the extraction *)

Module Artifacts.
Import Extract.

(** A file that cannot be opened. *)
Definition missing : artifact := fun _ => Py.Raise Py.OSError.

(** A header and a row that stops after its second field. *)
Definition with_short_row : artifact :=
  plain [header; String.append "tor66,Good,http://abc.onion" nl;
         "tor66,OnlyTwo"].

(** Three rows for two urls, the first url coming back last. *)
Definition abc_first : Schemas.OnionLink.t :=
  Schemas.OnionLink.new "http://abc.onion" (Some "First") (Some "ahmia").
Definition xyz : Schemas.OnionLink.t :=
  Schemas.OnionLink.new "http://xyz.onion" (Some "Other") (Some "tor66").
Definition abc_last : Schemas.OnionLink.t :=
  Schemas.OnionLink.new "http://abc.onion" (Some "Last") (Some "phobos").

(** Two data rows without a header row, the first with a link that lacks
    the marker. *)
Definition clear_first : list string :=
  [ String.append "ahmia,Clear,http://example.com" Extract.nl;
    String.append "tor66,Site,http://abc.onion" Extract.nl ].

End Artifacts.

(** ** Reports for the examples of the aggregation *)

Module Reports.
Import Aggregator.

(** A directory in which the only report of job [j1] cannot be read, next to
    a readable report of job [j2]. *)
Definition unreadable_dir : storage :=
  Some [ mkFile "analysis_report_j1_20250101_000000.json" 10 None;
         mkFile "analysis_report_j2_20250102_000000.json" 20
                (Some [rec_x]) ].

(** A record without a url. *)
Definition rec_nourl : Analysis :=
  mkAnalysis None None (Some "no url") (Some 90) "".

End Reports.

(** ** The monitoring statistics (app/api/v1/endpoints/monitoring.py) *)

Module Monitoring.
Import Schemas Service.

(** [CrawlStatus] is a [str] enumeration: a member compares equal to the
    string that is its value. *)
Definition value (s : CrawlStatus) : string :=
  match s with
  | PENDING => "pending"
  | IN_PROGRESS => "in_progress"
  | COMPLETED => "completed"
  | FAILED => "failed"
  end.

(** An entry of [recent_activity]; [timestamp] is the time of which the
    entry shows the [isoformat()]. *)
Record activity := mkActivity {
  job_id : string;
  query : string;
  status : CrawlStatus;
  timestamp : datetime;
  pages_crawled : Z
}.

Record MonitoringStats := mkStats {
  total_crawls : Z;
  active_crawls : Z;
  total_pages_crawled : Z;
  total_analyses : Z;
  risk_distribution : list (string * Z);
  recent_activity : list activity
}.

(** [sorted(jobs, key=lambda x: x.updated_at, reverse=True)]: the sort is
    stable, also with [reverse=True], so jobs with equal keys keep their
    order. *)
Fixpoint insert_recent (x : CrawlJob.t) (l : list CrawlJob.t)
    : list CrawlJob.t :=
  match l with
  | [] => [x]
  | y :: l' =>
      if CrawlJob.updated_at y <=? CrawlJob.updated_at x then x :: y :: l'
      else y :: insert_recent x l'
  end.

Fixpoint sorted_recent (l : list CrawlJob.t) : list CrawlJob.t :=
  match l with
  | [] => []
  | x :: l' => insert_recent x (sorted_recent l')
  end.

(** The dictionary built for a job in lines 26-35. *)
Definition activity_of (job : CrawlJob.t) : activity :=
  mkActivity (CrawlJob.id job) (CrawlJob.query job) (CrawlJob.status job)
             (CrawlJob.updated_at job) (Py.len (CrawlJob.pages job)).

(** [sum(...)] of integers. *)
Definition sum (l : list Z) : Z := fold_left Z.add l 0.

(** [job.status == "in_progress"] *)
Definition in_progress (job : CrawlJob.t) : bool :=
  String.eqb (value (CrawlJob.status job)) "in_progress".

(** [get_monitoring_stats]; nothing in its [try] raises, so the answer is
    always the statistics. *)
Definition get_monitoring_stats (self : CrawlerService) : MonitoringStats :=
  let jobs := list_jobs self in
  let total_crawls := Py.len jobs in
  let active_crawls := Py.len (filter in_progress jobs) in
  let total_pages_crawled :=
    sum (map (fun job => Py.len (CrawlJob.pages job)) jobs) in
  let risk_distribution :=
    [("low", 0); ("medium", 0); ("high", 0); ("critical", 0)] in
  let recent_jobs := Py.slice_to (sorted_recent jobs) 5 in
  let recent_activity := map activity_of recent_jobs in
  mkStats total_crawls active_crawls total_pages_crawled 0
          risk_distribution recent_activity.

(** Whether a job is counted by [active_crawls], as a number. *)
Definition counted (job : CrawlJob.t) : Z :=
  match CrawlJob.status job with IN_PROGRESS => 1 | _ => 0 end.

(** The order of [recent_activity]. *)
Definition not_older (a b : CrawlJob.t) : Prop :=
  CrawlJob.updated_at b <= CrawlJob.updated_at a.

End Monitoring.

(** ** The summary of analyses (app/services/ai_service.py) *)

Module AIService.
Import Schemas Service.

Inductive RiskLevel : Type := LOW | MEDIUM | HIGH | CRITICAL.

(** [level.value] *)
Definition value (l : RiskLevel) : string :=
  match l with
  | LOW => "low"
  | MEDIUM => "medium"
  | HIGH => "high"
  | CRITICAL => "critical"
  end.

Module RiskAssessment.
Record t := mk {
  score : Z;
  level : RiskLevel;
  category : string;
  details : option string
}.
End RiskAssessment.

Module PIIData.
Record t := mk {
  names : list string;
  emails : list string;
  websites : list string;
  contact_numbers : list string
}.
End PIIData.

Module AIAnalysis.
Record t := mk {
  title : string;
  url : string;
  summary : string;
  risk_assessment : RiskAssessment.t;
  keywords : list string;
  pii : PIIData.t;
  action_plan : string;
  analysis_timestamp : datetime
}.
End AIAnalysis.

(** An entry of [high_risk_pages]. *)
Module HighRiskPage.
Record t := mk {
  url : string;
  title : string;
  risk_score : Z;
  category : string
}.
End HighRiskPage.

(** An entry of [top_keywords]. *)
Module TopKeyword.
Record t := mk {
  keyword : string;
  frequency : Z
}.
End TopKeyword.

(** The dictionary [summary] of [generate_summary_report]. *)
Module SummaryReport.
Record t := mk {
  total_pages_analyzed : Z;
  risk_distribution : list (string * Z);
  high_risk_pages : list HighRiskPage.t;
  top_keywords : list TopKeyword.t;
  analysis_timestamp : datetime;
  recommendations : list string
}.
End SummaryReport.

(** What [generate_summary_report] returns: [{"error": message}] or the
    summary. *)
Inductive report : Type :=
| error (message : string)
| summary (s : SummaryReport.t).

Definition bind {A B} (r : Py.result A) (k : A -> Py.result B)
    : Py.result B :=
  match r with
  | Py.Ok a => k a
  | Py.Raise e => Py.Raise e
  end.

Notation "x <- e ;; k" := (bind e (fun x => k))
  (at level 61, e at next level, right associativity).

(** [d[k]]: [KeyError] for a key that is missing. *)
Definition index (d : list (string * Z)) (k : string) : Py.result Z :=
  match Py.dict_get String.eqb d k with
  | Some v => Py.Ok v
  | None => Py.Raise Py.KeyError
  end.

(** The dictionary appended to [high_risk_pages] in lines 135-140. *)
Definition page_of (analysis : AIAnalysis.t) : HighRiskPage.t :=
  HighRiskPage.mk (AIAnalysis.url analysis) (AIAnalysis.title analysis)
    (RiskAssessment.score (AIAnalysis.risk_assessment analysis))
    (RiskAssessment.category (AIAnalysis.risk_assessment analysis)).

(** Lines 129-140: one iteration of [for analysis in analyses], on
    [risk_distribution], [all_keywords] and [high_risk_pages]. *)
Definition visit
    (st : list (string * Z) * list string * list HighRiskPage.t)
    (analysis : AIAnalysis.t)
    : Py.result (list (string * Z) * list string * list HighRiskPage.t) :=
  let '(risk_distribution, all_keywords, high_risk_pages) := st in
  let risk_level :=
    value (RiskAssessment.level (AIAnalysis.risk_assessment analysis)) in
  n <- index risk_distribution risk_level ;;
  let risk_distribution :=
    Py.dict_set String.eqb risk_distribution risk_level (n + 1) in
  let all_keywords := all_keywords ++ AIAnalysis.keywords analysis in
  let high_risk_pages :=
    if Py.mem risk_level ["high"; "critical"]
    then high_risk_pages ++ [page_of analysis]
    else high_risk_pages in
  Py.Ok (risk_distribution, all_keywords, high_risk_pages).

Fixpoint visit_all
    (st : list (string * Z) * list string * list HighRiskPage.t)
    (analyses : list AIAnalysis.t)
    : Py.result (list (string * Z) * list string * list HighRiskPage.t) :=
  match analyses with
  | [] => Py.Ok st
  | analysis :: analyses' =>
      st <- visit st analysis ;; visit_all st analyses'
  end.

(** Line 145: [keyword_freq[keyword] = keyword_freq.get(keyword, 0) + 1]. *)
Definition count_keyword (keyword_freq : list (string * Z))
    (keyword : string) : list (string * Z) :=
  Py.dict_set String.eqb keyword_freq keyword
    (Py.get_default (Py.dict_get String.eqb keyword_freq keyword) 0 + 1).

(** Lines 143-145. *)
Definition keyword_freq (all_keywords : list string) : list (string * Z) :=
  fold_left count_keyword all_keywords [].

(** [sorted(keyword_freq.items(), key=lambda x: x[1], reverse=True)]: the
    sort is stable, also with [reverse=True]. *)
Fixpoint insert_frequent (x : string * Z) (l : list (string * Z))
    : list (string * Z) :=
  match l with
  | [] => [x]
  | y :: l' =>
      if snd y <=? snd x then x :: y :: l' else y :: insert_frequent x l'
  end.

Fixpoint sorted_frequent (l : list (string * Z)) : list (string * Z) :=
  match l with
  | [] => []
  | x :: l' => insert_frequent x (sorted_frequent l')
  end.

(** [_generate_recommendations] *)
Definition _generate_recommendations (risk_distribution : list (string * Z))
    (high_risk_pages : list HighRiskPage.t) : Py.result (list string) :=
  let recommendations := [] in
  critical <- index risk_distribution "critical" ;;
  let recommendations :=
    if 0 <? critical
    then recommendations ++
         ["CRITICAL: Immediate attention required for critical risk pages"]
    else recommendations in
  high <- index risk_distribution "high" ;;
  let recommendations :=
    if 0 <? high
    then recommendations ++ ["HIGH: Monitor high-risk pages closely"]
    else recommendations in
  let recommendations :=
    if 5 <? Py.len high_risk_pages
    then recommendations ++
         ["Consider implementing automated monitoring for high-risk domains"]
    else recommendations in
  low <- index risk_distribution "low" ;;
  high <- index risk_distribution "high" ;;
  critical <- index risk_distribution "critical" ;;
  let recommendations :=
    if high + critical <? low
    then recommendations ++ ["Overall risk level appears manageable"]
    else recommendations in
  Py.Ok recommendations.

Section WithOutside.
Context {outside : Outside}.

(** [generate_summary_report] *)
Definition generate_summary_report (analyses : list AIAnalysis.t)
    (w : World) : Py.result report * World :=
  match analyses with
  | [] => (Py.Ok (error "No analyses provided"), w)
  | _ :: _ =>
      let total_analyses := Py.len analyses in
      let risk_distribution :=
        [("low", 0); ("medium", 0); ("high", 0); ("critical", 0)] in
      match visit_all (risk_distribution, [], []) analyses with
      | Py.Raise e => (Py.Raise e, w)
      | Py.Ok (risk_distribution, all_keywords, high_risk_pages) =>
          let keyword_freq := keyword_freq all_keywords in
          let top_keywords :=
            Py.slice_to (sorted_frequent keyword_freq) 10 in
          let '(now, w) := datetime_now w in
          match _generate_recommendations risk_distribution
                                          high_risk_pages with
          | Py.Raise e => (Py.Raise e, w)
          | Py.Ok recommendations =>
              (Py.Ok (summary
                 (SummaryReport.mk total_analyses risk_distribution
                    high_risk_pages
                    (map (fun kf => TopKeyword.mk (fst kf) (snd kf))
                         top_keywords)
                    now recommendations)),
               w)
          end
      end
  end.

End WithOutside.

(** Line 188: the name of the file that [save_analysis_report] writes for
    [crawl_id], [stamp] being [datetime.now().strftime('%Y%m%d_%H%M%S')]. *)
Definition report_filename (crawl_id stamp : string) : string :=
  ("analysis_report_" ++ crawl_id ++ "_" ++ stamp ++ ".json")%string.

(** Whether an analysis has the level, and whether it goes to
    [high_risk_pages]. *)
Definition level_is (l : RiskLevel) (analysis : AIAnalysis.t) : bool :=
  String.eqb
    (value (RiskAssessment.level (AIAnalysis.risk_assessment analysis)))
    (value l).

Definition is_high_risk (analysis : AIAnalysis.t) : bool :=
  level_is HIGH analysis || level_is CRITICAL analysis.

Definition count_level (l : RiskLevel) (analyses : list AIAnalysis.t) : Z :=
  Py.len (filter (level_is l) analyses).

(** What an analysis adds to the count of a level. *)
Definition bump (l : RiskLevel) (x : AIAnalysis.t) : Z :=
  if level_is l x then 1 else 0.

(** [keyword_freq.get(k, 0)] *)
Definition freq_of (d : list (string * Z)) (k : string) : Z :=
  Py.get_default (Py.dict_get String.eqb d k) 0.

(** The order of the sorted items. *)
Definition more_frequent (a b : string * Z) : Prop := snd b <= snd a.

(** A [risk_distribution] with its four entries. *)
Definition distribution (low medium high critical : Z)
    : list (string * Z) :=
  [("low", low); ("medium", medium); ("high", high);
   ("critical", critical)].

(** The order of [top_keywords]. *)
Definition not_rarer (a b : TopKeyword.t) : Prop :=
  TopKeyword.frequency b <= TopKeyword.frequency a.

(** Three analyses to run the summary on. *)
Definition demo_analysis (url : string) (level : RiskLevel)
    (keywords : list string) : AIAnalysis.t :=
  AIAnalysis.mk "title" url "summary"
    (RiskAssessment.mk 50 level "market" None) keywords
    (PIIData.mk [] [] [] []) "watch" 0.

Definition demo_analyses : list AIAnalysis.t :=
  [ demo_analysis "http://a.onion" CRITICAL ["drugs"; "market"];
    demo_analysis "http://b.onion" LOW ["market"];
    demo_analysis "http://c.onion" MEDIUM ["forum"; "market"; "drugs"] ].

End AIService.

(** ** The rows that the limiter writes *)

Module LimitedFile.
Import Service.

Section WithOutside.
Context {outside : Outside}.

(** Lines 168-191 of [_limit_results_per_engine]: the value of
    [limited_results] that line 197 passes to [writer.writerows], or the
    exception that the reading raised. *)
Definition limited_results (csv_file : string) (per_engine_limit : Z)
    (w : World) : Py.result (list Limiter.row) :=
  match read_engine_results csv_file Extract.try_encodings [] w with
  | Py.Raise e => Py.Raise e
  | Py.Ok engine_results =>
      Py.Ok (Limiter.limit_groups engine_results per_engine_limit)
  end.

End WithOutside.

End LimitedFile.

(** ** Worlds with other settings *)

Module Environments.
Import Schemas Service Config.

(** The small world with the settings and the outcome of the import
    replaced. *)
Definition small_world (s : Config.Settings)
    (import : demo_world -> option Py.exn) : Outside := {|
  World := demo_world;
  datetime_now := @datetime_now demo;
  uuid4 := @uuid4 demo;
  subprocess_run := @subprocess_run demo;
  read_csv := @read_csv demo;
  write_csv := @write_csv demo;
  readlines := @readlines demo;
  csv_reader := @csv_reader demo;
  crawl_page := @crawl_page demo;
  elapse := @elapse demo;
  str_exn := @str_exn demo;
  settings := s;
  import_ai_service := import
|}.

(** The settings of a process started with [CRAWL_DELAY=-1] in its
    environment. *)
Definition negative_delay_settings : Config.Settings :=
  mkSettings "127.0.0.1" 9050 10 (Py.finite (-1 # 1)) 5 "data".

Definition negative_delay : Outside :=
  small_world negative_delay_settings (fun w => None).

(** The default settings in a process in which the analysis service cannot
    be imported. *)
Definition import_fails : Outside :=
  small_world default_settings (fun w => Some Py.ValueError).

End Environments.

(* ================================================================== *)
(** * Part II: theorems *)
(* ================================================================== *)

(** ** Aggregation: the merge of analysis records *)

Section AggregatorFacts.
Import Aggregator.

Lemma better_iff a b :
  better a b = true <->
  score b < score a \/ (score a = score b /\ summary_len b < summary_len a).
Proof.
  unfold better.
  rewrite orb_true_iff, andb_true_iff, !Z.gtb_lt, Z.eqb_eq. tauto.
Qed.

Lemma better_false_iff a b :
  better a b = false <->
  score a < score b \/ (score a = score b /\ summary_len a <= summary_len b).
Proof.
  destruct (better a b) eqn:E.
  - apply better_iff in E. split; [discriminate | lia].
  - split; [intros _ | reflexivity].
    assert (H : ~ (score b < score a \/
                   (score a = score b /\ summary_len b < summary_len a))).
    { rewrite <- better_iff, E. discriminate. }
    lia.
Qed.

Lemma better_trans a b c :
  better a b = true -> better b c = true -> better a c = true.
Proof. rewrite !better_iff. lia. Qed.

Lemma better_le_trans a b c :
  better a b = true -> better c b = false -> better a c = true.
Proof. rewrite !better_iff, better_false_iff. lia. Qed.

Lemma better_asym a b : better a b = true -> better b a = false.
Proof. rewrite better_iff, better_false_iff. lia. Qed.

Lemma rank_eq a b :
  better a b = false -> better b a = false -> rank a = rank b.
Proof.
  rewrite !better_false_iff. unfold rank. intros H1 H2.
  f_equal; lia.
Qed.

Lemma truthy_nonempty s : Py.truthy_str s = true <-> s <> "".
Proof. destruct s; simpl; split; congruence. Qed.

Lemma mem_In x s : Py.mem x s = true <-> In x s.
Proof.
  induction s as [|y s IH]; simpl.
  - split; [discriminate | tauto].
  - rewrite orb_true_iff, IH, String.eqb_eq. split; intros [H|H]; auto.
Qed.

Lemma url_is_iff a u : url_is a u = true <-> url a = Some u.
Proof.
  unfold url_is. destruct (url a) as [v|].
  - rewrite String.eqb_eq. split; congruence.
  - split; discriminate.
Qed.

Lemma get_url_truthy a :
  Py.truthy_str (get_url a) = true -> url a = Some (get_url a).
Proof.
  unfold get_url. destruct (url a); simpl; [reflexivity | discriminate].
Qed.

(** The scan rewrites exactly the first entry carrying the url. *)
Lemma replace_if_better_split x u all :
  In (Some u) (map url all) ->
  exists p old q,
    all = p ++ old :: q /\ url old = Some u /\
    ~ In (Some u) (map url p) /\
    replace_if_better x u all
      = p ++ (if better x old then x else old) :: q.
Proof.
  induction all as [|e rest IH]; simpl; [tauto|].
  intros Hin. destruct (url_is e u) eqn:E.
  - apply url_is_iff in E. exists [], e, rest. simpl. auto.
  - assert (Hne : url e <> Some u).
    { intros C. apply url_is_iff in C. congruence. }
    destruct Hin as [Hin|Hin]; [contradiction|].
    destruct (IH Hin) as (p & old & q & -> & Hu & Hp & Hr).
    exists (e :: p), old, q. simpl. rewrite Hr.
    repeat split; auto. intros [C|C]; auto.
Qed.

Lemma merge_from_snoc st l x :
  merge_from st (l ++ [x]) = add_analysis (merge_from st l) x.
Proof. unfold merge_from. now rewrite fold_left_app. Qed.

Lemma leftmost_best_snoc_other l a x :
  leftmost_best l a -> get_url x <> get_url a -> leftmost_best (l ++ [x]) a.
Proof.
  intros (pre & post & -> & Hpre & Hpost) Hne.
  exists pre, (post ++ [x]). rewrite <- app_assoc. simpl.
  repeat split; auto.
  intros r Hr E. apply in_app_or in Hr as [Hr|[->|[]]]; auto.
  congruence.
Qed.

Lemma leftmost_best_snoc_keep l a x :
  leftmost_best l a -> better x a = false -> leftmost_best (l ++ [x]) a.
Proof.
  intros (pre & post & -> & Hpre & Hpost) Hb.
  exists pre, (post ++ [x]). rewrite <- app_assoc. simpl.
  repeat split; auto.
  intros r Hr E. apply in_app_or in Hr as [Hr|[->|[]]]; auto.
Qed.

Lemma leftmost_best_snoc_new l old x :
  leftmost_best l old -> get_url old = get_url x -> better x old = true ->
  (forall r, In r l -> get_url r = get_url x -> True) ->
  leftmost_best (l ++ [x]) x.
Proof.
  intros (pre & post & -> & Hpre & Hpost) Hu Hb _.
  exists (pre ++ old :: post), []. repeat split; [|intros r []].
  intros r Hr E. apply in_app_or in Hr as [Hr|[->|Hr]]; auto.
  - apply better_trans with old; auto. apply Hpre; congruence.
  - apply better_le_trans with old; auto. apply Hpost; congruence.
Qed.

Lemma invariant_nil : invariant [] ([], []).
Proof. constructor; simpl; auto; try tauto. constructor. Qed.

Lemma url_get_url a u : url a = Some u -> get_url a = u.
Proof. unfold get_url. now intros ->. Qed.

Lemma invariant_step l st x :
  invariant l st -> invariant (l ++ [x]) (add_analysis st x).
Proof.
  intros [Hu Hnd Htr Hseen Hbest]. destruct st as [all seen]. simpl in *.
  unfold add_analysis.
  destruct (Py.truthy_str (get_url x)) eqn:Et.
  2:{ constructor; simpl; auto.
      - intros r Hr Hrt. apply in_app_or in Hr as [Hr|[->|[]]]; auto.
        congruence.
      - intros a Ha. apply leftmost_best_snoc_other; auto.
        intros E. assert (In (url a) (map url all)) by now apply in_map.
        rewrite Hu in H. apply in_map_iff in H as (u & Hua & Hin).
        apply in_rev in Hin. apply Htr in Hin.
        symmetry in Hua. apply url_get_url in Hua. congruence. }
  pose proof (get_url_truthy _ Et) as Hxu.
  destruct (Py.mem (get_url x) seen) eqn:Em.
  - apply mem_In in Em.
    assert (Hin : In (Some (get_url x)) (map url all)).
    { rewrite Hu. apply in_map. now apply in_rev in Em. }
    destruct (@replace_if_better_split x _ _ Hin)
      as (p & old & q & Hall & Hold & Hp & ->).
    assert (Hq : ~ In (Some (get_url x)) (map url q)).
    { intros C. assert (ND : NoDup (map url all)).
      { rewrite Hu. apply Finite.Injective_map_NoDup.
        - intros ? ? ?; congruence.
        - now apply NoDup_rev. }
      rewrite Hall, map_app in ND. simpl in ND.
      apply NoDup_remove_2 in ND. apply ND, in_or_app. right.
      now rewrite Hold in *. }
    assert (Holdin : In old all) by (rewrite Hall; apply in_elt).
    constructor; simpl.
    + rewrite <- Hu, Hall, !map_app. simpl.
      destruct (better x old); congruence.
    + assumption.
    + assumption.
    + intros r Hr Hrt. apply in_app_or in Hr as [Hr|[->|[]]]; auto.
    + intros a Ha. apply in_app_or in Ha as [Ha|[Ha|Ha]].
      * apply leftmost_best_snoc_other.
        -- apply Hbest. rewrite Hall. apply in_or_app. now left.
        -- intros E. apply Hp. apply in_map_iff. exists a. split; auto.
           rewrite E. apply get_url_truthy.
           rewrite <- E. assumption.
      * destruct (better x old) eqn:Eb; subst a.
        -- apply leftmost_best_snoc_new with old; auto.
           now apply url_get_url.
        -- apply leftmost_best_snoc_keep; auto.
      * apply leftmost_best_snoc_other.
        -- apply Hbest. rewrite Hall. apply in_or_app. right. now right.
        -- intros E. apply Hq. apply in_map_iff. exists a. split; auto.
           rewrite E. apply get_url_truthy.
           rewrite <- E. assumption.
  - assert (Hnin : ~ In (get_url x) seen).
    { intros C. apply mem_In in C. congruence. }
    constructor; simpl.
    + rewrite map_app, Hu. simpl. rewrite Hxu, map_app. reflexivity.
    + now constructor.
    + intros u [<-|Hin]; auto.
    + intros r Hr Hrt. apply in_app_or in Hr as [Hr|[->|[]]]; auto.
    + intros a Ha. apply in_app_or in Ha as [Ha|[<-|[]]].
      * apply leftmost_best_snoc_other; auto.
        intros E. apply Hnin.
        assert (H : In (url a) (map url all)) by now apply in_map.
        rewrite Hu in H. apply in_map_iff in H as (u & Hua & Hin).
        apply in_rev in Hin. symmetry in Hua.
        apply url_get_url in Hua. congruence.
      * exists l, []. repeat split; [|intros r []].
        intros r Hr E. exfalso. apply Hnin. rewrite <- E.
        apply Hseen; auto. now rewrite E.
Qed.

Lemma merge_invariant l : invariant l (merge_from ([], []) l).
Proof.
  induction l as [|x l IH] using rev_ind.
  - apply invariant_nil.
  - rewrite merge_from_snoc. now apply invariant_step.
Qed.

Lemma aggregate_reports_merge reports :
  aggregate_reports reports = merge (records reports).
Proof.
  unfold aggregate_reports, merge, records. f_equal.
  generalize (@nil Analysis, @nil string).
  induction reports as [|r reports IH]; intros st; simpl; [reflexivity|].
  rewrite IH. unfold merge_from. now rewrite fold_left_app.
Qed.

Lemma merge_NoDup l : NoDup (merge l).
Proof.
  destruct (merge_invariant l) as [Hu Hnd _ _ _]. unfold merge.
  apply NoDup_map_inv with (f := url). rewrite Hu.
  apply Finite.Injective_map_NoDup; [intros ? ? ?; congruence|].
  now apply NoDup_rev.
Qed.

Lemma merge_In_url l a :
  In a (merge l) ->
  In a l /\ Py.truthy_str (get_url a) = true.
Proof.
  intros Ha. destruct (merge_invariant l) as [Hu _ Htr _ Hbest].
  split.
  - destruct (Hbest a Ha) as (pre & post & -> & _). apply in_elt.
  - assert (H : In (url a) (map url (merge l))) by now apply in_map.
    unfold merge in H. rewrite Hu in H.
    apply in_map_iff in H as (u & Hua & Hin). apply in_rev in Hin.
    symmetry in Hua. apply url_get_url in Hua. rewrite Hua. auto.
Qed.

Lemma merge_covers l r :
  In r l -> Py.truthy_str (get_url r) = true ->
  exists a, In a (merge l) /\ get_url a = get_url r.
Proof.
  intros Hr Ht. destruct (merge_invariant l) as [Hu _ _ Hseen _].
  specialize (Hseen r Hr Ht). apply in_rev in Hseen.
  apply (in_map Some) in Hseen. rewrite <- Hu in Hseen.
  apply in_map_iff in Hseen as (a & Ha & Hin).
  exists a. split; [exact Hin | now apply url_get_url].
Qed.

Lemma leftmost_best_max l a r :
  leftmost_best l a -> In r l -> get_url r = get_url a ->
  better r a = false.
Proof.
  intros (pre & post & -> & Hpre & Hpost) Hr E.
  apply in_app_or in Hr as [Hr|[<-|Hr]]; auto.
  - apply better_asym; auto.
  - rewrite better_false_iff. lia.
Qed.

Lemma no_ties_inj l a b :
  no_ties l -> In a l -> In b l ->
  Py.truthy_str (get_url a) = true ->
  get_url a = get_url b -> rank a = rank b -> a = b.
Proof.
  unfold no_ties. intros ND Ha Hb Ht Eu Er.
  set (f := fun a => Py.truthy_str (get_url a)) in *.
  assert (Ha' : In a (filter f l)) by (apply filter_In; auto).
  assert (Hb' : In b (filter f l)).
  { apply filter_In; split; auto. unfold f. now rewrite <- Eu. }
  assert (Et : tag a = tag b) by (unfold tag; congruence).
  revert ND Ha' Hb' Et. generalize (filter f l). clear.
  intros m. induction m as [|c m IH]; simpl; [tauto|].
  intros ND [->|Ha] [->|Hb] Et; auto.
  - inversion ND as [|? ? Hn _]. exfalso. apply Hn. rewrite Et.
    now apply in_map.
  - inversion ND as [|? ? Hn _]. exfalso. apply Hn. rewrite <- Et.
    now apply in_map.
  - inversion ND; auto.
Qed.

Lemma no_ties_perm l1 l2 : Permutation l1 l2 -> no_ties l1 -> no_ties l2.
Proof.
  unfold no_ties. intros P. apply Permutation_NoDup.
  apply Permutation_map.
  induction P; simpl.
  - constructor.
  - destruct (Py.truthy_str (get_url x)); auto.
  - destruct (Py.truthy_str (get_url x)), (Py.truthy_str (get_url y));
      auto using perm_swap.
  - eapply perm_trans; eauto.
Qed.

Lemma merge_incl_perm l1 l2 a :
  Permutation l1 l2 -> no_ties l1 -> In a (merge l1) -> In a (merge l2).
Proof.
  intros P NT Ha.
  destruct (merge_In_url _ _ Ha) as [Hal Ht].
  assert (Hal2 : In a l2) by (eapply Permutation_in; eauto).
  destruct (merge_covers _ _ Hal2 Ht) as (b & Hb & Eu).
  destruct (merge_In_url _ _ Hb) as [Hbl2 _].
  assert (Hbl : In b l1).
  { eapply Permutation_in; [apply Permutation_sym|]; eauto. }
  assert (E : a = b).
  { apply no_ties_inj with l1; auto.
    apply rank_eq.
    - apply leftmost_best_max with l2; auto.
      now apply (inv_best (merge_invariant l2)).
    - apply leftmost_best_max with l1; auto.
      now apply (inv_best (merge_invariant l1)). }
  now subst.
Qed.

Lemma merge_perm l1 l2 :
  Permutation l1 l2 -> no_ties l1 -> Permutation (merge l1) (merge l2).
Proof.
  intros P NT. apply NoDup_Permutation; try apply merge_NoDup.
  intros a; split; apply merge_incl_perm; auto.
  - now apply Permutation_sym.
  - eapply no_ties_perm; eauto.
Qed.

Lemma records_perm reports1 reports2 :
  Permutation reports1 reports2 ->
  Permutation (records reports1) (records reports2).
Proof. intros P. unfold records. induction P; simpl.
  - constructor.
  - now apply Permutation_app_head.
  - rewrite !app_assoc. apply Permutation_app_tail, Permutation_app_comm.
  - eapply perm_trans; eauto.
Qed.

Lemma merge_seen_step l x :
  Py.truthy_str (get_url x) = true ->
  (exists r, In r l /\ get_url r = get_url x) ->
  exists p old q,
    merge l = p ++ old :: q /\ url old = Some (get_url x) /\
    merge (l ++ [x]) = p ++ (if better x old then x else old) :: q.
Proof.
  intros Ht (r & Hr & Er). unfold merge. rewrite merge_from_snoc.
  destruct (merge_invariant l) as [Hu _ _ Hseen _].
  destruct (merge_from ([], []) l) as [all seen] eqn:E. simpl in *.
  assert (Hin : In (get_url x) seen).
  { rewrite <- Er. apply Hseen; auto. now rewrite Er. }
  unfold add_analysis. rewrite Ht.
  assert (Em : Py.mem (get_url x) seen = true) by now apply mem_In.
  rewrite Em. simpl.
  assert (Hin' : In (Some (get_url x)) (map url all)).
  { rewrite Hu. apply in_map. now apply in_rev in Hin. }
  destruct (@replace_if_better_split x _ _ Hin')
    as (p & old & q & Hall & Hold & _ & Hrep).
  exists p, old, q. auto.
Qed.

End AggregatorFacts.

(** C3. The merge is best-known-verdict-wins.
    (1) When a record [x] whose url was already seen is read, the kept record
    [old] for that url is overwritten by [x] exactly when the score of [x] is
    strictly higher, or the scores are equal and the summary of [x] is
    strictly longer; otherwise the kept list is unchanged.
    (2) For two processing orders of the same reports in which no two records
    for one url share both score and summary length, the kept records are the
    same up to their order in the list.
    (3) Every kept record strictly beats all earlier records of its url and is
    beaten by no later one, hence of two tied records the earlier is kept. *)
Theorem aggregate_best_known_verdict_wins :
  (forall l x,
      Py.truthy_str (Aggregator.get_url x) = true ->
      (exists r, In r l /\ Aggregator.get_url r = Aggregator.get_url x) ->
      exists p old q,
        Aggregator.merge l = p ++ old :: q /\
        Aggregator.url old = Some (Aggregator.get_url x) /\
        ((Aggregator.score old < Aggregator.score x \/
          (Aggregator.score x = Aggregator.score old /\
           Aggregator.summary_len old < Aggregator.summary_len x)) ->
         Aggregator.merge (l ++ [x]) = p ++ x :: q) /\
        (~ (Aggregator.score old < Aggregator.score x \/
            (Aggregator.score x = Aggregator.score old /\
             Aggregator.summary_len old < Aggregator.summary_len x)) ->
         Aggregator.merge (l ++ [x]) = Aggregator.merge l))
  /\
  (forall reports1 reports2,
      Permutation reports1 reports2 ->
      Aggregator.no_ties (Aggregator.records reports1) ->
      Permutation (Aggregator.aggregate_reports reports1)
                  (Aggregator.aggregate_reports reports2))
  /\
  (forall reports kept,
      In kept (Aggregator.aggregate_reports reports) ->
      exists pre post,
        Aggregator.records reports = pre ++ kept :: post /\
        (forall r, In r pre ->
           Aggregator.get_url r = Aggregator.get_url kept ->
           Aggregator.score r < Aggregator.score kept \/
           (Aggregator.score kept = Aggregator.score r /\
            Aggregator.summary_len r < Aggregator.summary_len kept)) /\
        (forall r, In r post ->
           Aggregator.get_url r = Aggregator.get_url kept ->
           Aggregator.score r < Aggregator.score kept \/
           (Aggregator.score r = Aggregator.score kept /\
            Aggregator.summary_len r <= Aggregator.summary_len kept))).
Proof.
  split; [|split].
  - intros l x Ht Hseen.
    destruct (@merge_seen_step l x Ht Hseen) as (p & old & q & Hl & Hu & Hs).
    exists p, old, q. repeat split; auto.
    + intros Hb. apply better_iff in Hb. now rewrite Hs, Hb.
    + intros Hb. rewrite <- better_iff in Hb.
      apply not_true_is_false in Hb. now rewrite Hs, Hb.
  - intros reports1 reports2 P NT.
    rewrite !aggregate_reports_merge.
    apply merge_perm; auto. now apply records_perm.
  - intros reports kept Hk. rewrite aggregate_reports_merge in Hk.
    destruct (Aggregator.inv_best
                (merge_invariant (Aggregator.records reports)) _ Hk)
      as (pre & post & E & Hpre & Hpost).
    exists pre, post. repeat split; auto.
    + intros r Hr Eu. apply better_iff. auto.
    + intros r Hr Eu. apply better_false_iff. auto.
Qed.

(** Scenario B: the score-70 record wins in either processing order. *)
Lemma aggregate_best_known_verdict_wins_witness :
  let r1 := [Some [Aggregator.rec_short]; Some [Aggregator.rec_x]] in
  let r2 := [Some [Aggregator.rec_x]; Some [Aggregator.rec_short]] in
  Permutation (Aggregator.aggregate_reports r1)
              (Aggregator.aggregate_reports r2)
  /\ Aggregator.merge ([Aggregator.rec_short] ++ [Aggregator.rec_x])
     = [Aggregator.rec_x].
Proof.
  destruct aggregate_best_known_verdict_wins as (Hstep & Hperm & _).
  split.
  - apply Hperm.
    + apply perm_swap.
    + unfold Aggregator.no_ties. simpl.
      repeat constructor; simpl; intuition discriminate.
  - destruct (Hstep [Aggregator.rec_short] Aggregator.rec_x)
      as (p & old & q & Hl & Hu & Hyes & _).
    + reflexivity.
    + exists Aggregator.rec_short. split; [now left | reflexivity].
    + reflexivity.
Defined.

Example scenario_B_either_order :
  Aggregator.aggregate_reports
    [Some [Aggregator.rec_short]; Some [Aggregator.rec_x]] = [Aggregator.rec_x]
  /\ Aggregator.aggregate_reports
    [Some [Aggregator.rec_x]; Some [Aggregator.rec_short]] = [Aggregator.rec_x].
Proof. split; reflexivity. Qed.

(** ** Aggregation: which report files are read *)

Section SelectionFacts.
Import Aggregator.

Lemma prefix_app a b s :
  String.prefix (a ++ b) s = true -> String.prefix a s = true.
Proof.
  revert s. induction a as [|c a IH]; intros s; simpl.
  - destruct s; reflexivity.
  - destruct s as [|d s]; simpl; [discriminate|].
    destruct (ascii_dec c d); [apply IH | discriminate].
Qed.

Lemma matches_job_is_report job_id f :
  matches_job job_id f = true -> is_report f = true.
Proof.
  unfold matches_job, is_report, Py.startswith.
  rewrite !andb_true_iff. intros [Hp He]. split; auto.
  eapply prefix_app; eauto.
Qed.

Lemma insert_newest_first_perm x l :
  Permutation (insert_newest_first x l) (x :: l).
Proof.
  induction l as [|y l IH]; simpl; auto.
  destruct (ctime y <=? ctime x); auto.
  eapply perm_trans; [apply perm_skip, IH | apply perm_swap].
Qed.

Lemma sort_newest_first_perm l : Permutation (sort_newest_first l) l.
Proof.
  induction l as [|x l IH]; simpl; auto.
  eapply perm_trans; [apply insert_newest_first_perm | now apply perm_skip].
Qed.




End SelectionFacts.



Example files_read_newest_first :
  option_map (map Aggregator.ctime)
             (Aggregator.files_read Aggregator.demo_dir "j2") = Some [30; 10]
  /\ option_map (map Aggregator.ctime)
             (Aggregator.files_read Aggregator.demo_dir "j3")
     = Some [30; 20; 10]
  /\ Aggregator.get_analysis_results_for_job (Some []) "j1" = None
  /\ Aggregator.get_analysis_results_for_job None "j1" = None.
Proof. repeat split. Qed.

(** ** The per-engine limiter *)

Section LimiterFacts.
Import Limiter.

Lemma firstn_incl {A} n (l : list A) x : In x (firstn n l) -> In x l.
Proof.
  revert l. induction n as [|n IH]; intros [|y l]; simpl; try tauto.
  intros [H|H]; auto.
Qed.

Lemma slice_to_incl {A} (l : list A) k x :
  In x (Py.slice_to l k) -> In x l.
Proof.
  unfold Py.slice_to. destruct (k <? 0); apply firstn_incl.
Qed.

Lemma slice_to_nonneg {A} (l : list A) k :
  0 <= k -> Py.slice_to l k = firstn (Z.to_nat k) l.
Proof.
  intros Hk. unfold Py.slice_to.
  destruct (k <? 0) eqn:E; [apply Z.ltb_lt in E; lia | reflexivity].
Qed.

Lemma slice_to_nil {A} k : Py.slice_to (@nil A) k = [].
Proof.
  unfold Py.slice_to.
  destruct (k <? 0); simpl; first [reflexivity | apply firstn_nil].
Qed.

Lemma lookup_append_row d engine r e :
  lookup (append_row d engine r) e
  = if String.eqb engine e then lookup d e ++ [r] else lookup d e.
Proof.
  induction d as [|[e' rs] d IH]; simpl.
  - destruct (String.eqb engine e); reflexivity.
  - destruct (String.eqb e' engine) eqn:E1; simpl.
    + apply String.eqb_eq in E1. subst e'.
      destruct (String.eqb engine e); reflexivity.
    + destruct (String.eqb e' e) eqn:E2; [|exact IH].
      apply String.eqb_eq in E2. rewrite <- E2.
      now rewrite (String.eqb_sym engine e'), E1.
Qed.

Lemma append_row_keys d engine r :
  map fst (append_row d engine r)
  = if Py.mem engine (map fst d) then map fst d
    else map fst d ++ [engine].
Proof.
  induction d as [|[e' rs] d IH]; simpl; [reflexivity|].
  rewrite (String.eqb_sym engine e').
  destruct (String.eqb e' engine); simpl; [reflexivity|].
  rewrite IH. destruct (Py.mem engine (map fst d)); reflexivity.
Qed.

Lemma append_row_In d engine r e rs :
  In (e, rs) (append_row d engine r) ->
  In (e, rs) d \/
  (e = engine /\ exists rs', rs = rs' ++ [r] /\ (rs' = [] \/ In (e, rs') d)).
Proof.
  induction d as [|[e' rs0] d IH]; simpl.
  - intros [H|[]]. injection H as <- <-. right. split; auto.
    exists []. auto.
  - destruct (String.eqb e' engine) eqn:E.
    + apply String.eqb_eq in E. subst e'.
      intros [H|H]; auto. injection H as <- <-.
      right. split; auto. exists rs0. auto.
    + intros [H|H]; auto. destruct (IH H) as [H'|(-> & rs' & -> & H')]; auto.
      right. split; auto. exists rs'. split; auto.
      destruct H'; auto.
Qed.

Lemma well_formed_nil : well_formed [].
Proof. split; simpl; [constructor | tauto]. Qed.

Lemma well_formed_add_row d r : well_formed d -> well_formed (add_row d r).
Proof.
  intros [ND Hrows]. unfold add_row.
  destruct (3 <=? Py.len r) eqn:E3; [|split; assumption].
  split.
  - rewrite append_row_keys.
    destruct (Py.mem (engine_of r) (map fst d)) eqn:Em; auto.
    apply NoDup_app; auto.
    + repeat constructor; tauto.
    + intros x Hx [<-|[]]. apply mem_In in Hx. congruence.
  - intros e rs Hin x Hx.
    destruct (append_row_In _ _ _ _ _ Hin) as [H|(-> & rs' & -> & H)].
    + eapply Hrows; eauto.
    + apply in_app_or in Hx as [Hx|[<-|[]]].
      * destruct H as [->|H]; [destruct Hx | eapply Hrows; eauto].
      * unfold of_engine. now rewrite E3, String.eqb_refl.
Qed.

Lemma well_formed_group_rows d rows :
  well_formed d -> well_formed (group_rows d rows).
Proof.
  revert d. unfold group_rows.
  induction rows as [|r rows IH]; intros d Hd; simpl; auto.
  apply IH. now apply well_formed_add_row.
Qed.

Lemma lookup_group_rows d rows e :
  lookup (group_rows d rows) e = lookup d e ++ filter (of_engine e) rows.
Proof.
  revert d. unfold group_rows.
  induction rows as [|r rows IH]; intros d; simpl.
  - now rewrite app_nil_r.
  - rewrite IH. unfold add_row, of_engine.
    destruct (3 <=? Py.len r); simpl; [|reflexivity].
    rewrite lookup_append_row.
    destruct (String.eqb (engine_of r) e); [|reflexivity].
    now rewrite <- app_assoc.
Qed.

Lemma lookup_not_key d e : ~ In e (map fst d) -> lookup d e = [].
Proof.
  induction d as [|[e' rs] d IH]; simpl; auto.
  intros H. destruct (String.eqb e' e) eqn:E.
  - apply String.eqb_eq in E. tauto.
  - apply IH. tauto.
Qed.

Lemma filter_all {A} (f : A -> bool) l :
  (forall x, In x l -> f x = true) -> filter f l = l.
Proof.
  induction l as [|x l IH]; simpl; auto. intros H.
  rewrite (H x) by auto. f_equal. apply IH. auto.
Qed.

Lemma filter_none {A} (f : A -> bool) l :
  (forall x, In x l -> f x = false) -> filter f l = [].
Proof.
  induction l as [|x l IH]; simpl; auto. intros H.
  rewrite (H x) by auto. apply IH. auto.
Qed.

Lemma filter_limit_groups d k e :
  well_formed d ->
  filter (of_engine e) (limit_groups d k) = Py.slice_to (lookup d e) k.
Proof.
  unfold limit_groups.
  induction d as [|[e' rs] d IH]; intros [ND Hrows]; simpl.
  - now rewrite slice_to_nil.
  - inversion ND as [|? ? Hnin ND']; subst.
    assert (Hd : well_formed d).
    { split; auto. intros; eapply Hrows; [right|]; eauto. }
    rewrite filter_app, (IH Hd).
    destruct (String.eqb e' e) eqn:E.
    + apply String.eqb_eq in E. subst e'.
      rewrite (lookup_not_key _ _ Hnin), slice_to_nil, app_nil_r.
      apply filter_all. intros x Hx. apply slice_to_incl in Hx.
      eapply Hrows; [left; reflexivity | exact Hx].
    + rewrite filter_none; [reflexivity|].
      intros x Hx. apply slice_to_incl in Hx.
      assert (H : of_engine e' x = true).
      { eapply Hrows; [left; reflexivity | exact Hx]. }
      unfold of_engine in *. apply andb_true_iff in H as [H3 He].
      apply String.eqb_eq in He. rewrite H3, He, E. reflexivity.
Qed.

Lemma limit_rows_engine rows k e :
  filter (of_engine e) (limit_rows rows k)
  = Py.slice_to (filter (of_engine e) rows) k.
Proof.
  unfold limit_rows.
  rewrite filter_limit_groups
    by (apply well_formed_group_rows, well_formed_nil).
  now rewrite lookup_group_rows.
Qed.

Lemma limit_groups_In d k r :
  well_formed d -> In r (limit_groups d k) -> of_engine (engine_of r) r = true.
Proof.
  intros [_ Hrows] Hin. unfold limit_groups in Hin.
  apply in_flat_map in Hin as ([e rs] & Hd & Hr).
  apply slice_to_incl in Hr. specialize (Hrows _ _ Hd _ Hr).
  unfold of_engine in *. apply andb_true_iff in Hrows as [H3 He].
  now rewrite H3, String.eqb_refl.
Qed.

End LimiterFacts.

(** Grouping and slicing.  For every list of rows filed and every cap
    [k >= 0], the rows kept for an engine are exactly the first [k] rows of
    that engine in their original order, hence [min k count] of them,
    whatever the other engines contributed; and the rows kept are the union
    of these truncated groups. *)
Theorem limit_rows_per_engine :
  forall (rows : list Limiter.row) (k : Z),
    0 <= k ->
    (forall engine,
        filter (Limiter.of_engine engine) (Limiter.limit_rows rows k)
        = firstn (Z.to_nat k) (filter (Limiter.of_engine engine) rows)
        /\ Py.len (filter (Limiter.of_engine engine)
                          (Limiter.limit_rows rows k))
           = Z.min k (Py.len (filter (Limiter.of_engine engine) rows)))
    /\ (forall r,
          In r (Limiter.limit_rows rows k) <->
          exists engine,
            In r (firstn (Z.to_nat k)
                         (filter (Limiter.of_engine engine) rows))).
Proof.
  intros rows k Hk.
  assert (Heq : forall engine,
             filter (Limiter.of_engine engine) (Limiter.limit_rows rows k)
             = firstn (Z.to_nat k) (filter (Limiter.of_engine engine) rows)).
  { intros engine. rewrite limit_rows_engine. now apply slice_to_nonneg. }
  split.
  - intros engine. split; [apply Heq|].
    rewrite Heq. unfold Py.len. rewrite length_firstn. lia.
  - intros r. split.
    + intros Hin. exists (Limiter.engine_of r). rewrite <- Heq.
      apply filter_In. split; auto.
      eapply limit_groups_In; [|exact Hin].
      apply well_formed_group_rows, well_formed_nil.
    + intros (engine & Hin). rewrite <- Heq in Hin.
      now apply filter_In in Hin.
Qed.

(** Scenario A: three engines with five links each and a cap of two leave
    six links, two per engine. *)
Lemma limit_rows_per_engine_witness :
  filter (Limiter.of_engine "tor66")
         (Limiter.limit_rows Limiter.scenario_A_rows 2)
  = firstn 2 (filter (Limiter.of_engine "tor66") Limiter.scenario_A_rows).
Proof.
  apply (@limit_rows_per_engine Limiter.scenario_A_rows 2). lia.
Defined.

Example scenario_A_limited :
  Limiter.limit_rows Limiter.scenario_A_rows 2
  = [ ["ahmia"; "site"; "http://ahmia1.onion"];
      ["ahmia"; "site"; "http://ahmia2.onion"];
      ["tor66"; "site"; "http://tor661.onion"];
      ["tor66"; "site"; "http://tor662.onion"];
      ["phobos"; "site"; "http://phobos1.onion"];
      ["phobos"; "site"; "http://phobos2.onion"] ].
Proof. reflexivity. Qed.

(** A negative cap is not a cap: Python's slice then drops rows from the end
    of each group. *)
Example limit_rows_negative :
  Limiter.limit_rows
    [ ["a"; "n"; "1"]; ["b"; "n"; "2"]; ["a"; "n"; "3"] ] (-1)
  = [ ["a"; "n"; "1"] ].
Proof. reflexivity. Qed.

Example limit_rows_interleaved :
  Limiter.limit_rows
    [ ["a"; "n"; "1"]; ["b"; "n"; "2"]; ["a"; "n"; "3"]; ["short"; "row"];
      ["b"; "n"; "4"]; ["a"; "n"; "5"] ] 2
  = [ ["a"; "n"; "1"]; ["a"; "n"; "3"]; ["b"; "n"; "2"]; ["b"; "n"; "4"] ].
Proof. reflexivity. Qed.

(** ** Extraction of onion links *)

Example csv_reader_examples :
  Csv.reader ["engine,name,link" ++ String (ascii_of_nat 10) "";
              "tor66,ExampleSite,http://abc.onion"]%string
  = ([["engine"; "name"; "link"];
      ["tor66"; "ExampleSite"; "http://abc.onion"]], false)
  /\ Csv.reader [String (ascii_of_nat 34)
                   ("a,b" ++ String (ascii_of_nat 34) ",c")]%string
     = ([["a,b"; "c"]], false)
  /\ Csv.reader [String (ascii_of_nat 10) ""; "a,,"]
     = ([[]; ["a"; ""; ""]], false).
Proof. repeat split. Qed.

Section ExtractFacts.
Import Schemas Extract.

Lemma dict_set_keys {V} (d : list (string * V)) k v :
  map fst (Py.dict_set String.eqb d k v)
  = if Py.mem k (map fst d) then map fst d else map fst d ++ [k].
Proof.
  induction d as [|[k' v'] d IH]; simpl; [reflexivity|].
  rewrite (String.eqb_sym k k').
  destruct (String.eqb k' k); simpl; [reflexivity|].
  rewrite IH. destruct (Py.mem k (map fst d)); reflexivity.
Qed.

Lemma dict_set_In {V} (d : list (string * V)) k v k' v' :
  NoDup (map fst d) ->
  In (k', v') (Py.dict_set String.eqb d k v) <->
  (k' = k /\ v' = v) \/ (k' <> k /\ In (k', v') d).
Proof.
  induction d as [|[k0 v0] d IH]; simpl; intros ND.
  - split.
    + intros [H|[]]. injection H as <- <-. auto.
    + intros [[-> ->]|[_ []]]. auto.
  - inversion ND as [|? ? Hn ND']; subst.
    destruct (String.eqb k0 k) eqn:E.
    + apply String.eqb_eq in E. subst k0. simpl. split.
      * intros [H|H]; [injection H as <- <-; auto|].
        right. split; auto. intros ->. apply Hn.
        apply (in_map fst) in H. exact H.
      * intros [[-> ->]|[Hne [H|H]]]; auto.
        injection H as <- <-. congruence.
    + apply String.eqb_neq in E. simpl. rewrite (IH ND'). split.
      * intros [H|[H|[Hne H]]]; auto.
        injection H as <- <-. auto.
      * intros [H|[Hne [H|H]]]; auto.
  Qed.

Lemma keyed_nil : keyed [].
Proof. split; simpl; [constructor | tauto]. Qed.

Lemma keyed_set d x :
  keyed d -> keyed (Py.dict_set String.eqb d (OnionLink.url x) x).
Proof.
  intros [ND Hk]. split.
  - rewrite dict_set_keys.
    destruct (Py.mem (OnionLink.url x) (map fst d)) eqn:E; auto.
    apply NoDup_app; auto.
    + repeat constructor; tauto.
    + intros a Ha [<-|[]]. apply mem_In in Ha. congruence.
  - intros k v Hin. apply dict_set_In in Hin; auto.
    destruct Hin as [[-> ->]|[_ Hin]]; auto.
Qed.

Lemma keyed_fold links d :
  keyed d ->
  keyed (fold_left (fun d link =>
                      Py.dict_set String.eqb d (OnionLink.url link) link)
                   links d).
Proof.
  revert d. induction links as [|x links IH]; intros d Hd; simpl; auto.
  apply IH. now apply keyed_set.
Qed.

Lemma unique_links_snoc links x l :
  In l (unique_links (links ++ [x])) <->
  l = x \/ (In l (unique_links links) /\ OnionLink.url l <> OnionLink.url x).
Proof.
  unfold unique_links, Py.dict_values. rewrite fold_left_app. simpl.
  set (d := fold_left _ links []).
  assert (Hd : keyed d) by apply keyed_fold, keyed_nil.
  destruct Hd as [ND Hk]. split.
  - intros Hin. apply in_map_iff in Hin as ([k v] & <- & Hin). simpl.
    apply dict_set_In in Hin; auto.
    destruct Hin as [[-> ->]|[Hne Hin]]; auto.
    right. split.
    + apply in_map_iff. exists (k, v). auto.
    + now rewrite (Hk _ _ Hin).
  - intros [->|[Hin Hne]].
    + apply in_map_iff. exists (OnionLink.url x, x). split; auto.
      apply dict_set_In; auto.
    + apply in_map_iff in Hin as ([k v] & <- & Hin). simpl in *.
      apply in_map_iff. exists (k, v). split; auto.
      apply dict_set_In; auto. right. split; auto.
      now rewrite <- (Hk _ _ Hin).
Qed.

(** A link survives the deduplication exactly when it is the last link
    with its url. *)
Lemma unique_links_last links l :
  In l (unique_links links) <->
  exists pre post,
    links = pre ++ l :: post /\
    forall x, In x post -> OnionLink.url x <> OnionLink.url l.
Proof.
  induction links as [|x links IH] using rev_ind.
  - simpl. split; [tauto|]. intros (pre & post & E & _).
    destruct pre; discriminate.
  - rewrite unique_links_snoc, IH. split.
    + intros [->|[(pre & post & -> & Hpost) Hne]].
      * exists links, []. split; [reflexivity | intros ? []].
      * exists pre, (post ++ [x]). rewrite <- app_assoc. split; auto.
        intros y Hy. apply in_app_or in Hy as [Hy|[<-|[]]]; auto.
    + intros (pre & post & E & Hpost).
      destruct post as [|y post] using rev_ind.
      * apply app_inj_tail in E as [_ ->]. auto.
      * clear IHpost. rewrite app_comm_cons, app_assoc in E.
        apply app_inj_tail in E as [-> ->]. right. split.
        -- exists pre, post. split; auto.
           intros z Hz. apply Hpost, in_or_app. auto.
        -- intros C. apply (Hpost y); auto.
           apply in_or_app. right. now left.
Qed.

Lemma unique_links_NoDup links :
  NoDup (map OnionLink.url (unique_links links)).
Proof.
  unfold unique_links, Py.dict_values.
  set (d := fold_left _ links []).
  assert (Hd : keyed d) by apply keyed_fold, keyed_nil.
  destruct Hd as [ND Hk]. rewrite map_map.
  erewrite map_ext_in; [exact ND|].
  intros [k v] Hin. simpl. eauto.
Qed.

Lemma collect_retained links rows links' :
  collect links rows = (links', None) -> links' = links ++ retained rows.
Proof.
  revert links. induction rows as [|row rows IH]; intros links; simpl.
  - intros H. injection H as <-. now rewrite app_nil_r.
  - destruct (get_link row) as [link|]; [|discriminate].
    destruct (Py.contains link ".onion"); intros H; apply IH in H.
    + now rewrite H, <- app_assoc.
    + exact H.
Qed.

Lemma collect_not_decode links rows links' :
  collect links rows <> (links', Some Py.UnicodeDecodeError).
Proof.
  revert links. induction rows as [|row rows IH]; intros links; simpl.
  - discriminate.
  - destruct (get_link row) as [link|]; [|discriminate].
    destruct (Py.contains link ".onion"); apply IH.
Qed.

End ExtractFacts.

Section ExtractLoop.
Import Schemas Extract.
Variable csv_reader : list string -> list (list string) * bool.

Lemma try_body_inv links read links' :
  try_body csv_reader links read = (links', None) ->
  exists line0 rest,
    read = Py.Ok (line0 :: rest) /\
    links' = links ++ retained (fst (DictReader csv_reader
                                       (with_header line0 rest))).
Proof.
  unfold try_body. destruct read as [[|line0 rest]|e]; try discriminate.
  destruct (DictReader csv_reader (with_header line0 rest))
    as [rows failed] eqn:ED.
  destruct (collect links rows) as [l [e|]] eqn:EC; [discriminate|].
  destruct failed; [discriminate|]. intros H. injection H as <-.
  exists line0, rest. split; auto. rewrite ED. simpl.
  now apply collect_retained.
Qed.

Lemma try_body_decode_error links read links' :
  try_body csv_reader links read = (links', Some Py.UnicodeDecodeError) ->
  read = Py.Raise Py.UnicodeDecodeError /\ links' = links.
Proof.
  unfold try_body. destruct read as [[|line0 rest]|e].
  - discriminate.
  - destruct (DictReader csv_reader (with_header line0 rest))
      as [rows failed].
    destruct (collect links rows) as [l [e|]] eqn:EC.
    + intros H. injection H as -> ->.
      now apply collect_not_decode in EC.
    + destruct failed; discriminate.
  - intros H. injection H as <- ->. auto.
Qed.

Lemma try_loop_inv file encs links :
  try_loop csv_reader file encs [] = Py.Ok links ->
  (Forall (fun enc => file enc = Py.Raise Py.UnicodeDecodeError) encs
   /\ links = [])
  \/ exists enc line0 rest,
       In enc encs /\ file enc = Py.Ok (line0 :: rest) /\
       links = retained (fst (DictReader csv_reader
                                (with_header line0 rest))).
Proof.
  induction encs as [|enc encs IH]; simpl.
  - intros H. injection H as <-. left. auto.
  - destruct (try_body csv_reader [] (file enc)) as [l [e|]] eqn:EB.
    + destruct e; try discriminate.
      apply try_body_decode_error in EB as [Hr ->].
      intros H. destruct (IH H) as [[Hall ->]|(enc' & l0 & r & Hin & Hf & ->)].
      * left. split; auto.
      * right. exists enc', l0, r. auto.
    + intros H. injection H as <-.
      apply try_body_inv in EB as (line0 & rest & Hf & ->).
      right. exists enc, line0, rest. auto.
Qed.

Lemma retained_app a b : retained (a ++ b) = retained a ++ retained b.
Proof. unfold retained. apply flat_map_app. Qed.

Lemma retained_url rows l :
  In l (retained rows) ->
  exists row, In row rows /\ get_link row = Some (OnionLink.url l) /\
              Py.contains (OnionLink.url l) ".onion" = true /\
              l = link_of_row (OnionLink.url l) row.
Proof.
  unfold retained. intros Hin.
  apply in_flat_map in Hin as (row & Hrow & Hl).
  destruct (get_link row) as [link|] eqn:EL; [|destruct Hl].
  destruct (Py.contains link ".onion") eqn:EC; [|destruct Hl].
  destruct Hl as [<-|[]]. exists row. simpl. auto.
Qed.

End ExtractLoop.

(** C5. A link is returned only for a row whose link field holds the marker
    [.onion]; the returned links have pairwise different urls; and for every
    url the link returned is the one built from the last row with that link
    field. *)
Theorem extract_keeps_marked_rows_last_wins :
  forall (csv_reader : list string -> list (list string) * bool)
         (file : Extract.artifact) (result : list Schemas.OnionLink.t),
    Extract._extract_onion_links csv_reader file = Py.Ok result ->
    (result = [] /\
     Forall (fun enc => file enc = Py.Raise Py.UnicodeDecodeError)
            Extract.try_encodings)
    \/ exists enc line0 rest,
         In enc Extract.try_encodings /\
         file enc = Py.Ok (line0 :: rest) /\
         let rows :=
           fst (Extract.DictReader csv_reader
                  (Extract.with_header line0 rest)) in
         (forall l, In l result ->
            Py.contains (Schemas.OnionLink.url l) ".onion" = true /\
            exists row,
              In row rows /\
              Extract.get_link row = Some (Schemas.OnionLink.url l) /\
              l = Extract.link_of_row (Schemas.OnionLink.url l) row) /\
         NoDup (map Schemas.OnionLink.url result) /\
         (forall pre row post u,
            rows = pre ++ row :: post ->
            Extract.get_link row = Some u ->
            Py.contains u ".onion" = true ->
            (forall r, In r post -> Extract.get_link r <> Some u) ->
            In (Extract.link_of_row u row) result /\
            forall l, In l result -> Schemas.OnionLink.url l = u ->
                      l = Extract.link_of_row u row).
Proof.
  intros csv_reader file result. unfold Extract._extract_onion_links.
  destruct (Extract.try_loop csv_reader file Extract.try_encodings [])
    as [links|e] eqn:EL; [|discriminate].
  intros H. injection H as <-.
  apply try_loop_inv in EL as [[Hall ->]|(enc & line0 & rest & Hin & Hf & ->)].
  - left. split; auto.
  - right. exists enc, line0, rest. split; auto. split; auto.
    set (rows := fst _).
    assert (Hlast : forall pre row post u,
               rows = pre ++ row :: post ->
               Extract.get_link row = Some u ->
               Py.contains u ".onion" = true ->
               (forall r, In r post -> Extract.get_link r <> Some u) ->
               In (Extract.link_of_row u row)
                  (Extract.unique_links (Extract.retained rows))).
    { intros pre row post u E Hl Hc Hpost.
      apply unique_links_last.
      exists (Extract.retained pre), (Extract.retained post).
      rewrite E, retained_app. split.
      - f_equal. unfold Extract.retained at 1. simpl.
        now rewrite Hl, Hc.
      - intros x Hx C. apply retained_url in Hx as (r & Hr & Hg & _).
        apply (Hpost r Hr). rewrite Hg. f_equal. exact C. }
    split; [|split].
    + intros l Hl. apply unique_links_last in Hl as (pre & post & E & _).
      assert (Hin' : In l (Extract.retained rows)).
      { rewrite E. apply in_elt. }
      apply retained_url in Hin' as (row & Hrow & Hg & Hc & El). eauto.
    + apply unique_links_NoDup.
    + intros pre row post u E Hl Hc Hpost.
      pose proof (Hlast pre row post u E Hl Hc Hpost) as Hres.
      split; auto. intros l Hin' Hu.
      pose proof (unique_links_NoDup (Extract.retained rows)) as ND.
      revert ND Hres Hin' Hu.
      generalize (Extract.unique_links (Extract.retained rows)).
      intros m ND. induction m as [|y m IH]; simpl; [tauto|].
      inversion ND as [|? ? Hn ND']; subst.
      intros [->|H1] [->|H2] Hu; auto.
      * exfalso. apply Hn. simpl. rewrite <- Hu.
        now apply in_map.
      * exfalso. apply Hn. rewrite Hu.
        change u with (Schemas.OnionLink.url (Extract.link_of_row u row)).
        now apply in_map.
Qed.

Lemma extract_keeps_marked_rows_last_wins_witness :
  Extract._extract_onion_links Csv.reader
    (Extract.plain (Extract.header :: Extract.demo_rows))
  = Py.Ok [Schemas.OnionLink.new "http://abc.onion" (Some "Second")
                                 (Some "tor66")]
  /\ ((([] : list Schemas.OnionLink.t) = [] /\
       Forall (fun enc =>
                 Extract.plain (Extract.header :: Extract.demo_rows) enc
                 = Py.Raise Py.UnicodeDecodeError) Extract.try_encodings)
      \/ exists enc line0 rest,
           In enc Extract.try_encodings /\
           Extract.plain (Extract.header :: Extract.demo_rows) enc
           = Py.Ok (line0 :: rest)).
Proof.
  assert (E : Extract._extract_onion_links Csv.reader
                (Extract.plain (Extract.header :: Extract.demo_rows))
              = Py.Ok [Schemas.OnionLink.new "http://abc.onion"
                         (Some "Second") (Some "tor66")])
    by reflexivity.
  split; [exact E|].
  destruct (extract_keeps_marked_rows_last_wins Csv.reader _ E)
    as [[C _]|(enc & line0 & rest & Hin & Hf & _)].
  - discriminate C.
  - right. exists enc, line0, rest. auto.
Defined.

Section HeaderFacts.
Import Schemas Extract.
Variable csv_reader : list string -> list (list string) * bool.

Lemma header_not_missing : header_missing header = false.
Proof. reflexivity. Qed.

Lemma try_body_header links file enc :
  (forall lines, file enc = Py.Ok lines -> headerless lines) ->
  try_body csv_reader links (prepend_header file enc)
  = try_body csv_reader links (file enc).
Proof.
  intros Hh. unfold prepend_header.
  destruct (file enc) as [lines|e] eqn:E; [|reflexivity].
  destruct (Hh lines eq_refl) as (line0 & rest & -> & Hm).
  unfold try_body, with_header. now rewrite header_not_missing, Hm.
Qed.

Lemma try_loop_header file encs links :
  (forall enc lines, file enc = Py.Ok lines -> headerless lines) ->
  try_loop csv_reader (prepend_header file) encs links
  = try_loop csv_reader file encs links.
Proof.
  intros Hh. revert links.
  induction encs as [|enc encs IH]; intros links; simpl; [reflexivity|].
  rewrite try_body_header by (apply Hh).
  destruct (try_body csv_reader links (file enc)) as [l [e|]]; auto.
  destruct e; auto.
Qed.

End HeaderFacts.

(** C6, amended. Header synthesis is transparent for the artifacts that the
    code takes to lack a header row: when the decoded lines have a first
    line whose last comma-separated field holds the marker, extraction from
    the artifact with the canonical header row in front gives the same
    result as extraction from the artifact itself. *)
Theorem extract_header_transparent :
  forall (csv_reader : list string -> list (list string) * bool)
         (file : Extract.artifact),
    (forall enc lines, file enc = Py.Ok lines -> Extract.headerless lines) ->
    Extract._extract_onion_links csv_reader (Extract.prepend_header file)
    = Extract._extract_onion_links csv_reader file.
Proof.
  intros csv_reader file Hh. unfold Extract._extract_onion_links.
  now rewrite try_loop_header.
Qed.

(** Scenario C: the file without header gives the one link of engine
    [tor66], and so does the file with the header. *)
Lemma extract_header_transparent_witness :
  Extract._extract_onion_links Csv.reader
    (Extract.prepend_header (Extract.plain Extract.scenario_C_rows))
  = Extract._extract_onion_links Csv.reader
      (Extract.plain Extract.scenario_C_rows).
Proof.
  apply (extract_header_transparent Csv.reader
           (Extract.plain Extract.scenario_C_rows)).
  intros enc lines H. injection H as <-.
  exists "tor66,ExampleSite,http://abc.onion", []. split; reflexivity.
Defined.

Example scenario_C :
  Extract._extract_onion_links Csv.reader
    (Extract.plain Extract.scenario_C_rows)
  = Py.Ok [Schemas.OnionLink.new "http://abc.onion" (Some "ExampleSite")
                                 (Some "tor66")].
Proof. reflexivity. Qed.

(** C6 as stated fails: for the two data rows of [Artifacts.clear_first],
    whose first row has a link without the marker, the artifact without a
    header row gives no link, because its first row is taken for the header
    row, while the artifact with the canonical header row gives the link of
    the second row. *)
Lemma extract_header_not_transparent :
  Extract._extract_onion_links Csv.reader
    (Extract.plain Artifacts.clear_first) = Py.Ok []
  /\ Extract._extract_onion_links Csv.reader
       (Extract.prepend_header (Extract.plain Artifacts.clear_first))
     = Py.Ok [Schemas.OnionLink.new "http://abc.onion" (Some "Site")
                                    (Some "tor66")]
  /\ Extract._extract_onion_links Csv.reader
       (Extract.prepend_header (Extract.plain Artifacts.clear_first))
     <> Extract._extract_onion_links Csv.reader
          (Extract.plain Artifacts.clear_first).
Proof.
  assert (H1 : Extract._extract_onion_links Csv.reader
                 (Extract.plain Artifacts.clear_first) = Py.Ok [])
    by (vm_compute; reflexivity).
  assert (H2 : Extract._extract_onion_links Csv.reader
                 (Extract.prepend_header
                    (Extract.plain Artifacts.clear_first))
               = Py.Ok [Schemas.OnionLink.new "http://abc.onion"
                          (Some "Site") (Some "tor66")])
    by (vm_compute; reflexivity).
  split; [exact H1|]. split; [exact H2|].
  rewrite H1, H2. discriminate.
Qed.

(** Without the condition on the first line the two results differ: a first
    data row whose link lacks the marker is itself taken for the header, and
    an empty file raises [IndexError]. *)
Example header_taken_from_data_row :
  let rows := [ String.append "ahmia,Clear,http://example.com" Extract.nl;
                String.append "tor66,Site,http://abc.onion" Extract.nl ] in
  Extract._extract_onion_links Csv.reader (Extract.plain rows) = Py.Ok []
  /\ Extract._extract_onion_links Csv.reader
       (Extract.prepend_header (Extract.plain rows))
     = Py.Ok [Schemas.OnionLink.new "http://abc.onion" (Some "Site")
                                    (Some "tor66")]
  /\ Extract._extract_onion_links Csv.reader (Extract.plain [])
     = Py.Raise Py.IndexError.
Proof. repeat split. Qed.

(** A short row under a header with a [link] column leaves [None] in that
    column, and the membership test on it raises [TypeError]. *)
Example short_row_raises :
  Extract._extract_onion_links Csv.reader
    (Extract.plain [Extract.header; "tor66,OnlyTwo"])
  = Py.Raise Py.TypeError.
Proof. reflexivity. Qed.

(** C2 as stated fails: an artifact that no candidate encoding decodes does
    not make the extraction fail; the extraction returns the empty list. *)
Lemma extract_undecodable_does_not_fail :
  (forall enc, Extract.garbled enc = Py.Raise Py.UnicodeDecodeError)
  /\ Extract._extract_onion_links Csv.reader Extract.garbled = Py.Ok []
  /\ ~ (exists e, Extract._extract_onion_links Csv.reader Extract.garbled
                  = Py.Raise e).
Proof.
  split; [reflexivity|]. split; [reflexivity|].
  intros [e H]. discriminate H.
Qed.

(** C2, amended. For every artifact that none of the candidate encodings
    decodes, the extraction returns normally, with the empty list of
    links. *)
Theorem extract_undecodable_returns_empty :
  forall (csv_reader : list string -> list (list string) * bool)
         (file : Extract.artifact),
    (forall enc, In enc Extract.try_encodings ->
                 file enc = Py.Raise Py.UnicodeDecodeError) ->
    Extract._extract_onion_links csv_reader file = Py.Ok [].
Proof.
  intros csv_reader file H.
  unfold Extract._extract_onion_links, Extract.try_encodings,
    Extract.try_loop, Extract.try_body.
  rewrite (H Extract.utf_8) by (simpl; auto).
  rewrite (H Extract.windows_1252) by (simpl; auto).
  reflexivity.
Qed.

Lemma extract_undecodable_returns_empty_witness :
  Extract._extract_onion_links Csv.reader Extract.garbled = Py.Ok [].
Proof.
  apply (extract_undecodable_returns_empty Csv.reader Extract.garbled).
  intros enc _. reflexivity.
Defined.

(** ** The job registry and [start_crawl] *)

Section RegistryFacts.
Import Schemas Service.
Context {outside : Outside}.

Lemma dict_get_In {V} (d : list (string * V)) k v :
  Py.dict_get String.eqb d k = Some v -> In (k, v) d.
Proof.
  induction d as [|[k' v'] d IH]; simpl; [discriminate|].
  destruct (String.eqb k' k) eqn:E.
  - apply String.eqb_eq in E. intros H. injection H as <-. subst. auto.
  - auto.
Qed.

Lemma dict_get_None {V} (d : list (string * V)) k :
  Py.dict_get String.eqb d k = None <-> ~ In k (map fst d).
Proof.
  induction d as [|[k' v'] d IH]; simpl; [tauto|].
  destruct (String.eqb k' k) eqn:E.
  - apply String.eqb_eq in E. split; [discriminate | tauto].
  - apply String.eqb_neq in E. rewrite IH. tauto.
Qed.

Lemma dict_get_set_same {V} (d : list (string * V)) k v :
  Py.dict_get String.eqb (Py.dict_set String.eqb d k v) k = Some v.
Proof.
  induction d as [|[k' v'] d IH]; simpl.
  - now rewrite String.eqb_refl.
  - destruct (String.eqb k' k) eqn:E; simpl; rewrite E; auto.
Qed.

Lemma dict_set_fresh {V} (d : list (string * V)) k v :
  ~ In k (map fst d) -> Py.dict_set String.eqb d k v = d ++ [(k, v)].
Proof.
  induction d as [|[k' v'] d IH]; simpl; [reflexivity|].
  intros H. destruct (String.eqb k' k) eqn:E.
  - apply String.eqb_eq in E. tauto.
  - f_equal. apply IH. tauto.
Qed.

Lemma NoDup_keys_functional {V} (d : list (string * V)) k v1 v2 :
  NoDup (map fst d) -> In (k, v1) d -> In (k, v2) d -> v1 = v2.
Proof.
  induction d as [|[k' v'] d IH]; simpl; [tauto|].
  intros ND. inversion ND as [|? ? Hn ND']; subst.
  intros [H1|H1] [H2|H2].
  - congruence.
  - injection H1 as -> ->. exfalso. apply Hn.
    apply (in_map fst) in H2. exact H2.
  - injection H2 as -> ->. exfalso. apply Hn.
    apply (in_map fst) in H1. exact H1.
  - auto.
Qed.

Lemma same_active_query_iff query job :
  same_active_query query job = true <->
  CrawlJob.query job = query /\ is_active (CrawlJob.status job) = true.
Proof.
  unfold same_active_query. now rewrite andb_true_iff, String.eqb_eq.
Qed.

Lemma find_none_iff {A} (f : A -> bool) l :
  find f l = None <-> forall x, In x l -> f x = false.
Proof.
  split; [apply find_none|].
  induction l as [|a l IH]; simpl; auto.
  intros H. rewrite (H a) by auto. apply IH. auto.
Qed.

Lemma start_crawl_existing self query limit w job :
  find (same_active_query query) (list_jobs self) = Some job ->
  start_crawl self query limit w = mkStarted (CrawlJob.id job) self [] w.
Proof. unfold start_crawl, list_jobs. now intros ->. Qed.

Lemma start_crawl_new self query limit w :
  find (same_active_query query) (list_jobs self) = None ->
  exists created_at updated_at w',
    start_crawl self query limit w
    = mkStarted (fst (uuid4 w))
        (mkService
           (Py.dict_set String.eqb (active_jobs self) (fst (uuid4 w))
              (CrawlJob.new (fst (uuid4 w)) query PENDING
                            created_at updated_at)))
        [execute_crawl_background (fst (uuid4 w)) query
                                  (limit_or_default limit)]
        w'.
Proof.
  unfold start_crawl, list_jobs. intros ->.
  destruct (uuid4 w) as [job_id w1].
  destruct (datetime_now w1) as [t1 w2].
  destruct (datetime_now w2) as [t2 w3].
  simpl. eauto.
Qed.

Lemma values_dict_set {V} (d : list (string * V)) k v x :
  In x (Py.dict_values (Py.dict_set String.eqb d k v)) ->
  x = v \/ In x (Py.dict_values d).
Proof.
  unfold Py.dict_values.
  induction d as [|[k' v'] d IH]; simpl.
  - intros [H|[]]; auto.
  - destruct (String.eqb k' k); simpl; intros [H|H]; auto.
    destruct (IH H); auto.
Qed.

(** The first matching job of a registry that gained a job whose query had
    no active job before is the new job. *)
Lemma find_after_set jobs query k job :
  find (same_active_query query) (Py.dict_values jobs) = None ->
  same_active_query query job = true ->
  find (same_active_query query)
       (Py.dict_values (Py.dict_set String.eqb jobs k job)) = Some job.
Proof.
  unfold Py.dict_values.
  induction jobs as [|[k' j'] jobs IH]; simpl; intros Hnone Hjob.
  - now rewrite Hjob.
  - destruct (same_active_query query j') eqn:E; [discriminate|].
    destruct (String.eqb k' k); simpl.
    + now rewrite Hjob.
    + rewrite E. auto.
Qed.

End RegistryFacts.

Section StartCrawlFacts.
Import Schemas Service.
Context {outside : Outside}.

Lemma registry_inv_nil : registry_inv [].
Proof.
  split; [constructor|]. split; simpl; [tauto|]. intros j1 j2 [].
Qed.

Lemma registry_inv_set jobs k job :
  registry_inv jobs ->
  CrawlJob.id job = k ->
  (is_active (CrawlJob.status job) = true ->
   forall j, In j (Py.dict_values jobs) ->
             CrawlJob.query j = CrawlJob.query job ->
             is_active (CrawlJob.status j) = true ->
             CrawlJob.id j = k) ->
  registry_inv (Py.dict_set String.eqb jobs k job).
Proof.
  intros (ND & Hid & Hone) Hk Hnew. split; [|split].
  - rewrite dict_set_keys. destruct (Py.mem k (map fst jobs)) eqn:E; auto.
    apply NoDup_app; auto.
    + repeat constructor; tauto.
    + intros a Ha [<-|[]]. apply mem_In in Ha. congruence.
  - intros k' j Hin. apply dict_set_In in Hin; auto.
    destruct Hin as [[-> ->]|[_ Hin]]; auto.
  - intros j1 j2 H1 H2 Hq A1 A2.
    apply values_dict_set in H1. apply values_dict_set in H2.
    destruct H1 as [->|H1], H2 as [->|H2]; auto.
    + rewrite Hk. symmetry. apply Hnew; auto.
    + rewrite Hk. apply Hnew; auto.
Qed.

(** [start_crawl] keeps the invariants of the registry. *)
Lemma start_crawl_inv self query limit w :
  registry_inv (active_jobs self) ->
  registry_inv (active_jobs (service (start_crawl self query limit w))).
Proof.
  intros Hinv.
  destruct (find (same_active_query query) (list_jobs self)) as [job|] eqn:E.
  - now rewrite (start_crawl_existing _ _ _ _ E).
  - destruct (start_crawl_new self query limit w E) as (t1 & t2 & w' & ->).
    simpl. apply registry_inv_set; auto.
    intros _ j Hj Hq Ha. exfalso.
    pose proof (proj1 (find_none_iff _ _) E j Hj) as Hf.
    assert (Ht : same_active_query query j = true).
    { apply same_active_query_iff. auto. }
    congruence.
Qed.

End StartCrawlFacts.

(** C1. [start_crawl] deduplicates by query among the jobs that are PENDING
    or IN_PROGRESS.
    (a) If a registered job with the same query is PENDING or IN_PROGRESS,
    the id of such a job is returned, and the registry, the world and the
    task list are left as they were.
    (b) Otherwise the id drawn from [uuid4] is returned and a job with that
    id, the query, status PENDING and zeroed counters is registered under
    it (appended to the registry when the id is not yet a key), and one
    execution task is spawned for it.
    (c) Submitting the same query again right away returns the same id and
    registers nothing.
    (d) In any later registry in which that job is still PENDING or
    IN_PROGRESS, submitting the query returns the same id.
    (e) In any later registry in which that job is COMPLETED or FAILED,
    submitting the query returns a different id, provided the id drawn is
    not already a key. *)
Theorem start_crawl_dedup :
  forall (outside : Service.Outside) (self : Service.CrawlerService)
         (query : string) (limit : option Z) (w : Service.World),
    let r := Service.start_crawl self query limit w in
    ((exists job,
         In job (Service.list_jobs self) /\
         Schemas.CrawlJob.query job = query /\
         Service.is_active (Schemas.CrawlJob.status job) = true) ->
     (exists job,
         In job (Service.list_jobs self) /\
         Schemas.CrawlJob.query job = query /\
         Service.is_active (Schemas.CrawlJob.status job) = true /\
         Service.job_id r = Schemas.CrawlJob.id job) /\
     Service.service r = self /\ Service.spawned r = [] /\
     Service.world r = w)
    /\
    ((forall job,
         In job (Service.list_jobs self) ->
         Schemas.CrawlJob.query job = query ->
         Service.is_active (Schemas.CrawlJob.status job) = false) ->
     Service.job_id r = fst (Service.uuid4 w) /\
     exists created_at updated_at,
       let job := Schemas.CrawlJob.new (Service.job_id r) query
                    Schemas.PENDING created_at updated_at in
       Service.active_jobs (Service.service r)
       = Py.dict_set String.eqb (Service.active_jobs self)
                     (Service.job_id r) job /\
       Service.get_job_status (Service.service r) (Service.job_id r)
       = Some job /\
       (~ In (Service.job_id r) (map fst (Service.active_jobs self)) ->
        Service.active_jobs (Service.service r)
        = Service.active_jobs self ++ [(Service.job_id r, job)]) /\
       Service.spawned r
       = [Service.execute_crawl_background (Service.job_id r) query
            (Service.limit_or_default limit)])
    /\
    (forall limit2 w2,
        Service.job_id (Service.start_crawl (Service.service r) query
                                            limit2 w2)
        = Service.job_id r /\
        Service.service (Service.start_crawl (Service.service r) query
                                             limit2 w2)
        = Service.service r)
    /\
    (forall self2 limit2 w2 job,
        Service.registry_inv (Service.active_jobs self2) ->
        Service.get_job_status self2 (Service.job_id r) = Some job ->
        Schemas.CrawlJob.query job = query ->
        Service.is_active (Schemas.CrawlJob.status job) = true ->
        Service.job_id (Service.start_crawl self2 query limit2 w2)
        = Service.job_id r)
    /\
    (forall self2 limit2 w2 job,
        Service.registry_inv (Service.active_jobs self2) ->
        Service.get_job_status self2 (Service.job_id r) = Some job ->
        Service.is_active (Schemas.CrawlJob.status job) = false ->
        ~ In (fst (Service.uuid4 w2)) (map fst (Service.active_jobs self2)) ->
        Service.job_id (Service.start_crawl self2 query limit2 w2)
        <> Service.job_id r).
Proof.
  intros outside self query limit w r.
  split; [|split; [|split; [|split]]].
  - intros (job & Hin & Hq & Ha).
    destruct (find (Service.same_active_query query) (Service.list_jobs self))
      as [j|] eqn:E.
    + subst r. rewrite (start_crawl_existing _ _ _ _ E). simpl.
      repeat split; auto.
      pose proof (find_some _ _ E) as [Hj Hs].
      apply same_active_query_iff in Hs as [Hjq Hja].
      exists j. auto.
    + pose proof (proj1 (find_none_iff _ _) E job Hin) as Hf.
      assert (Ht : Service.same_active_query query job = true).
      { apply same_active_query_iff. auto. }
      congruence.
  - intros Hnone.
    assert (E : find (Service.same_active_query query)
                     (Service.list_jobs self) = None).
    { apply find_none_iff. intros j Hj.
      destruct (Service.same_active_query query j) eqn:Es; auto.
      apply same_active_query_iff in Es as [Hq Ha].
      rewrite (Hnone j Hj Hq) in Ha. discriminate. }
    destruct (start_crawl_new self query limit w E) as (t1 & t2 & w' & Hr).
    subst r. rewrite Hr. simpl. split; auto.
    exists t1, t2. repeat split; auto.
    + unfold Service.get_job_status. simpl. apply dict_get_set_same.
    + intros Hfresh. now apply dict_set_fresh.
  - intros limit2 w2.
    destruct (find (Service.same_active_query query) (Service.list_jobs self))
      as [j|] eqn:E.
    + subst r. rewrite (start_crawl_existing _ _ _ _ E). simpl.
      rewrite (start_crawl_existing _ _ _ _ E). auto.
    + destruct (start_crawl_new self query limit w E) as (t1 & t2 & w' & Hr).
      subst r. rewrite Hr. simpl.
      erewrite start_crawl_existing.
      2:{ unfold Service.list_jobs. simpl. apply find_after_set; auto.
          apply same_active_query_iff. auto. }
      simpl. auto.
  - intros self2 limit2 w2 job (ND & Hid & Hone) Hget Hq Ha.
    apply dict_get_In in Hget.
    assert (Hv : In job (Service.list_jobs self2)).
    { apply in_map_iff. exists (Service.job_id r, job). auto. }
    destruct (find (Service.same_active_query query) (Service.list_jobs self2))
      as [j|] eqn:E.
    + rewrite (start_crawl_existing _ _ _ _ E). simpl.
      pose proof (find_some _ _ E) as [Hj Hs].
      apply same_active_query_iff in Hs as [Hjq Hja].
      rewrite <- (Hid _ _ Hget). apply Hone; auto. congruence.
    + pose proof (proj1 (find_none_iff _ _) E job Hv) as Hf.
      assert (Ht : Service.same_active_query query job = true).
      { apply same_active_query_iff. auto. }
      congruence.
  - intros self2 limit2 w2 job (ND & Hid & Hone) Hget Ha Hfresh.
    apply dict_get_In in Hget.
    destruct (find (Service.same_active_query query) (Service.list_jobs self2))
      as [j|] eqn:E.
    + rewrite (start_crawl_existing _ _ _ _ E). simpl.
      pose proof (find_some _ _ E) as [Hj Hs].
      apply same_active_query_iff in Hs as [Hjq Hja].
      intros C. apply in_map_iff in Hj as ([k j'] & Hk & Hj). simpl in Hk.
      subst j'. pose proof (Hid _ _ Hj) as Hk. rewrite C in Hk. subst k.
      assert (j = job) by (eapply NoDup_keys_functional; eauto).
      subst j. congruence.
    + destruct (start_crawl_new self2 query limit2 w2 E)
        as (t1 & t2 & w' & Hr).
      rewrite Hr. simpl. intros C. apply Hfresh. rewrite C.
      apply (in_map fst) in Hget. exact Hget.
Qed.

(** In the small world: the first submission registers [job-0]; a second
    submission right away returns [job-0] again; once the job has run to
    COMPLETED, a submission returns another id. *)
Lemma start_crawl_dedup_witness :
  Service.job_id Service.demo_submitted = "job-0"
  /\ Service.job_id
       (Service.start_crawl (outside := Service.demo)
          (Service.service Service.demo_submitted) "test" None
          (Service.world Service.demo_submitted))
     = "job-0"
  /\ Service.job_id
       (Service.start_crawl (outside := Service.demo)
          (Service.exec_service Service.demo_executed) "test" None
          (Service.exec_world Service.demo_executed))
     <> "job-0".
Proof.
  destruct (start_crawl_dedup Service.demo Service.empty_service "test"
              (Some 3) Service.demo_start) as (_ & Hb & Hc & _ & He).
  split; [|split].
  - apply Hb. intros job [].
  - apply (Hc None).
  - eapply (He (Service.exec_service Service.demo_executed) None).
    + vm_compute. split; [|split].
      * repeat constructor. intros [].
      * intros k job [H|[]]. injection H as <- <-. reflexivity.
      * intros j1 j2 [<-|[]] [<-|[]]. reflexivity.
    + vm_compute. reflexivity.
    + reflexivity.
    + vm_compute. intros [H|[]]. discriminate H.
Defined.

(** ** Lookups of an absent job *)

Lemma get_job_status_absent (self : Service.CrawlerService) job_id :
  ~ In job_id (map fst (Service.active_jobs self)) ->
  Service.get_job_status self job_id = None.
Proof. intros H. now apply dict_get_None. Qed.

Lemma get_crawl_pages_absent (self : Service.CrawlerService) job_id :
  ~ In job_id (map fst (Service.active_jobs self)) ->
  Endpoints.get_crawl_pages self job_id = Endpoints.Returned (job_id, []).
Proof.
  intros H. apply dict_get_None in H.
  unfold Endpoints.get_crawl_pages, Service.get_job_pages. now rewrite H.
Qed.

Lemma get_crawl_pages_never_not_found (self : Service.CrawlerService)
    job_id code detail :
  Endpoints.get_crawl_pages self job_id
  <> Endpoints.HTTPException code detail.
Proof.
  unfold Endpoints.get_crawl_pages, Service.get_job_pages.
  destruct (Py.dict_get _ _ _); discriminate.
Qed.

(** C9. The status lookup of an absent job id answers 404, but the page
    lookup does not: for the id [missing] and an empty registry it returns
    an empty page list, the same body shape that a registered job without
    pages gets. *)
Theorem absent_job_pages_lookup_returns_empty_list :
  Endpoints.get_crawl_status Service.empty_service None "missing"
  = Endpoints.HTTPException 404 "Crawl job not found"
  /\ Endpoints.get_crawl_pages Service.empty_service "missing"
     = Endpoints.Returned ("missing", [])
  /\ Endpoints.get_crawl_pages
       (Service.service Service.demo_submitted) "job-0"
     = Endpoints.Returned ("job-0", []).
Proof. repeat split. Qed.

(** ** Execution of a job: the counters *)

Section ExecutionFacts.
Import Schemas Service Config.
Context {outside : Outside}.

Lemma same_job_refl j : same_job j j.
Proof. repeat split. Qed.

Lemma same_job_trans a b c : same_job a b -> same_job b c -> same_job a c.
Proof.
  unfold same_job. intros (?&?&?&?) (?&?&?&?). repeat split; congruence.
Qed.

(** [time.sleep] either takes a value, in every world, or raises for it
    and leaves the world as it is. *)
Lemma time_sleep_cases secs :
  (forall w, snd (time_sleep secs w) = None) \/
  (exists e, forall w, time_sleep secs w = (w, Some e)).
Proof.
  unfold time_sleep. destruct secs as [q| | |].
  - destruct (Qle_bool (- PyTime_MAX) q && Qle_bool q PyTime_MAX).
    + destruct (Qle_bool 0 q); [left; reflexivity | right; eauto].
    + right. eauto.
  - right. eauto.
  - right. eauto.
  - right. eauto.
Qed.

Lemma delay_accepted w :
  (forall w', snd (time_sleep (CRAWL_DELAY settings) w') = None) ->
  exists w1, time_sleep (CRAWL_DELAY settings) w = (w1, None).
Proof.
  intros Hok. specialize (Hok w).
  destruct (time_sleep (CRAWL_DELAY settings) w) as [w1 [e|]];
    [discriminate | now exists w1].
Qed.

(** The delay written in the class is one that [time.sleep] takes. *)
Lemma default_delay_accepted (w : World) :
  snd (time_sleep (CRAWL_DELAY default_settings) w) = None.
Proof. reflexivity. Qed.

(** Whatever the delay: an iteration keeps the job, adds one or two to the
    sum of the counters, and every state it goes through is one of the
    job. *)
Lemma crawl_link_same x link w x' w' :
  crawl_link x link w = (x', w') ->
  same_job (fst x) (fst x') /\
  attempted (fst x) + 1 <= attempted (fst x') <= attempted (fst x) + 2 /\
  exists new,
    snd x' = snd x ++ new /\
    forall s, In s new ->
      same_job (fst x) s /\
      attempted (fst x) <= attempted s <= attempted (fst x) + 2.
Proof.
  destruct x as [j tr]. unfold crawl_link.
  destruct (crawl_page (OnionLink.url link) w) as [[page|] w1];
    unfold touch; destruct (datetime_now w1) as [t w2];
    destruct (time_sleep (CRAWL_DELAY settings) w2) as [w3 [e|]];
    intros H; injection H as <- <-; simpl;
    (split; [repeat split|]);
    (split; [unfold attempted; simpl; lia|]);
    (eexists; split; [rewrite <- !app_assoc; reflexivity|]);
    intros s Hs; simpl in Hs;
    repeat (destruct Hs as [<-|Hs]); try destruct Hs;
    unfold attempted; simpl; (split; [repeat split | lia]).
Qed.

Lemma fetch_loop_same links x w x' w' :
  fetch_loop x links w = (x', w') ->
  same_job (fst x) (fst x') /\
  attempted (fst x) + Py.len links <= attempted (fst x')
    <= attempted (fst x) + 2 * Py.len links /\
  exists new,
    snd x' = snd x ++ new /\
    forall s, In s new ->
      same_job (fst x) s /\
      attempted (fst x) <= attempted s
        <= attempted (fst x) + 2 * Py.len links.
Proof.
  revert x w. induction links as [|link links IH]; intros x w;
    cbn [fetch_loop].
  - intros H. injection H as <- <-. split; [apply same_job_refl|].
    split; [unfold Py.len; simpl; lia|].
    exists []. rewrite app_nil_r. split; auto. intros s [].
  - destruct (crawl_link x link w) as [x1 w1] eqn:E1. intros H.
    apply crawl_link_same in E1 as (Hs1 & Hc1 & new1 & Hn1 & Hb1).
    apply IH in H as (Hs2 & Hc2 & new2 & Hn2 & Hb2).
    assert (Hlen : Py.len (link :: links) = Py.len links + 1).
    { unfold Py.len. cbn [List.length]. lia. }
    assert (Hpos : 0 <= Py.len links) by (unfold Py.len; lia).
    split; [eapply same_job_trans; eauto|]. split; [lia|].
    exists (new1 ++ new2). split; [rewrite Hn2, Hn1, app_assoc; reflexivity|].
    intros s Hin. apply in_app_or in Hin as [Hin|Hin].
    + destruct (Hb1 s Hin) as [Hsj Hr]. split; auto. lia.
    + destruct (Hb2 s Hin) as [Hsj Hr]. split.
      * eapply same_job_trans; eauto.
      * lia.
Qed.

(** With a delay that [time.sleep] takes, one iteration adds one to exactly
    one of the two counters, and every state it goes through has at most
    one attempt more than before. *)
Lemma crawl_link_counts x link w x' w' :
  (forall w0, snd (time_sleep (CRAWL_DELAY settings) w0) = None) ->
  crawl_link x link w = (x', w') ->
  same_job (fst x) (fst x') /\
  ((CrawlJob.crawled_links (fst x') = CrawlJob.crawled_links (fst x) + 1 /\
    CrawlJob.failed_links (fst x') = CrawlJob.failed_links (fst x))
   \/
   (CrawlJob.crawled_links (fst x') = CrawlJob.crawled_links (fst x) /\
    CrawlJob.failed_links (fst x') = CrawlJob.failed_links (fst x) + 1)) /\
  exists new,
    snd x' = snd x ++ new /\
    forall s, In s new ->
      same_job (fst x) s /\
      attempted (fst x) <= attempted s <= attempted (fst x) + 1.
Proof.
  intros Hok. destruct x as [j tr]. unfold crawl_link.
  destruct (crawl_page (OnionLink.url link) w) as [[page|] w1];
    unfold touch; destruct (datetime_now w1) as [t w2];
    destruct (delay_accepted w2 Hok) as [w3 ->];
    intros H; injection H as <- <-; simpl.
  - split; [repeat split|]. split; [left; auto|].
    eexists. split; [rewrite <- !app_assoc; reflexivity|].
    intros s [<-|[<-|[<-|[]]]]; unfold attempted; simpl;
      (split; [repeat split | lia]).
  - split; [repeat split|]. split; [right; auto|].
    eexists. split; [rewrite <- !app_assoc; reflexivity|].
    intros s [<-|[<-|[]]]; unfold attempted; simpl;
      (split; [repeat split | lia]).
Qed.

(** The loop then makes one attempt per link. *)
Lemma fetch_loop_counts links x w x' w' :
  (forall w0, snd (time_sleep (CRAWL_DELAY settings) w0) = None) ->
  fetch_loop x links w = (x', w') ->
  same_job (fst x) (fst x') /\
  attempted (fst x') = attempted (fst x) + Py.len links /\
  exists new,
    snd x' = snd x ++ new /\
    forall s, In s new ->
      same_job (fst x) s /\
      attempted (fst x) <= attempted s <= attempted (fst x) + Py.len links.
Proof.
  intros Hok. revert x w.
  induction links as [|link links IH]; intros x w; simpl.
  - intros H. injection H as <- <-. split; [apply same_job_refl|].
    split; [unfold Py.len; simpl; lia|].
    exists []. rewrite app_nil_r. split; auto. intros s [].
  - destruct (crawl_link x link w) as [x1 w1] eqn:E1. intros H.
    apply (crawl_link_counts _ _ _ Hok) in E1
      as (Hs1 & Hc1 & new1 & Hn1 & Hb1).
    apply IH in H as (Hs2 & Hc2 & new2 & Hn2 & Hb2).
    assert (Ha1 : attempted (fst x1) = attempted (fst x) + 1).
    { unfold attempted. lia. }
    assert (Hlen : Py.len (link :: links) = Py.len links + 1).
    { unfold Py.len. cbn [List.length]. lia. }
    split; [eapply same_job_trans; eauto|]. split; [lia|].
    exists (new1 ++ new2). split; [rewrite Hn2, Hn1, app_assoc; reflexivity|].
    intros s Hin. apply in_app_or in Hin as [Hin|Hin].
    + destruct (Hb1 s Hin) as [Hsj Hr]. split; auto.
      unfold Py.len in *. lia.
    + destruct (Hb2 s Hin) as [Hsj Hr]. split.
      * eapply same_job_trans; eauto.
      * lia.
Qed.

(** With a delay for which [time.sleep] raises, every iteration counts its
    link twice: once for the page or its failure, and once more in the
    [except] that the exception of [time.sleep] reaches. *)
Lemma crawl_link_twice x link w x' w' :
  (exists e, forall w0, time_sleep (CRAWL_DELAY settings) w0 = (w0, Some e)) ->
  crawl_link x link w = (x', w') ->
  attempted (fst x') = attempted (fst x) + 2 /\
  CrawlJob.crawled_links (fst x) <= CrawlJob.crawled_links (fst x') /\
  CrawlJob.failed_links (fst x) + 1 <= CrawlJob.failed_links (fst x').
Proof.
  intros [e Hbad]. destruct x as [j tr]. unfold crawl_link.
  destruct (crawl_page (OnionLink.url link) w) as [[page|] w1];
    unfold touch; destruct (datetime_now w1) as [t w2];
    rewrite Hbad; intros H; injection H as <- <-;
    unfold attempted; simpl; lia.
Qed.

Lemma fetch_loop_twice links x w x' w' :
  (exists e, forall w0, time_sleep (CRAWL_DELAY settings) w0 = (w0, Some e)) ->
  fetch_loop x links w = (x', w') ->
  attempted (fst x') = attempted (fst x) + 2 * Py.len links /\
  CrawlJob.failed_links (fst x) + Py.len links
  <= CrawlJob.failed_links (fst x').
Proof.
  intros Hbad. revert x w.
  induction links as [|link links IH]; intros x w; cbn [fetch_loop].
  - intros H. injection H as <- <-. unfold Py.len. simpl. lia.
  - destruct (crawl_link x link w) as [x1 w1] eqn:E1. intros H.
    apply (crawl_link_twice _ _ _ Hbad) in E1 as (Ha1 & _ & Hf1).
    apply IH in H as (Ha2 & Hf2).
    assert (Hlen : Py.len (link :: links) = Py.len links + 1).
    { unfold Py.len. cbn [List.length]. lia. }
    lia.
Qed.

Lemma fail_states x e w x' w' :
  fail x e w = (x', w') ->
  CrawlJob.status (fst x') = FAILED /\
  CrawlJob.id (fst x') = CrawlJob.id (fst x) /\
  CrawlJob.query (fst x') = CrawlJob.query (fst x) /\
  CrawlJob.total_links (fst x') = CrawlJob.total_links (fst x) /\
  attempted (fst x') = attempted (fst x) /\
  exists new,
    snd x' = snd x ++ new /\
    forall s, In s new ->
      CrawlJob.total_links s = CrawlJob.total_links (fst x) /\
      attempted s = attempted (fst x).
Proof.
  destruct x as [j tr]. unfold fail, touch.
  destruct (datetime_now w) as [t w1]. intros H. injection H as <- <-.
  simpl. repeat split.
  eexists. split; [rewrite <- !app_assoc; reflexivity|].
  intros s [<-|[<-|[<-|[]]]]; split; reflexivity.
Qed.

End ExecutionFacts.

Section RegistryReachable.
Import Schemas Service Config.
Context {outside : Outside}.

(** An execution leaves the job under its key, with its id and query, in a
    terminal status. *)
Lemma execute_crawl_final self job_id query limit w job r :
  get_job_status self job_id = Some job ->
  _execute_crawl self job_id query limit w = Py.Ok r ->
  exists final,
    active_jobs (exec_service r)
    = Py.dict_set String.eqb (active_jobs self) job_id final /\
    CrawlJob.id final = CrawlJob.id job /\
    CrawlJob.query final = CrawlJob.query job /\
    is_active (CrawlJob.status final) = false.
Proof.
  unfold _execute_crawl, get_job_status. intros ->. unfold touch.
  destruct (datetime_now w) as [t0 w0].
  destruct (discover query limit w0) as [[links|e] w1].
  - destruct (fetch_loop _ links w1) as [x2 w2] eqn:EL.
    apply fetch_loop_same in EL as ((Hid & Hq & _) & _).
    destruct (datetime_now w2) as [t3 w3].
    intros H. injection H as <-. simpl.
    eexists. split; [reflexivity|]. simpl in *. auto.
  - destruct (fail _ e w1) as [x2 w2] eqn:EF.
    apply fail_states in EF as (Hst & Hid & Hq & _).
    intros H. injection H as <-. simpl.
    eexists. split; [reflexivity|]. simpl in *. rewrite Hst. auto.
Qed.

(** Executions keep the invariants of the registry. *)
Lemma execute_crawl_background_inv self job_id query limit w :
  registry_inv (active_jobs self) ->
  registry_inv
    (active_jobs
       (exec_service (_execute_crawl_background self job_id query limit w))).
Proof.
  intros Hinv. unfold _execute_crawl_background.
  destruct (get_job_status self job_id) as [job|] eqn:Hget.
  - destruct (_execute_crawl self job_id query limit w) as [r|e] eqn:E.
    + destruct (execute_crawl_final _ _ _ _ _ Hget E)
        as (final & -> & Hid & _ & Hina).
      apply registry_inv_set; auto.
      * rewrite Hid. destruct Hinv as (_ & Hkey & _).
        apply Hkey. now apply dict_get_In.
      * rewrite Hina. discriminate.
    + unfold _execute_crawl in E. unfold get_job_status in Hget.
      rewrite Hget in E. unfold touch in E.
      destruct (datetime_now w) as [t0 w0].
      destruct (discover query limit w0) as [[links|e'] w1].
      * destruct (fetch_loop _ links w1) as [x2 w2].
        destruct (datetime_now w2). discriminate.
      * destruct (fail _ e' w1). discriminate.
  - unfold _execute_crawl. unfold get_job_status in Hget. rewrite Hget.
    exact Hinv.
Qed.

Lemma dict_del_In {V} (d : list (string * V)) k k' v :
  In (k', v) (Py.dict_del String.eqb d k) -> In (k', v) d.
Proof.
  induction d as [|[k0 v0] d IH]; simpl; auto.
  destruct (String.eqb k0 k); simpl; intros H; auto.
  destruct H; auto.
Qed.

Lemma dict_del_NoDup {V} (d : list (string * V)) k :
  NoDup (map fst d) -> NoDup (map fst (Py.dict_del String.eqb d k)).
Proof.
  induction d as [|[k0 v0] d IH]; simpl; auto.
  intros ND. inversion ND as [|? ? Hn ND']; subst.
  destruct (String.eqb k0 k); simpl; auto.
  constructor; auto. intros C. apply Hn.
  apply in_map_iff in C as ([k1 v1] & <- & Hin).
  apply dict_del_In in Hin. apply (in_map fst) in Hin. exact Hin.
Qed.

(** Deleting a job keeps them too. *)
Lemma delete_crawl_job_inv self job_id :
  registry_inv (active_jobs self) ->
  registry_inv (active_jobs (snd (Endpoints.delete_crawl_job self job_id))).
Proof.
  intros (ND & Hkey & Hone). unfold Endpoints.delete_crawl_job.
  destruct (get_job_status self job_id); simpl; [|repeat split; auto].
  assert (Hsub : forall j,
             In j (Py.dict_values
                     (Py.dict_del String.eqb (active_jobs self) job_id)) ->
             In j (Py.dict_values (active_jobs self))).
  { intros j Hj. apply in_map_iff in Hj as ([k v] & <- & Hin).
    apply dict_del_In in Hin. apply in_map_iff. exists (k, v). auto. }
  split; [now apply dict_del_NoDup|]. split.
  - intros k job Hin. apply Hkey. eapply dict_del_In; eauto.
  - intros j1 j2 H1 H2. apply Hone; auto.
Qed.

End RegistryReachable.

Section DiscoveryFacts.
Import Schemas Service Config.
Context {outside : Outside}.

Lemma group_rows_app d a b :
  Limiter.group_rows d (a ++ b) = Limiter.group_rows (Limiter.group_rows d a) b.
Proof. unfold Limiter.group_rows. apply fold_left_app. Qed.

(** What the reading loop files is the grouping of all the rows it read,
    attempt after attempt. *)
Lemma read_engine_results_groups csv_file encs d w d' :
  read_engine_results csv_file encs d w = Py.Ok d' ->
  exists rows, d' = Limiter.group_rows d rows.
Proof.
  revert d. induction encs as [|enc encs IH]; intros d; simpl.
  - intros H. injection H as <-. now exists [].
  - destruct (read_csv csv_file enc w) as [rows ended].
    destruct ended as [e|].
    + destruct e; try discriminate.
      intros H. apply IH in H as (rows' & ->).
      exists (rows ++ rows'). now rewrite group_rows_app.
    + intros H. injection H as <-. now exists rows.
Qed.

(** When the first encoding reads the file and the writing succeeds, the
    limited file holds [Limiter.limit_rows] of the rows read. *)
Lemma limit_results_per_engine_writes csv_file k w rows w' :
  read_csv csv_file Extract.utf_8 w = (rows, None) ->
  write_csv (Py.replace csv_file ".csv" "_limited.csv")
            (Limiter.limit_rows rows k) w = (w', None) ->
  _limit_results_per_engine csv_file k w
  = (Py.replace csv_file ".csv" "_limited.csv", w').
Proof.
  intros Hr Hw. unfold _limit_results_per_engine. simpl.
  rewrite Hr. fold (Limiter.limit_rows rows k). now rewrite Hw.
Qed.

(** An artifact that no encoding decodes does not fail the job: discovery
    yields no links. *)
Lemma discover_undecodable query limit w csv_file w1 :
  _run_onionsearch query limit w = (Py.Ok csv_file, w1) ->
  (forall enc, In enc Extract.try_encodings ->
               readlines csv_file enc w1 = Py.Raise Py.UnicodeDecodeError) ->
  discover query limit w = (Py.Ok [], w1).
Proof.
  intros Hrun Hund. unfold discover. rewrite Hrun. f_equal.
  unfold _extract_onion_links, Extract._extract_onion_links,
    Extract.try_encodings, Extract.try_loop, Extract.try_body.
  rewrite (Hund Extract.utf_8) by (simpl; auto).
  rewrite (Hund Extract.windows_1252) by (simpl; auto).
  reflexivity.
Qed.

(** A job whose discovery yields no links ends COMPLETED with
    [total_links = 0] and no analysis task. *)
Lemma execute_crawl_no_links self job_id query limit w job :
  get_job_status self job_id = Some job ->
  discover query limit (snd (datetime_now w)) = (Py.Ok [], snd (datetime_now w)) ->
  exists r final,
    _execute_crawl self job_id query limit w = Py.Ok r /\
    get_job_status (exec_service r) job_id = Some final /\
    CrawlJob.status final = COMPLETED /\
    CrawlJob.total_links final = 0 /\
    (CrawlJob.pages job = [] -> exec_spawned r = []).
Proof.
  unfold _execute_crawl, get_job_status. intros -> Hd. unfold touch.
  destruct (datetime_now w) as [t0 w0]. simpl in Hd. rewrite Hd.
  simpl. destruct (datetime_now w0) as [t1 w1].
  eexists. eexists. split; [reflexivity|]. simpl.
  split; [apply dict_get_set_same|]. simpl. repeat split.
  intros Hp. unfold _trigger_ai_analysis. simpl. now rewrite Hp.
Qed.

End DiscoveryFacts.

Section FetchAll.
Import Schemas Service Config.
Context {outside : Outside}.

(** The fetch loop attempts every discovered link, whatever [limit] is:
    each link is counted at least once, and exactly once when [time.sleep]
    takes the delay of the settings. *)
Lemma execute_crawl_attempts_all self job_id query limit w job links w1 :
  get_job_status self job_id = Some job ->
  discover query limit (snd (datetime_now w)) = (Py.Ok links, w1) ->
  exists r final,
    _execute_crawl self job_id query limit w = Py.Ok r /\
    get_job_status (exec_service r) job_id = Some final /\
    CrawlJob.total_links final = Py.len links /\
    attempted job + Py.len links <= attempted final
      <= attempted job + 2 * Py.len links /\
    ((forall w0, snd (time_sleep (CRAWL_DELAY settings) w0) = None) ->
     attempted final = attempted job + Py.len links).
Proof.
  unfold _execute_crawl, get_job_status. intros -> Hd. unfold touch.
  destruct (datetime_now w) as [t0 w0]. simpl in Hd. rewrite Hd.
  destruct (fetch_loop _ links w1) as [x2 w2] eqn:EL.
  pose proof (fetch_loop_same _ _ _ EL) as ((_ & _ & _ & Htot) & Hatt & _).
  destruct (datetime_now w2) as [t3 w3].
  eexists. eexists. split; [reflexivity|]. cbn [exec_service finish].
  split; [apply dict_get_set_same|]. split; [exact Htot|]. split.
  - unfold attempted in *. simpl in *. exact Hatt.
  - intros Hok. apply (fetch_loop_counts _ _ _ Hok) in EL as (_ & Heq & _).
    unfold attempted in *. simpl in *. exact Heq.
Qed.

End FetchAll.

(** X23. When [time.sleep] takes the delay of the settings, as it does the
    delay written in the class, the counters stay within the total: for a
    job registered with both counters at zero the execution returns, and in
    every state the job object goes through, in particular in those after
    [total_links] was set, during and after the fetch loop,
    [crawled_links + failed_links <= total_links]; the job left in the
    registry satisfies it too, with equality when it ends COMPLETED, since
    the loop runs once over each of the [total_links] links and each
    iteration adds one to exactly one of the two counters. *)
Theorem execute_crawl_counters_within_total :
  forall (outside : Service.Outside) (self : Service.CrawlerService)
         (job_id query : string) (limit : Z) (w : Service.World)
         (job : Schemas.CrawlJob.t),
    (forall w0,
        snd (Service.time_sleep (Config.CRAWL_DELAY Service.settings) w0)
        = None) ->
    Service.get_job_status self job_id = Some job ->
    Schemas.CrawlJob.crawled_links job = 0 ->
    Schemas.CrawlJob.failed_links job = 0 ->
    0 <= Schemas.CrawlJob.total_links job ->
    (exists r,
        Service._execute_crawl self job_id query limit w = Py.Ok r /\
        (forall s, In s (Service.exec_states r) ->
           Schemas.CrawlJob.crawled_links s + Schemas.CrawlJob.failed_links s
           <= Schemas.CrawlJob.total_links s) /\
        exists final,
          Service.get_job_status (Service.exec_service r) job_id
          = Some final /\
          Schemas.CrawlJob.crawled_links final
          + Schemas.CrawlJob.failed_links final
          <= Schemas.CrawlJob.total_links final /\
          (Schemas.CrawlJob.status final = Schemas.COMPLETED ->
           Schemas.CrawlJob.crawled_links final
           + Schemas.CrawlJob.failed_links final
           = Schemas.CrawlJob.total_links final))
    /\
    (forall x link w1 x' w1',
        Service.crawl_link x link w1 = (x', w1') ->
        (Schemas.CrawlJob.crawled_links (fst x')
         = Schemas.CrawlJob.crawled_links (fst x) + 1 /\
         Schemas.CrawlJob.failed_links (fst x')
         = Schemas.CrawlJob.failed_links (fst x))
        \/
        (Schemas.CrawlJob.crawled_links (fst x')
         = Schemas.CrawlJob.crawled_links (fst x) /\
         Schemas.CrawlJob.failed_links (fst x')
         = Schemas.CrawlJob.failed_links (fst x) + 1)).
Proof.
  intros outside self job_id query limit w job Hok Hget Hc Hf Ht.
  split.
  2:{ intros x link w1 x' w1' H.
      now apply (crawl_link_counts _ _ _ Hok) in H. }
  unfold Service._execute_crawl. unfold Service.get_job_status in Hget.
  rewrite Hget. unfold Service.touch.
  destruct (Service.datetime_now w) as [t0 w0].
  set (x0 := Service.mutate (Service.set_updated_at t0)
               (Service.mutate (Service.set_status Schemas.IN_PROGRESS)
                               (job, []))).
  assert (Hx0 : forall s, In s (snd x0) ->
                  Service.attempted s = 0 /\
                  Schemas.CrawlJob.total_links s
                  = Schemas.CrawlJob.total_links job).
  { intros s [<-|[<-|[]]]; unfold Service.attempted; simpl; split; lia. }
  destruct (Service.discover query limit w0) as [[links|e] w1].
  - set (n := Py.len links).
    assert (Hn : 0 <= n) by (unfold n, Py.len; lia).
    destruct (Service.fetch_loop
                (Service.mutate (Service.set_total_links n) x0) links w1)
      as [x2 w2] eqn:EL.
    apply (fetch_loop_counts _ _ _ Hok) in EL
      as (Hsame & Hatt & new & Hnew & Hb).
    simpl in Hsame, Hatt, Hb. unfold Service.attempted in Hatt, Hb.
    simpl in Hatt, Hb. fold n in Hatt, Hb.
    destruct Hsame as (_ & _ & _ & Htot). simpl in Htot.
    destruct (Service.datetime_now w2) as [t3 w3].
    eexists. split; [reflexivity|]. simpl. split.
    + intros s Hin. rewrite Hnew in Hin. simpl in Hin.
      rewrite !in_app_iff in Hin. simpl in Hin.
      repeat match goal with
             | H : _ \/ _ |- _ => destruct H
             | H : False |- _ => destruct H
             end;
        try (subst s; simpl; lia).
      match goal with
      | H : In s new |- _ =>
          destruct (Hb s H) as [(_ & _ & _ & Hts) Hr]; simpl in Hts; lia
      end.
    + eexists. split; [apply dict_get_set_same|]. simpl. split; lia.
  - destruct (Service.fail x0 e w1) as [x2 w2] eqn:EF.
    apply fail_states in EF as (Hst & _ & _ & Htot & Hatt & new & Hnew & Hb).
    eexists. split; [reflexivity|]. simpl. split.
    + intros s Hin. rewrite Hnew in Hin.
      apply in_app_or in Hin as [Hin|Hin].
      * destruct (Hx0 s Hin) as [Ha Hs]. unfold Service.attempted in Ha. lia.
      * destruct (Hb s Hin) as [Hs Ha].
        unfold Service.attempted in Ha. simpl in Hs, Ha. lia.
    + eexists. split; [apply dict_get_set_same|].
      rewrite Hst. split; [|discriminate].
      unfold Service.attempted in Hatt. simpl in Htot, Hatt. lia.
Qed.

Lemma execute_crawl_counters_within_total_witness :
  exists r,
    Service._execute_crawl (outside := Service.demo)
      (Service.service Service.demo_submitted) "job-0" "test" 3
      (Service.world Service.demo_submitted) = Py.Ok r /\
    forall s, In s (Service.exec_states r) ->
      Schemas.CrawlJob.crawled_links s + Schemas.CrawlJob.failed_links s
      <= Schemas.CrawlJob.total_links s.
Proof.
  destruct (@execute_crawl_counters_within_total Service.demo
              (Service.service Service.demo_submitted) "job-0" "test" 3
              (Service.world Service.demo_submitted)
              (Schemas.CrawlJob.new "job-0" "test" Schemas.PENDING 1 1))
    as [(r & Hr & Hs & _) _].
  - intros w0. reflexivity.
  - reflexivity.
  - reflexivity.
  - reflexivity.
  - simpl. lia.
  - exists r. split; assumption.
Defined.

(** In the small world the job ends COMPLETED with fourteen pages crawled
    and one failed out of fifteen links. *)
Example demo_job_completed :
  option_map
    (fun j => (Schemas.CrawlJob.status j, Schemas.CrawlJob.total_links j,
               Schemas.CrawlJob.crawled_links j,
               Schemas.CrawlJob.failed_links j))
    (Service.get_job_status
       (Service.exec_service Service.demo_executed) "job-0")
  = Some (Schemas.COMPLETED, 15, 14, 1).
Proof. vm_compute. reflexivity. Qed.

(** ** The [limit] of a submission *)

(** C10. The [limit] passed to [start_crawl] has no effect on the crawl:
    for any two values of it (given or not, zero or not) the submission
    returns the same id and leaves the same registry and world, the
    discovery yields the same links, the execution of the job leaves the
    same registry, job states, spawned tasks and world, and so does running
    the task that the submission spawned; and the fetch loop attempts every
    discovered link, whatever the limit: each link is counted at least
    once, and exactly once when [time.sleep] takes the delay of the
    settings. *)
Theorem limit_has_no_effect :
  forall (outside : Service.Outside) (self : Service.CrawlerService)
         (query : string) (limit1 limit2 : option Z) (w : Service.World),
    let s1 := Service.start_crawl self query limit1 w in
    let s2 := Service.start_crawl self query limit2 w in
    Service.job_id s1 = Service.job_id s2 /\
    Service.service s1 = Service.service s2 /\
    Service.world s1 = Service.world s2 /\
    (forall l1 l2 w',
        Service.discover query l1 w' = Service.discover query l2 w') /\
    (forall self' job_id l1 l2 w',
        Service._execute_crawl_background self' job_id query l1 w'
        = Service._execute_crawl_background self' job_id query l2 w') /\
    map (fun t => Service.run_task (Service.service s1) t (Service.world s1))
        (Service.spawned s1)
    = map (fun t => Service.run_task (Service.service s2) t (Service.world s2))
          (Service.spawned s2) /\
    (forall self' job_id l w' job links w1,
        Service.get_job_status self' job_id = Some job ->
        Service.discover query l (snd (Service.datetime_now w'))
        = (Py.Ok links, w1) ->
        exists r final,
          Service._execute_crawl self' job_id query l w' = Py.Ok r /\
          Service.get_job_status (Service.exec_service r) job_id
          = Some final /\
          Schemas.CrawlJob.total_links final = Py.len links /\
          Schemas.CrawlJob.crawled_links job
          + Schemas.CrawlJob.failed_links job + Py.len links
          <= Schemas.CrawlJob.crawled_links final
             + Schemas.CrawlJob.failed_links final /\
          ((forall w0,
               snd (Service.time_sleep
                      (Config.CRAWL_DELAY Service.settings) w0) = None) ->
           Schemas.CrawlJob.crawled_links final
           + Schemas.CrawlJob.failed_links final
           = Schemas.CrawlJob.crawled_links job
             + Schemas.CrawlJob.failed_links job + Py.len links)).
Proof.
  intros outside self query limit1 limit2 w s1 s2.
  assert (Hd : forall l1 l2 w',
             Service.discover query l1 w' = Service.discover query l2 w')
    by reflexivity.
  assert (He : forall self' job_id l1 l2 w',
             Service._execute_crawl_background self' job_id query l1 w'
             = Service._execute_crawl_background self' job_id query l2 w')
    by reflexivity.
  assert (Hall : forall self' job_id l w' job links w1,
             Service.get_job_status self' job_id = Some job ->
             Service.discover query l (snd (Service.datetime_now w'))
             = (Py.Ok links, w1) ->
             exists r final,
               Service._execute_crawl self' job_id query l w' = Py.Ok r /\
               Service.get_job_status (Service.exec_service r) job_id
               = Some final /\
               Schemas.CrawlJob.total_links final = Py.len links /\
               Schemas.CrawlJob.crawled_links job
               + Schemas.CrawlJob.failed_links job + Py.len links
               <= Schemas.CrawlJob.crawled_links final
                  + Schemas.CrawlJob.failed_links final /\
               ((forall w0,
                    snd (Service.time_sleep
                           (Config.CRAWL_DELAY Service.settings) w0)
                    = None) ->
                Schemas.CrawlJob.crawled_links final
                + Schemas.CrawlJob.failed_links final
                = Schemas.CrawlJob.crawled_links job
                  + Schemas.CrawlJob.failed_links job + Py.len links)).
  { intros self' job_id l w' job links w1 Hget Hdisc.
    destruct (@execute_crawl_attempts_all outside self' job_id query l w'
                job links w1 Hget Hdisc)
      as (r & final & Hr & Hf & Ht & [Hlow _] & Heq).
    exists r, final. repeat split; auto. }
  subst s1 s2.
  destruct (find (Service.same_active_query query) (Service.list_jobs self))
    as [j|] eqn:E.
  - rewrite !(start_crawl_existing _ _ _ _ E). simpl. repeat split; auto.
  - unfold Service.start_crawl. unfold Service.list_jobs in E. rewrite E.
    destruct (Service.uuid4 w) as [job_id w1].
    destruct (Service.datetime_now w1) as [t1 w2].
    destruct (Service.datetime_now w2) as [t2 w3].
    simpl. repeat split; auto.
Qed.

(** In the small world the fifteen discovered links are all attempted,
    with a limit of three as with any other. *)
Lemma limit_has_no_effect_witness :
  exists r final,
    Service._execute_crawl (outside := Service.demo)
      (Service.service Service.demo_submitted) "job-0" "test" 3
      (Service.world Service.demo_submitted) = Py.Ok r /\
    Service.get_job_status (Service.exec_service r) "job-0" = Some final /\
    Schemas.CrawlJob.total_links final = 15 /\
    Schemas.CrawlJob.crawled_links final + Schemas.CrawlJob.failed_links final
    = 0 + 0 + 15.
Proof.
  destruct (limit_has_no_effect Service.demo Service.empty_service "test"
              (Some 3) (Some 1000) Service.demo_start)
    as (_ & _ & _ & _ & _ & _ & Hall).
  edestruct (Hall (Service.service Service.demo_submitted) "job-0" 3
                  (Service.world Service.demo_submitted)
                  (Schemas.CrawlJob.new "job-0" "test" Schemas.PENDING 1 1))
    as (r & final & Hr & Hf & Ht & _ & Ha).
  - reflexivity.
  - vm_compute. reflexivity.
  - exists r, final.
    split; [exact Hr|]. split; [exact Hf|]. split; [exact Ht|].
    apply Ha. intros w0. reflexivity.
Defined.

Example limit_ignored_in_small_world :
  Service._execute_crawl_background (outside := Service.demo)
    (Service.service Service.demo_submitted) "job-0" "test" 1000
    (Service.world Service.demo_submitted)
  = Service.demo_executed.
Proof. vm_compute. reflexivity. Qed.

(* ================================================================== *)
(** * Part III: further properties of the code *)
(* ================================================================== *)

(** ** Submission, lookup and deletion *)

Section LifecycleFacts.
Import Schemas Service.
Context {outside : Outside}.

Lemma In_dict_get {V} (d : list (string * V)) k v :
  NoDup (map fst d) -> In (k, v) d ->
  Py.dict_get String.eqb d k = Some v.
Proof.
  induction d as [|[k' v'] d IH]; simpl; [tauto|].
  intros ND. inversion ND as [|? ? Hn ND']; subst.
  intros [H|H].
  - injection H as -> ->. now rewrite String.eqb_refl.
  - destruct (String.eqb k' k) eqn:E; auto.
    apply String.eqb_eq in E. subst k'. exfalso. apply Hn.
    apply (in_map fst) in H. exact H.
Qed.

Lemma dict_get_del_same {V} (d : list (string * V)) k :
  NoDup (map fst d) ->
  Py.dict_get String.eqb (Py.dict_del String.eqb d k) k = None.
Proof.
  induction d as [|[k' v'] d IH]; simpl; auto.
  intros ND. inversion ND as [|? ? Hn ND']; subst.
  destruct (String.eqb k' k) eqn:E; simpl.
  - apply String.eqb_eq in E. subst k'. now apply dict_get_None.
  - rewrite E. auto.
Qed.

Lemma dict_get_del_other {V} (d : list (string * V)) k k' :
  k' <> k ->
  Py.dict_get String.eqb (Py.dict_del String.eqb d k) k'
  = Py.dict_get String.eqb d k'.
Proof.
  intros Hne. induction d as [|[k0 v0] d IH]; simpl; auto.
  destruct (String.eqb k0 k) eqn:E; simpl.
  - apply String.eqb_eq in E. subst k0.
    destruct (String.eqb k k') eqn:E'; auto.
    apply String.eqb_eq in E'. congruence.
  - destruct (String.eqb k0 k'); auto.
Qed.

Lemma dict_del_length {V} (d : list (string * V)) k v :
  Py.dict_get String.eqb d k = Some v ->
  S (List.length (Py.dict_del String.eqb d k)) = List.length d.
Proof.
  induction d as [|[k0 v0] d IH]; simpl; [discriminate|].
  destruct (String.eqb k0 k); simpl; auto.
Qed.

End LifecycleFacts.

(** X1. The id that [start_crawl] returns always resolves: in a registry
    that keeps its invariants, [get_job_status] of the returned id gives a
    job with that id and the submitted query that is PENDING or
    IN_PROGRESS, whether the job was found or created. *)
Theorem start_crawl_id_resolves :
  forall (outside : Service.Outside) (self : Service.CrawlerService)
         (query : string) (limit : option Z) (w : Service.World),
    Service.registry_inv (Service.active_jobs self) ->
    let r := Service.start_crawl self query limit w in
    exists job,
      Service.get_job_status (Service.service r) (Service.job_id r)
      = Some job /\
      Schemas.CrawlJob.id job = Service.job_id r /\
      Schemas.CrawlJob.query job = query /\
      Service.is_active (Schemas.CrawlJob.status job) = true.
Proof.
  intros outside self query limit w (ND & Hkey & _) r. subst r.
  destruct (find (Service.same_active_query query) (Service.list_jobs self))
    as [j|] eqn:E.
  - rewrite (start_crawl_existing _ _ _ _ E). simpl.
    pose proof (find_some _ _ E) as [Hj Hs].
    apply same_active_query_iff in Hs as [Hq Ha].
    apply in_map_iff in Hj as ([k j'] & Hk & Hin). simpl in Hk. subst j'.
    pose proof (Hkey _ _ Hin) as Hid.
    exists j. repeat split; auto.
    unfold Service.get_job_status. rewrite Hid. now apply In_dict_get.
  - destruct (start_crawl_new self query limit w E) as (t1 & t2 & w' & ->).
    simpl. eexists. split.
    + unfold Service.get_job_status. simpl. apply dict_get_set_same.
    + repeat split.
Qed.

Lemma start_crawl_id_resolves_witness :
  exists job,
    Service.get_job_status (Service.service Service.demo_submitted) "job-0"
    = Some job /\
    Schemas.CrawlJob.query job = "test".
Proof.
  destruct (@start_crawl_id_resolves Service.demo Service.empty_service
              "test" (Some 3) Service.demo_start registry_inv_nil)
    as (job & Hget & _ & Hq & _).
  exists job. split; [exact Hget | exact Hq].
Defined.

(** X2. In every state the service can reach by submissions, executions and
    deletions, starting from the empty registry, the registry keys are
    distinct, every job is filed under its own id, and no two registered
    jobs with the same query are both PENDING or IN_PROGRESS. *)
Theorem reachable_registry_inv :
  forall (outside : Service.Outside) (self : Service.CrawlerService),
    Lifecycle.reachable self ->
    Service.registry_inv (Service.active_jobs self).
Proof.
  intros outside self H. induction H.
  - apply registry_inv_nil.
  - now apply start_crawl_inv.
  - now apply execute_crawl_background_inv.
  - now apply delete_crawl_job_inv.
Qed.

Lemma reachable_registry_inv_witness :
  Service.registry_inv
    (Service.active_jobs (Service.exec_service Service.demo_executed)).
Proof.
  apply (@reachable_registry_inv Service.demo).
  apply (Lifecycle.reach_execute (outside := Service.demo)).
  apply (Lifecycle.reach_start (outside := Service.demo)).
  apply Lifecycle.reach_init.
Defined.

(** X3. [DELETE /crawl/{job_id}]: for an id that is not registered the
    answer is 404 and the registry is unchanged; for a registered id the job
    is gone afterwards, the registry is one entry shorter, and every other
    id resolves as before. *)
Theorem delete_crawl_job_removes_only_that_job :
  forall (self : Service.CrawlerService) (job_id : string),
    NoDup (map fst (Service.active_jobs self)) ->
    (Service.get_job_status self job_id = None ->
     Endpoints.delete_crawl_job self job_id
     = (Endpoints.HTTPException 404 "Crawl job not found", self))
    /\
    (forall job,
        Service.get_job_status self job_id = Some job ->
        let self' := snd (Endpoints.delete_crawl_job self job_id) in
        Service.get_job_status self' job_id = None /\
        Py.len (Service.list_jobs self') + 1 = Py.len (Service.list_jobs self)
        /\
        forall other, other <> job_id ->
          Service.get_job_status self' other
          = Service.get_job_status self other).
Proof.
  intros self job_id ND. unfold Endpoints.delete_crawl_job. split.
  - intros ->. reflexivity.
  - intros job Hget. rewrite Hget. simpl.
    unfold Service.get_job_status, Service.list_jobs, Py.dict_values, Py.len
      in *. simpl. split; [|split].
    + now apply dict_get_del_same.
    + rewrite !length_map. rewrite <- (dict_del_length _ _ Hget). lia.
    + intros other Hne. now apply dict_get_del_other.
Qed.

Lemma delete_crawl_job_removes_only_that_job_witness :
  Service.get_job_status
    (snd (Endpoints.delete_crawl_job
            (Service.service Service.demo_submitted) "job-0")) "job-0"
  = None.
Proof.
  destruct (@delete_crawl_job_removes_only_that_job
              (Service.service Service.demo_submitted) "job-0") as [_ H].
  - vm_compute. repeat constructor. intros [].
  - destruct (H (Schemas.CrawlJob.new "job-0" "test" Schemas.PENDING 1 1))
      as [Hnone _].
    + reflexivity.
    + exact Hnone.
Defined.

(** ** Execution of a job: outcome, statuses and pages *)

Section OutcomeFacts.
Import Schemas Service Config.
Context {outside : Outside}.

(** What an iteration leaves alone, and how the pages follow the counter of
    crawled links. *)
Lemma crawl_link_pages x link w x' w' :
  crawl_link x link w = (x', w') ->
  CrawlJob.error_message (fst x') = CrawlJob.error_message (fst x) /\
  CrawlJob.created_at (fst x') = CrawlJob.created_at (fst x) /\
  exists ps,
    CrawlJob.pages (fst x') = CrawlJob.pages (fst x) ++ ps /\
    Py.len ps
    = CrawlJob.crawled_links (fst x') - CrawlJob.crawled_links (fst x).
Proof.
  destruct x as [j tr]. unfold crawl_link.
  destruct (crawl_page (OnionLink.url link) w) as [[page|] w1];
    unfold touch; destruct (datetime_now w1) as [t w2];
    destruct (time_sleep (CRAWL_DELAY settings) w2) as [w3 [e|]];
    intros H; injection H as <- <-; simpl.
  - repeat split. exists [page]. split; [reflexivity|].
    unfold Py.len. simpl. lia.
  - repeat split. exists [page]. split; [reflexivity|].
    unfold Py.len. simpl. lia.
  - repeat split. exists []. rewrite app_nil_r. split; [reflexivity|].
    unfold Py.len. simpl. lia.
  - repeat split. exists []. rewrite app_nil_r. split; [reflexivity|].
    unfold Py.len. simpl. lia.
Qed.

Lemma fetch_loop_pages links x w x' w' :
  fetch_loop x links w = (x', w') ->
  CrawlJob.error_message (fst x') = CrawlJob.error_message (fst x) /\
  CrawlJob.created_at (fst x') = CrawlJob.created_at (fst x) /\
  exists ps,
    CrawlJob.pages (fst x') = CrawlJob.pages (fst x) ++ ps /\
    Py.len ps
    = CrawlJob.crawled_links (fst x') - CrawlJob.crawled_links (fst x).
Proof.
  revert x w. induction links as [|link links IH]; intros x w; simpl.
  - intros H. injection H as <- <-. repeat split.
    exists []. rewrite app_nil_r. split; [reflexivity|].
    unfold Py.len. simpl. lia.
  - destruct (crawl_link x link w) as [x1 w1] eqn:E1. intros H.
    apply crawl_link_pages in E1 as (He1 & Hc1 & ps1 & Hp1 & Hl1).
    apply IH in H as (He2 & Hc2 & ps2 & Hp2 & Hl2).
    split; [congruence|]. split; [congruence|].
    exists (ps1 ++ ps2). split.
    + rewrite Hp2, Hp1, app_assoc. reflexivity.
    + unfold Py.len in *. rewrite length_app. lia.
Qed.

(** The states of the loop all carry the status the loop started with. *)
Lemma fetch_loop_statuses links x w x' w' :
  fetch_loop x links w = (x', w') ->
  exists new,
    snd x' = snd x ++ new /\
    Forall (fun s => same_job (fst x) s) new.
Proof.
  intros H. apply fetch_loop_same in H as (_ & _ & new & Hnew & Hb).
  exists new. split; auto. apply Forall_forall. intros s Hs.
  now destruct (Hb s Hs).
Qed.

End OutcomeFacts.

(** X4. [_execute_crawl] raises (a [KeyError]) exactly when the job id is
    not registered, and [_execute_crawl_background] then changes nothing.
    For a registered job it returns, and the job left in the registry is
    COMPLETED with [total_links] the number of discovered links when the
    discovery returned, and FAILED with the text of the exception as
    [error_message], the counters, [total_links] and pages as they were and
    no analysis task when the discovery raised. *)
Theorem execute_crawl_outcome :
  forall (outside : Service.Outside) (self : Service.CrawlerService)
         (job_id query : string) (limit : Z) (w : Service.World),
    (Service.get_job_status self job_id = None ->
     Service._execute_crawl self job_id query limit w = Py.Raise Py.KeyError
     /\ Service._execute_crawl_background self job_id query limit w
        = Service.mkExecuted self [] [] w)
    /\
    (forall job,
        Service.get_job_status self job_id = Some job ->
        exists r final,
          Service._execute_crawl self job_id query limit w = Py.Ok r /\
          Service._execute_crawl_background self job_id query limit w = r /\
          Service.get_job_status (Service.exec_service r) job_id
          = Some final /\
          (forall links w1,
              Service.discover query limit (snd (Service.datetime_now w))
              = (Py.Ok links, w1) ->
              Schemas.CrawlJob.status final = Schemas.COMPLETED /\
              Schemas.CrawlJob.total_links final = Py.len links /\
              Schemas.CrawlJob.error_message final
              = Schemas.CrawlJob.error_message job) /\
          (forall e w1,
              Service.discover query limit (snd (Service.datetime_now w))
              = (Py.Raise e, w1) ->
              Schemas.CrawlJob.status final = Schemas.FAILED /\
              Schemas.CrawlJob.error_message final
              = Some (Service.str_exn e) /\
              Schemas.CrawlJob.total_links final
              = Schemas.CrawlJob.total_links job /\
              Schemas.CrawlJob.crawled_links final
              = Schemas.CrawlJob.crawled_links job /\
              Schemas.CrawlJob.failed_links final
              = Schemas.CrawlJob.failed_links job /\
              Schemas.CrawlJob.pages final = Schemas.CrawlJob.pages job /\
              Service.exec_spawned r = [])).
Proof.
  intros outside self job_id query limit w. split.
  - intros Hget. unfold Service._execute_crawl_background,
      Service._execute_crawl. unfold Service.get_job_status in Hget.
    rewrite Hget. auto.
  - intros job Hget. unfold Service._execute_crawl_background,
      Service._execute_crawl. unfold Service.get_job_status in Hget.
    rewrite Hget. unfold Service.touch.
    destruct (Service.datetime_now w) as [t0 w0]. simpl snd.
    destruct (Service.discover query limit w0) as [[links|e] w1].
    + destruct (Service.fetch_loop _ links w1) as [x2 w2] eqn:EL.
      pose proof (fetch_loop_same _ _ _ EL) as ((_ & _ & _ & Htot) & _).
      pose proof (fetch_loop_pages _ _ _ EL) as (Herr & _).
      destruct (Service.datetime_now w2) as [t3 w3].
      eexists. eexists. split; [reflexivity|]. split; [reflexivity|].
      split; [apply dict_get_set_same|]. simpl in *. split.
      * intros links' w1' H. injection H as <- <-. repeat split; auto.
      * intros e w1' H. discriminate H.
    + unfold Service.fail, Service.touch.
      destruct (Service.datetime_now w1) as [t3 w3].
      eexists. eexists. split; [reflexivity|]. split; [reflexivity|].
      split; [apply dict_get_set_same|]. simpl. split.
      * intros links' w1' H. discriminate H.
      * intros e' w1' H. injection H as <- <-. repeat split.
Qed.

Lemma execute_crawl_outcome_witness :
  exists final,
    Service.get_job_status
      (Service.exec_service Service.demo_executed) "job-0" = Some final /\
    Schemas.CrawlJob.status final = Schemas.COMPLETED.
Proof.
  destruct (execute_crawl_outcome Service.demo
              (Service.service Service.demo_submitted) "job-0" "test" 3
              (Service.world Service.demo_submitted)) as [_ H].
  destruct (H (Schemas.CrawlJob.new "job-0" "test" Schemas.PENDING 1 1))
    as (r & final & _ & Hbg & Hget & Hok & _).
  - reflexivity.
  - exists final. unfold Service.demo_executed. rewrite Hbg.
    split; [exact Hget|].
    edestruct Hok as [Hst _]; [vm_compute; reflexivity | exact Hst].
Defined.

(** X5. The status of a job under execution never goes back: the states the
    job object goes through are first all IN_PROGRESS and then, to the end,
    all COMPLETED or all FAILED; its id, query and creation time never
    change. *)
Theorem execute_crawl_status_monotonic :
  forall (outside : Service.Outside) (self : Service.CrawlerService)
         (job_id query : string) (limit : Z) (w : Service.World)
         (job : Schemas.CrawlJob.t),
    Service.get_job_status self job_id = Some job ->
    exists r running terminal,
      Service._execute_crawl self job_id query limit w = Py.Ok r /\
      Service.exec_states r = running ++ terminal /\
      running <> [] /\ terminal <> [] /\
      Forall (fun s => Schemas.CrawlJob.status s = Schemas.IN_PROGRESS)
             running /\
      (Forall (fun s => Schemas.CrawlJob.status s = Schemas.COMPLETED)
              terminal
       \/ Forall (fun s => Schemas.CrawlJob.status s = Schemas.FAILED)
                 terminal) /\
      Forall (fun s => Schemas.CrawlJob.id s = Schemas.CrawlJob.id job /\
                       Schemas.CrawlJob.query s = Schemas.CrawlJob.query job)
             (Service.exec_states r).
Proof.
  intros outside self job_id query limit w job Hget.
  unfold Service._execute_crawl. unfold Service.get_job_status in Hget.
  rewrite Hget. unfold Service.touch.
  destruct (Service.datetime_now w) as [t0 w0].
  destruct (Service.discover query limit w0) as [[links|e] w1].
  - destruct (Service.fetch_loop _ links w1) as [x2 w2] eqn:EL.
    pose proof (fetch_loop_same _ _ _ EL) as ((Hid & Hq & Hst & _) & _).
    apply fetch_loop_statuses in EL as (new & Hnew & Hall).
    destruct (Service.datetime_now w2) as [t3 w3].
    simpl in Hid, Hq, Hst, Hnew, Hall.
    eexists. exists (snd x2). eexists. split; [reflexivity|]. simpl.
    split; [rewrite <- app_assoc; reflexivity|].
    split; [rewrite Hnew; discriminate|]. split; [discriminate|].
    split; [|split].
    + rewrite Hnew. repeat (constructor; [reflexivity|]).
      eapply Forall_impl; [|exact Hall].
      intros s (_ & _ & Hs & _). exact Hs.
    + left. repeat constructor.
    + rewrite <- app_assoc. apply Forall_app. split.
      * rewrite Hnew. repeat (constructor; [split; reflexivity|]).
        eapply Forall_impl; [|exact Hall].
        intros s (Hi & Hqq & _). simpl in *. auto.
      * repeat constructor; simpl; auto.
  - unfold Service.fail, Service.touch.
    destruct (Service.datetime_now w1) as [t3 w3].
    eexists.
    exists [Service.set_status Schemas.IN_PROGRESS job;
            Service.set_updated_at t0
              (Service.set_status Schemas.IN_PROGRESS job)].
    eexists. split; [reflexivity|]. simpl.
    split; [reflexivity|]. split; [discriminate|]. split; [discriminate|].
    split; [|split].
    + repeat constructor.
    + right. repeat constructor.
    + repeat constructor.
Qed.

Lemma execute_crawl_status_monotonic_witness :
  exists r running terminal,
    Service._execute_crawl (outside := Service.demo)
      (Service.service Service.demo_submitted) "job-0" "test" 3
      (Service.world Service.demo_submitted) = Py.Ok r /\
    Service.exec_states r = running ++ terminal /\
    Forall (fun s => Schemas.CrawlJob.status s = Schemas.IN_PROGRESS)
           running.
Proof.
  destruct (@execute_crawl_status_monotonic Service.demo
              (Service.service Service.demo_submitted) "job-0" "test" 3
              (Service.world Service.demo_submitted)
              (Schemas.CrawlJob.new "job-0" "test" Schemas.PENDING 1 1)
              eq_refl)
    as (r & running & terminal & Hr & Hs & _ & _ & Hrun & _).
  exists r, running, terminal. repeat split; assumption.
Defined.

(** X6. Pages are only ever appended, one for each link counted as crawled:
    for a job registered with as many pages as its [crawled_links] says, the
    job left by the execution has again as many pages as its
    [crawled_links], its old pages first.  The analysis task is spawned, with
    all pages of that job, exactly when the job ends COMPLETED with a page
    and the import of the analysis service does not raise; in every other
    case, also when the import raises, no task is spawned. *)
Theorem execute_crawl_pages_match_crawled :
  forall (outside : Service.Outside) (self : Service.CrawlerService)
         (job_id query : string) (limit : Z) (w : Service.World)
         (job : Schemas.CrawlJob.t),
    Service.get_job_status self job_id = Some job ->
    Py.len (Schemas.CrawlJob.pages job) = Schemas.CrawlJob.crawled_links job ->
    exists r final added,
      Service._execute_crawl self job_id query limit w = Py.Ok r /\
      Service.get_job_status (Service.exec_service r) job_id = Some final /\
      Schemas.CrawlJob.pages final = Schemas.CrawlJob.pages job ++ added /\
      Py.len (Schemas.CrawlJob.pages final)
      = Schemas.CrawlJob.crawled_links final /\
      ((Schemas.CrawlJob.pages final = [] \/
        Schemas.CrawlJob.status final = Schemas.FAILED \/
        Service.import_ai_service (Service.exec_world r) <> None) ->
       Service.exec_spawned r = []) /\
      (Schemas.CrawlJob.pages final <> [] ->
       Schemas.CrawlJob.status final = Schemas.COMPLETED ->
       Service.import_ai_service (Service.exec_world r) = None ->
       Service.exec_spawned r
       = [Service.analyze_crawl_job job_id (Schemas.CrawlJob.pages final)]).
Proof.
  intros outside self job_id query limit w job Hget Hlen.
  unfold Service._execute_crawl. unfold Service.get_job_status in Hget.
  rewrite Hget. unfold Service.touch.
  destruct (Service.datetime_now w) as [t0 w0].
  destruct (Service.discover query limit w0) as [[links|e] w1].
  - destruct (Service.fetch_loop _ links w1) as [x2 w2] eqn:EL.
    apply fetch_loop_pages in EL as (_ & _ & ps & Hp & Hl).
    destruct (Service.datetime_now w2) as [t3 w3]. simpl in Hp, Hl.
    eexists. eexists. exists ps. split; [reflexivity|]. simpl.
    split; [apply dict_get_set_same|]. simpl. split; [exact Hp|].
    split.
    + rewrite Hp. unfold Py.len in *. rewrite length_app. lia.
    + unfold Service._trigger_ai_analysis. simpl.
      destruct (Schemas.CrawlJob.pages (fst x2)) as [|p0 ps0] eqn:Ep.
      * split; [reflexivity|]. intros C. now contradiction C.
      * destruct (Service.import_ai_service w3) as [e|] eqn:Ei.
        -- split; [reflexivity|]. intros _ _ C. discriminate C.
        -- split; [|reflexivity].
           intros [C|[C|C]]; [discriminate C | discriminate C |].
           now contradiction C.
  - unfold Service.fail, Service.touch.
    destruct (Service.datetime_now w1) as [t3 w3].
    eexists. eexists. exists []. split; [reflexivity|]. simpl.
    split; [apply dict_get_set_same|]. simpl. rewrite app_nil_r.
    repeat split; auto. intros _ C. discriminate C.
Qed.

Lemma execute_crawl_pages_match_crawled_witness :
  exists r final,
    Service._execute_crawl (outside := Service.demo)
      (Service.service Service.demo_submitted) "job-0" "test" 3
      (Service.world Service.demo_submitted) = Py.Ok r /\
    Service.get_job_status (Service.exec_service r) "job-0" = Some final /\
    Py.len (Schemas.CrawlJob.pages final)
    = Schemas.CrawlJob.crawled_links final.
Proof.
  destruct (@execute_crawl_pages_match_crawled Service.demo
              (Service.service Service.demo_submitted) "job-0" "test" 3
              (Service.world Service.demo_submitted)
              (Schemas.CrawlJob.new "job-0" "test" Schemas.PENDING 1 1)
              eq_refl eq_refl)
    as (r & final & added & Hr & Hget & _ & Hlen & _).
  exists r, final. repeat split; assumption.
Defined.

(** ** The per-engine limiter: files, bounds, idempotence *)

Section LimiterMore.
Import Limiter.

Lemma slice_to_length {A} (l : list A) k :
  (List.length (Py.slice_to l k) <= List.length l)%nat.
Proof.
  unfold Py.slice_to. destruct (k <? 0); rewrite length_firstn; lia.
Qed.

Lemma slice_to_all {A} (l : list A) k :
  Py.len l <= k -> Py.slice_to l k = l.
Proof.
  intros H. unfold Py.len in H. unfold Py.slice_to.
  destruct (k <? 0) eqn:E; [apply Z.ltb_lt in E; lia|].
  apply firstn_all2. lia.
Qed.

Lemma append_row_perm d e r :
  Permutation (flat_map snd (append_row d e r)) (flat_map snd d ++ [r]).
Proof.
  induction d as [|[e' rs] d IH]; simpl.
  - apply Permutation_refl.
  - destruct (String.eqb e' e); simpl.
    + rewrite <- !app_assoc. apply Permutation_app_head.
      apply Permutation_app_comm.
    + rewrite <- app_assoc. now apply Permutation_app_head.
Qed.

(** Grouping loses and invents nothing: the groups hold the rows with at
    least three fields. *)
Lemma group_rows_perm d rows :
  Permutation (flat_map snd (group_rows d rows))
              (flat_map snd d ++ filter (fun r => 3 <=? Py.len r) rows).
Proof.
  revert d. unfold group_rows.
  induction rows as [|r rows IH]; intros d; simpl.
  - now rewrite app_nil_r.
  - eapply perm_trans; [apply IH|]. unfold add_row.
    destruct (3 <=? Py.len r).
    + eapply perm_trans.
      * apply Permutation_app_tail, append_row_perm.
      * rewrite <- app_assoc. reflexivity.
    + reflexivity.
Qed.

Lemma limit_groups_length d k :
  (List.length (limit_groups d k) <= List.length (flat_map snd d))%nat.
Proof.
  unfold limit_groups. induction d as [|[e rs] d IH]; simpl; [lia|].
  rewrite !length_app. pose proof (slice_to_length rs k). lia.
Qed.

Lemma limit_groups_all d k :
  Py.len (flat_map snd d) <= k -> limit_groups d k = flat_map snd d.
Proof.
  unfold limit_groups, Py.len. induction d as [|[e rs] d IH]; simpl; auto.
  rewrite length_app. intros H. rewrite IH by lia.
  rewrite slice_to_all; [reflexivity|]. unfold Py.len. lia.
Qed.

Lemma total_limited_from d k n :
  fold_left
    (fun n '(engine, results) => n + Py.len (Py.slice_to results k)) d n
  = n + Py.len (limit_groups d k).
Proof.
  revert n. unfold limit_groups, Py.len.
  induction d as [|[e rs] d IH]; intros n; simpl; [lia|].
  rewrite IH, length_app. lia.
Qed.

Lemma limit_groups_bound d k :
  0 <= k -> Py.len (limit_groups d k) <= k * Py.len d.
Proof.
  intros Hk. unfold limit_groups, Py.len.
  induction d as [|[e rs] d IH]; simpl List.length; [simpl; lia|].
  cbn [flat_map]. rewrite length_app, slice_to_nonneg by assumption.
  rewrite length_firstn. lia.
Qed.

Lemma limit_groups_sub d k :
  exists dropped,
    Permutation (limit_groups d k ++ dropped) (flat_map snd d).
Proof.
  unfold limit_groups. induction d as [|[e rs] d IH]; simpl.
  - exists []. constructor.
  - destruct IH as (dropped & IH).
    assert (Hs : exists n, Py.slice_to rs k = firstn n rs).
    { unfold Py.slice_to. destruct (k <? 0); eauto. }
    destruct Hs as (n & ->).
    exists (skipn n rs ++ dropped).
    rewrite <- (firstn_skipn n rs) at 3.
    rewrite <- !app_assoc. apply Permutation_app_head.
    eapply perm_trans; [apply Permutation_app_swap_app|].
    apply Permutation_app_head, IH.
Qed.

End LimiterMore.

(** Grouping and slicing never invent or duplicate rows, and the count is
    right: every row kept is one of the rows filed and has at least three
    fields; the rows kept together with some dropped rows are, up to order,
    exactly the rows filed that have three fields or more; with a cap of at
    least the number of rows filed nothing is dropped; the logged
    [total_limited] is the number of rows kept, at most the cap times the
    number of engines. *)
Theorem limit_rows_bounds :
  forall (rows : list Limiter.row) (k : Z),
    (forall r, In r (Limiter.limit_rows rows k) ->
               In r rows /\ 3 <= Py.len r) /\
    (exists dropped,
        Permutation (Limiter.limit_rows rows k ++ dropped)
                    (filter (fun r => 3 <=? Py.len r) rows)) /\
    (Py.len rows <= k ->
     Permutation (Limiter.limit_rows rows k)
                 (filter (fun r => 3 <=? Py.len r) rows)) /\
    Limiter.total_limited (Limiter.group_rows [] rows) k
    = Py.len (Limiter.limit_rows rows k) /\
    (0 <= k ->
     Py.len (Limiter.limit_rows rows k)
     <= k * Py.len (Limiter.group_rows [] rows)).
Proof.
  intros rows k.
  pose proof (group_rows_perm [] rows) as HP. simpl in HP.
  assert (Hlen : (List.length (flat_map snd (Limiter.group_rows [] rows))
                  <= List.length rows)%nat).
  { rewrite (Permutation_length HP). apply filter_length_le. }
  split; [|split; [|split; [|split]]].
  - intros r Hin. unfold Limiter.limit_rows, Limiter.limit_groups in Hin.
    apply in_flat_map in Hin as ([e rs] & Hd & Hr).
    apply slice_to_incl in Hr.
    assert (Hf : In r (flat_map snd (Limiter.group_rows [] rows))).
    { apply in_flat_map. exists (e, rs). auto. }
    eapply Permutation_in in Hf; [|exact HP].
    apply filter_In in Hf as [Hrows H3]. split; auto.
    now apply Z.leb_le.
  - destruct (limit_groups_sub (Limiter.group_rows [] rows) k)
      as (dropped & Hd).
    exists dropped. eapply perm_trans; [exact Hd | exact HP].
  - intros Hk. unfold Limiter.limit_rows.
    rewrite limit_groups_all; [exact HP|]. unfold Py.len in *. lia.
  - unfold Limiter.total_limited, Limiter.limit_rows.
    now rewrite total_limited_from.
  - intros Hk. now apply limit_groups_bound.
Qed.

Lemma limit_rows_bounds_witness :
  Permutation (Limiter.limit_rows Limiter.scenario_A_rows 15)
              (filter (fun r => 3 <=? Py.len r) Limiter.scenario_A_rows)
  /\ Py.len (Limiter.limit_rows Limiter.scenario_A_rows 2)
     <= 2 * Py.len (Limiter.group_rows [] Limiter.scenario_A_rows).
Proof.
  destruct (limit_rows_bounds Limiter.scenario_A_rows 15)
    as (_ & _ & Hall & _).
  destruct (limit_rows_bounds Limiter.scenario_A_rows 2)
    as (_ & _ & _ & _ & Hb).
  split; [apply Hall | apply Hb]; vm_compute; discriminate.
Defined.

Section LimiterIdempotence.
Import Limiter Regroup.

Lemma append_row_app d0 d1 e r :
  ~ In e (map fst d0) ->
  append_row (d0 ++ d1) e r = d0 ++ append_row d1 e r.
Proof.
  induction d0 as [|[e' rs] d0 IH]; simpl; auto.
  intros H. destruct (String.eqb e' e) eqn:E.
  - apply String.eqb_eq in E. tauto.
  - f_equal. apply IH. tauto.
Qed.

Lemma group_rows_block d0 e acc rs :
  ~ In e (map fst d0) ->
  (forall r, In r rs -> of_engine e r = true) ->
  group_rows (d0 ++ [(e, acc)]) rs = d0 ++ [(e, acc ++ rs)].
Proof.
  intros Hn. revert acc. unfold group_rows.
  induction rs as [|r rs IH]; intros acc Hall; simpl.
  - now rewrite app_nil_r.
  - assert (Hr : of_engine e r = true) by (apply Hall; now left).
    unfold of_engine in Hr. apply andb_true_iff in Hr as [H3 He].
    apply String.eqb_eq in He. unfold add_row at 2. rewrite H3, He.
    rewrite append_row_app by assumption. simpl.
    rewrite String.eqb_refl, IH by (intros; apply Hall; now right).
    now rewrite <- app_assoc.
Qed.

Lemma group_rows_new_block d0 e r rs :
  ~ In e (map fst d0) ->
  (forall x, In x (r :: rs) -> of_engine e x = true) ->
  group_rows d0 (r :: rs) = d0 ++ [(e, r :: rs)].
Proof.
  intros Hn Hall.
  assert (Hr : of_engine e r = true) by (apply Hall; now left).
  unfold of_engine in Hr. apply andb_true_iff in Hr as [H3 He].
  apply String.eqb_eq in He.
  change (group_rows d0 (r :: rs)) with (group_rows (add_row d0 r) rs).
  unfold add_row. rewrite H3, He.
  rewrite <- (app_nil_r d0) at 1. rewrite append_row_app by assumption.
  simpl. apply (@group_rows_block d0 e [r] rs Hn).
  intros x Hx. apply Hall. now right.
Qed.

(** Grouping rows that come grouped gives the groups back. *)
Lemma group_rows_grouped d' d0 :
  NoDup (map fst d0 ++ map fst d') ->
  (forall e rs, In (e, rs) d' -> forall r, In r rs -> of_engine e r = true) ->
  group_rows d0 (flat_map snd d') = d0 ++ filter nonempty_group d'.
Proof.
  revert d0. induction d' as [|[e rs] d' IH]; intros d0 ND Hall; simpl.
  - now rewrite app_nil_r.
  - rewrite group_rows_app.
    assert (Hn : ~ In e (map fst d0)).
    { simpl in ND. apply NoDup_remove_2 in ND. intros C. apply ND.
      apply in_or_app. now left. }
    assert (Hrs : forall r, In r rs -> of_engine e r = true).
    { intros r Hr. eapply Hall; [left; reflexivity | exact Hr]. }
    assert (Hd' : forall e0 rs0, In (e0, rs0) d' ->
                    forall r, In r rs0 -> of_engine e0 r = true).
    { intros e0 rs0 Hin. eapply Hall. right. exact Hin. }
    destruct rs as [|r rs]; unfold nonempty_group at 1; simpl snd.
    + change (group_rows d0 []) with d0. apply IH; auto.
      simpl in ND. now apply NoDup_remove_1 in ND.
    + rewrite (@group_rows_new_block d0 e r rs Hn Hrs).
      rewrite IH; auto.
      * now rewrite <- app_assoc.
      * rewrite map_app. simpl. now rewrite <- app_assoc.
Qed.

Lemma limit_groups_sliced d k :
  limit_groups d k = flat_map snd (sliced k d).
Proof.
  unfold limit_groups, sliced. induction d as [|[e rs] d IH]; simpl; auto.
  now rewrite IH.
Qed.

Lemma slice_to_twice {A} (l : list A) k :
  0 <= k -> Py.slice_to (Py.slice_to l k) k = Py.slice_to l k.
Proof.
  intros Hk. rewrite !slice_to_nonneg by assumption.
  now rewrite firstn_firstn, Nat.min_id.
Qed.

Lemma limit_groups_filter_sliced d k :
  0 <= k ->
  limit_groups (filter nonempty_group (sliced k d)) k = limit_groups d k.
Proof.
  intros Hk. unfold limit_groups, sliced.
  induction d as [|[e rs] d IH]; [reflexivity|].
  cbn [map filter]. unfold nonempty_group at 1. cbn [snd].
  remember (Py.slice_to rs k) as sl eqn:E. destruct sl as [|r0 rs0].
  - cbn [flat_map]. rewrite <- E. exact IH.
  - cbn [flat_map]. rewrite IH. f_equal. rewrite E.
    now apply slice_to_twice.
Qed.

Lemma limit_rows_twice rows k :
  0 <= k -> limit_rows (limit_rows rows k) k = limit_rows rows k.
Proof.
  intros Hk. unfold limit_rows at 1 2.
  rewrite (limit_groups_sliced (group_rows [] rows) k).
  destruct (well_formed_group_rows rows well_formed_nil) as [ND Hall].
  rewrite (group_rows_grouped (sliced k (group_rows [] rows)) []).
  - simpl. now apply limit_groups_filter_sliced.
  - simpl. unfold sliced. rewrite map_map.
    erewrite map_ext; [exact ND|]. now intros [e rs].
  - intros e rs Hin r Hr. unfold sliced in Hin.
    apply in_map_iff in Hin as ([e0 rs0] & Heq & Hin0).
    injection Heq as <- <-. apply slice_to_incl in Hr. eauto.
Qed.

End LimiterIdempotence.

(** X8. Limiting is idempotent for a cap that is not negative: limiting the
    rows of an already limited file again, with the same cap, gives the same
    rows in the same order. *)
Theorem limit_rows_idempotent :
  forall (rows : list Limiter.row) (k : Z),
    0 <= k ->
    Limiter.limit_rows (Limiter.limit_rows rows k) k
    = Limiter.limit_rows rows k.
Proof. intros rows k Hk. now apply limit_rows_twice. Qed.

Lemma limit_rows_idempotent_witness :
  Limiter.limit_rows (Limiter.limit_rows Limiter.scenario_A_rows 2) 2
  = Limiter.limit_rows Limiter.scenario_A_rows 2.
Proof. apply limit_rows_idempotent. lia. Defined.

(** X9. What [_limit_results_per_engine] does with the files.  When the
    first encoding reads the file, the limited file is written with the
    limited rows and its path returned.  Rows read before a decoding error
    stay filed, so that after a fallback to the second encoding they are
    filed twice.  Any other exception while reading gives back the
    original, unlimited file with nothing written, and so does a failed
    write. *)
Theorem limit_results_per_engine_files :
  forall (outside : Service.Outside) (csv_file : string) (k : Z)
         (w : Service.World),
    let limited_file := Py.replace csv_file ".csv" "_limited.csv" in
    (forall rows w',
        Service.read_csv csv_file Extract.utf_8 w = (rows, None) ->
        Service.write_csv limited_file (Limiter.limit_rows rows k) w
        = (w', None) ->
        Service._limit_results_per_engine csv_file k w = (limited_file, w'))
    /\
    (forall rows1 rows2 w',
        Service.read_csv csv_file Extract.utf_8 w
        = (rows1, Some Py.UnicodeDecodeError) ->
        Service.read_csv csv_file Extract.windows_1252 w = (rows2, None) ->
        Service.write_csv limited_file
          (Limiter.limit_rows (rows1 ++ rows2) k) w = (w', None) ->
        Service._limit_results_per_engine csv_file k w = (limited_file, w'))
    /\
    (forall rows e,
        Service.read_csv csv_file Extract.utf_8 w = (rows, Some e) ->
        e <> Py.UnicodeDecodeError ->
        Service._limit_results_per_engine csv_file k w = (csv_file, w))
    /\
    (forall rows e w',
        Service.read_csv csv_file Extract.utf_8 w = (rows, None) ->
        Service.write_csv limited_file (Limiter.limit_rows rows k) w
        = (w', Some e) ->
        Service._limit_results_per_engine csv_file k w = (csv_file, w')).
Proof.
  intros outside csv_file k w limited_file. subst limited_file.
  unfold Service._limit_results_per_engine. simpl.
  split; [|split; [|split]].
  - intros rows w' Hr Hw. rewrite Hr.
    fold (Limiter.limit_rows rows k). now rewrite Hw.
  - intros rows1 rows2 w' H1 H2 Hw. rewrite H1, H2.
    rewrite <- group_rows_app.
    fold (Limiter.limit_rows (rows1 ++ rows2) k). now rewrite Hw.
  - intros rows e Hr Hne. rewrite Hr.
    destruct e; try reflexivity. now contradiction Hne.
  - intros rows e w' Hr Hw. rewrite Hr.
    fold (Limiter.limit_rows rows k). now rewrite Hw.
Qed.

(** In the world with the late decoding error the first row is written
    twice. *)
Lemma limit_results_per_engine_files_witness :
  Service._limit_results_per_engine (outside := Worlds.late_error)
    "data/onionsearch_q.csv" 5 []
  = ("data/onionsearch_q_limited.csv",
     [("data/onionsearch_q_limited.csv",
       [Worlds.row_one; Worlds.row_one; Worlds.row_two])]).
Proof.
  destruct (limit_results_per_engine_files Worlds.late_error
              "data/onionsearch_q.csv" 5 []) as (_ & H & _).
  apply (H [Worlds.row_one] [Worlds.row_one; Worlds.row_two]);
    reflexivity.
Defined.

(** ** Extraction: order of the links, short rows, exceptions *)

Section DedupFacts.
Import Schemas Extract.

Lemma keyed_values_urls d :
  keyed d -> map OnionLink.url (Py.dict_values d) = map fst d.
Proof.
  intros [_ Hk]. unfold Py.dict_values. rewrite map_map.
  apply map_ext_in. intros [k v] Hin. simpl. eauto.
Qed.

Lemma unique_links_urls_snoc links x :
  map OnionLink.url (unique_links (links ++ [x]))
  = (if Py.mem (OnionLink.url x) (map OnionLink.url (unique_links links))
     then map OnionLink.url (unique_links links)
     else map OnionLink.url (unique_links links) ++ [OnionLink.url x]).
Proof.
  unfold unique_links. rewrite fold_left_app. simpl.
  set (d := fold_left _ links []).
  assert (Hd : keyed d) by apply keyed_fold, keyed_nil.
  rewrite (@keyed_values_urls _ (@keyed_set d x Hd)), (@keyed_values_urls d Hd).
  apply dict_set_keys.
Qed.

Lemma first_occurrences_snoc (us : list string) u :
  rev (nodup string_dec (rev (us ++ [u])))
  = (if Py.mem u (rev (nodup string_dec (rev us)))
     then rev (nodup string_dec (rev us))
     else rev (nodup string_dec (rev us)) ++ [u]).
Proof.
  rewrite rev_app_distr. simpl.
  destruct (in_dec string_dec u (rev us)) as [Hin|Hnin].
  - assert (E : Py.mem u (rev (nodup string_dec (rev us))) = true).
    { apply mem_In. rewrite <- in_rev. now apply nodup_In. }
    now rewrite E.
  - assert (E : Py.mem u (rev (nodup string_dec (rev us))) = false).
    { apply not_true_is_false. intros C. apply mem_In in C.
      rewrite <- in_rev in C. now apply nodup_In in C. }
    now rewrite E.
Qed.

Lemma unique_links_first_occurrences links :
  map OnionLink.url (unique_links links)
  = rev (nodup string_dec (rev (map OnionLink.url links))).
Proof.
  induction links as [|x links IH] using rev_ind; [reflexivity|].
  rewrite unique_links_urls_snoc, map_app. simpl map.
  rewrite first_occurrences_snoc, IH. reflexivity.
Qed.

Lemma fold_dict_set_distinct links :
  NoDup (map OnionLink.url links) ->
  fold_left (fun d link => Py.dict_set String.eqb d (OnionLink.url link) link)
            links []
  = map (fun x => (OnionLink.url x, x)) links.
Proof.
  induction links as [|x links IH] using rev_ind; [reflexivity|].
  rewrite map_app. simpl map. intros ND.
  assert (ND' : NoDup (map OnionLink.url links)).
  { eapply NoDup_app_remove_r. exact ND. }
  rewrite fold_left_app. simpl. rewrite (IH ND'), map_app. simpl.
  apply dict_set_fresh. rewrite map_map. simpl.
  intros C. apply NoDup_remove_2 in ND. apply ND.
  rewrite app_nil_r. exact C.
Qed.

Lemma unique_links_distinct links :
  NoDup (map OnionLink.url links) -> unique_links links = links.
Proof.
  intros ND. unfold unique_links, Py.dict_values.
  rewrite (@fold_dict_set_distinct links ND), map_map. simpl. apply map_id.
Qed.

Lemma collect_type_error rows links :
  (exists row, In row rows /\ get_link row = None) ->
  snd (collect links rows) = Some Py.TypeError.
Proof.
  revert links. induction rows as [|row rows IH]; intros links;
    intros (r & Hin & Hnone); simpl; [destruct Hin|].
  destruct (get_link row) as [link|] eqn:E; [|reflexivity].
  destruct Hin as [->|Hin]; [congruence|].
  destruct (Py.contains link ".onion"); apply IH; eauto.
Qed.

Lemma short_row_link (row : list string) :
  row <> [] -> (List.length row < 3)%nat ->
  get_link (make_row ["engine"; "name"; "link"] row) = None.
Proof.
  destruct row as [|a [|b [|c row]]]; simpl; intros Hne Hlen;
    first [reflexivity | congruence | lia].
Qed.

End DedupFacts.

(** X10. The deduplication by url keeps the urls in the order in which they
    first occur, although the link kept for a url is its last one; it leaves
    a list with pairwise different urls as it is, and so is idempotent; and
    it never returns more links than it was given. *)
Theorem unique_links_order_and_idempotence :
  forall (links : list Schemas.OnionLink.t),
    map Schemas.OnionLink.url (Extract.unique_links links)
    = rev (nodup string_dec (rev (map Schemas.OnionLink.url links))) /\
    (NoDup (map Schemas.OnionLink.url links) ->
     Extract.unique_links links = links) /\
    Extract.unique_links (Extract.unique_links links)
    = Extract.unique_links links /\
    Py.len (Extract.unique_links links) <= Py.len links.
Proof.
  intros links. split; [|split; [|split]].
  - apply unique_links_first_occurrences.
  - apply unique_links_distinct.
  - apply unique_links_distinct, unique_links_NoDup.
  - pose proof (unique_links_first_occurrences links) as H.
    apply (f_equal (@List.length string)) in H.
    rewrite length_map, length_rev in H.
    pose proof (NoDup_incl_length
                  (NoDup_nodup string_dec
                     (rev (map Schemas.OnionLink.url links)))
                  (fun a Ha => proj1 (nodup_In string_dec _ a) Ha)) as Hl.
    rewrite length_rev, length_map in Hl. unfold Py.len. lia.
Qed.

Lemma unique_links_order_and_idempotence_witness :
  Extract.unique_links [Artifacts.abc_first; Artifacts.xyz] 
  = [Artifacts.abc_first; Artifacts.xyz].
Proof.
  destruct (unique_links_order_and_idempotence
              [Artifacts.abc_first; Artifacts.xyz]) as (_ & H & _).
  apply H. repeat constructor; simpl; intuition discriminate.
Defined.

Example unique_links_first_position_last_value :
  Extract.unique_links [Artifacts.abc_first; Artifacts.xyz; Artifacts.abc_last]
  = [Artifacts.abc_last; Artifacts.xyz].
Proof. reflexivity. Qed.

(** X11. A row that is not empty but stops before the third field makes the
    whole extraction raise [TypeError] when the field names are
    [engine,name,link]: such a row is not skipped, and the links of the
    other rows are lost with it. *)
Theorem extract_short_row_raises_type_error :
  forall (csv_reader : list string -> list (list string) * bool)
         (file : Extract.artifact) (line0 : string) (rest : list string)
         (data : list (list string)) (failed : bool) (short : list string),
    file Extract.utf_8 = Py.Ok (line0 :: rest) ->
    csv_reader (Extract.with_header line0 rest)
    = (["engine"; "name"; "link"] :: data, failed) ->
    In short data -> short <> [] -> (List.length short < 3)%nat ->
    Extract._extract_onion_links csv_reader file = Py.Raise Py.TypeError.
Proof.
  intros csv_reader file line0 rest data failed short Hf Hr Hin Hne Hlen.
  unfold Extract._extract_onion_links, Extract.try_encodings,
    Extract.try_loop, Extract.try_body. rewrite Hf.
  unfold Extract.DictReader. rewrite Hr.
  set (rows := map _ _).
  assert (Hs : snd (Extract.collect [] rows) = Some Py.TypeError).
  { apply collect_type_error.
    exists (Extract.make_row ["engine"; "name"; "link"] short). split.
    - apply in_map. apply filter_In. split; auto.
      destruct short; [congruence | reflexivity].
    - now apply short_row_link. }
  destruct (Extract.collect [] rows) as [l o]. simpl in Hs. subst o.
  reflexivity.
Qed.

Lemma extract_short_row_raises_type_error_witness :
  Extract._extract_onion_links Csv.reader Artifacts.with_short_row
  = Py.Raise Py.TypeError.
Proof.
  eapply (@extract_short_row_raises_type_error Csv.reader
            Artifacts.with_short_row _ _ _ _ ["tor66"; "OnlyTwo"]).
  - reflexivity.
  - vm_compute. reflexivity.
  - right. left. reflexivity.
  - discriminate.
  - simpl. lia.
Defined.

(** X12. How exceptions leave the extraction.  Only [UnicodeDecodeError]
    makes it go on to the next encoding: any other exception of the first
    reading is raised as it is, an empty file raises [IndexError], and
    whenever the first reading does not raise [UnicodeDecodeError] the
    second encoding is never consulted.  After a [UnicodeDecodeError] of the
    first reading, another exception of the second is raised as it is. *)
Theorem extract_exception_propagation :
  forall (csv_reader : list string -> list (list string) * bool)
         (file : Extract.artifact),
    (forall e, file Extract.utf_8 = Py.Raise e ->
               e <> Py.UnicodeDecodeError ->
               Extract._extract_onion_links csv_reader file = Py.Raise e) /\
    (file Extract.utf_8 = Py.Ok [] ->
     Extract._extract_onion_links csv_reader file = Py.Raise Py.IndexError) /\
    (file Extract.utf_8 <> Py.Raise Py.UnicodeDecodeError ->
     forall file' : Extract.artifact,
       file' Extract.utf_8 = file Extract.utf_8 ->
       Extract._extract_onion_links csv_reader file'
       = Extract._extract_onion_links csv_reader file) /\
    (forall e, file Extract.utf_8 = Py.Raise Py.UnicodeDecodeError ->
               file Extract.windows_1252 = Py.Raise e ->
               e <> Py.UnicodeDecodeError ->
               Extract._extract_onion_links csv_reader file = Py.Raise e).
Proof.
  intros csv_reader file.
  unfold Extract._extract_onion_links, Extract.try_encodings.
  split; [|split; [|split]].
  - intros e He Hne. simpl. rewrite He. simpl.
    destruct e; try reflexivity. now contradiction Hne.
  - intros He. simpl. rewrite He. reflexivity.
  - intros Hne file' Heq. simpl. rewrite Heq.
    destruct (Extract.try_body csv_reader [] (file Extract.utf_8))
      as [l [e|]] eqn:EB; [|reflexivity].
    destruct e; try reflexivity.
    apply try_body_decode_error in EB as [C _]. now contradiction Hne.
  - intros e H1 H2 Hne. simpl. rewrite H1, H2. simpl.
    destruct e; try reflexivity. now contradiction Hne.
Qed.

Lemma extract_exception_propagation_witness :
  Extract._extract_onion_links Csv.reader Artifacts.missing
  = Py.Raise Py.OSError.
Proof.
  destruct (extract_exception_propagation Csv.reader Artifacts.missing)
    as (H & _).
  apply (H Py.OSError).
  - reflexivity.
  - discriminate.
Defined.

(** ** Aggregation: urls, re-reading, and which reports a job sees *)

Section AggregatorMore.
Import Aggregator.

Lemma merge_seen l :
  snd (merge_from ([], []) l)
  = nodup string_dec (rev (filter Py.truthy_str (map get_url l))).
Proof.
  induction l as [|x l IH] using rev_ind; [reflexivity|].
  rewrite merge_from_snoc, map_app, filter_app. simpl map. simpl filter.
  destruct (merge_from ([], []) l) as [all seen]. simpl in IH.
  unfold add_analysis.
  destruct (Py.truthy_str (get_url x)) eqn:Et.
  - rewrite rev_app_distr. simpl.
    destruct (in_dec string_dec (get_url x)
                (rev (filter Py.truthy_str (map get_url l)))) as [Hin|Hnin].
    + assert (E : Py.mem (get_url x) seen = true).
      { apply mem_In. rewrite IH. now apply nodup_In. }
      rewrite E. exact IH.
    + assert (E : Py.mem (get_url x) seen = false).
      { apply not_true_is_false. intros C. apply mem_In in C.
        rewrite IH in C. now apply nodup_In in C. }
      rewrite E. simpl. now rewrite IH.
  - rewrite app_nil_r. exact IH.
Qed.

Lemma merge_urls l :
  map url (merge l)
  = map Some
      (rev (nodup string_dec (rev (filter Py.truthy_str (map get_url l))))).
Proof.
  unfold merge. rewrite (inv_urls (merge_invariant l)).
  now rewrite merge_seen.
Qed.

Lemma replace_if_better_same x u all :
  In (Some u) (map url all) ->
  (forall a, In a all -> url a = Some u -> better x a = false) ->
  replace_if_better x u all = all.
Proof.
  intros Hin Hmax.
  destruct (@replace_if_better_split x _ _ Hin)
    as (p & old' & q & Hall & Hu & _ & ->).
  rewrite Hall. rewrite (Hmax old'); auto. rewrite Hall. apply in_elt.
Qed.

(** Reading again records that were read before changes nothing. *)
Lemma merge_from_reread l p :
  incl p l -> merge_from ([], []) (l ++ p) = merge_from ([], []) l.
Proof.
  induction p as [|x p IH] using rev_ind; intros Hincl.
  - now rewrite app_nil_r.
  - rewrite app_assoc, merge_from_snoc, IH
      by (intros a Ha; apply Hincl, in_or_app; now left).
    assert (Hx : In x l) by (apply Hincl, in_or_app; right; now left).
    destruct (merge_invariant l) as [Hu _ _ Hseen Hbest].
    destruct (merge_from ([], []) l) as [all seen]. simpl in *.
    unfold add_analysis.
    destruct (Py.truthy_str (get_url x)) eqn:Et; [|reflexivity].
    assert (Hs : In (get_url x) seen) by now apply Hseen.
    assert (Em : Py.mem (get_url x) seen = true) by now apply mem_In.
    rewrite Em. f_equal.
    apply replace_if_better_same.
    + rewrite Hu. apply in_map. now apply in_rev in Hs.
    + intros a Ha Hau. apply leftmost_best_max with l; auto.
      symmetry. now apply url_get_url.
Qed.

(** Records with pairwise different, non-empty urls are all kept. *)
Lemma merge_from_distinct m all seen :
  NoDup (map get_url m) ->
  (forall a, In a m -> Py.truthy_str (get_url a) = true /\
                       ~ In (get_url a) seen) ->
  fst (merge_from (all, seen) m) = all ++ m.
Proof.
  revert all seen. unfold merge_from.
  induction m as [|x m IH]; intros all seen ND Hm; simpl.
  - now rewrite app_nil_r.
  - inversion ND as [|? ? Hn ND']; subst.
    destruct (Hm x (or_introl eq_refl)) as [Ht Hns].
    rewrite Ht.
    assert (Em : Py.mem (get_url x) seen = false).
    { apply not_true_is_false. intros C. now apply mem_In in C. }
    rewrite Em, IH; auto.
    + now rewrite <- app_assoc.
    + intros a Ha. destruct (Hm a (or_intror Ha)) as [Hta Hna].
      split; auto. intros [C|C]; auto.
      apply Hn. rewrite C. now apply in_map.
Qed.

Lemma merge_get_urls l :
  map get_url (merge l)
  = rev (nodup string_dec (rev (filter Py.truthy_str (map get_url l)))).
Proof.
  pose proof (merge_urls l) as H.
  assert (G : forall (m : list Analysis) us,
             map url m = map Some us -> map get_url m = us).
  { induction m as [|a m IHm]; intros [|u us] E; simpl in *;
      try discriminate; auto.
    injection E as Ea Em. f_equal; auto. now apply url_get_url. }
  now apply G.
Qed.

Lemma merge_twice l : merge (merge l) = merge l.
Proof.
  unfold merge at 1.
  rewrite (@merge_from_distinct (merge l) [] []); [reflexivity| |].
  - rewrite merge_get_urls. apply NoDup_rev, NoDup_nodup.
  - intros a Ha. split; [|tauto]. now apply merge_In_url in Ha.
Qed.

Lemma In_sort_newest_first f l :
  In f (sort_newest_first l) <-> In f l.
Proof.
  split; apply Permutation_in;
    [|apply Permutation_sym]; apply sort_newest_first_perm.
Qed.

Lemma aggregate_reports_In reports a :
  In a (aggregate_reports reports) ->
  exists recs, In (Some recs) reports /\ In a recs.
Proof.
  rewrite aggregate_reports_merge. intros H.
  apply merge_In_url in H as [H _]. unfold records in H.
  apply in_flat_map in H as ([recs|] & Hr & Ha); [|destruct Ha].
  exists recs. auto.
Qed.

End AggregatorMore.

(** X13. The aggregate holds exactly one record for each distinct non-empty
    url among the records of the readable reports, in the order in which
    these urls first occur, and none for records without a url. *)
Theorem aggregate_one_record_per_url :
  forall (reports : list Aggregator.report),
    map Aggregator.url (Aggregator.aggregate_reports reports)
    = map Some
        (rev (nodup string_dec
                (rev (filter Py.truthy_str
                        (map Aggregator.get_url
                             (Aggregator.records reports)))))).
Proof.
  intros reports. rewrite aggregate_reports_merge. apply merge_urls.
Qed.

Example aggregate_skips_records_without_url :
  Aggregator.aggregate_reports
    [Some [Reports.rec_nourl; Aggregator.rec_short]; None;
     Some [Reports.rec_nourl]]
  = [Aggregator.rec_short].
Proof. reflexivity. Qed.

(** X14. Reading records again that were read before never changes the
    aggregate: a report that occurs twice counts once, and aggregating an
    aggregate gives it back. *)
Theorem aggregate_rereading_changes_nothing :
  forall (reports again : list Aggregator.report),
    incl again reports ->
    Aggregator.aggregate_reports (reports ++ again)
    = Aggregator.aggregate_reports reports
    /\ Aggregator.aggregate_reports
         [Some (Aggregator.aggregate_reports reports)]
       = Aggregator.aggregate_reports reports.
Proof.
  intros reports again Hincl. split.
  - rewrite !aggregate_reports_merge. unfold Aggregator.records.
    rewrite flat_map_app. unfold Aggregator.merge. f_equal.
    apply merge_from_reread. intros a Ha.
    apply in_flat_map in Ha as (r & Hr & Ha).
    apply in_flat_map. exists r. auto.
  - rewrite (aggregate_reports_merge [Some _]). simpl.
    rewrite app_nil_r, aggregate_reports_merge. apply merge_twice.
Qed.

Lemma aggregate_rereading_changes_nothing_witness :
  Aggregator.aggregate_reports
    ([Some [Aggregator.rec_short]; Some [Aggregator.rec_x]]
     ++ [Some [Aggregator.rec_short]])
  = Aggregator.aggregate_reports
      [Some [Aggregator.rec_short]; Some [Aggregator.rec_x]].
Proof.
  apply (@aggregate_rereading_changes_nothing
           [Some [Aggregator.rec_short]; Some [Aggregator.rec_x]]
           [Some [Aggregator.rec_short]]).
  intros a [<-|[]]. now left.
Defined.

(** X15. Which reports a job sees.  When some file name matches the job id,
    every returned record comes from a readable matching file, and if none
    of the matching files can be read the result is the empty list, not the
    reports of other jobs.  When no file name matches, every returned record
    comes from some readable report file, and the result is the same for
    every job id without a matching file. *)
Theorem analysis_results_sources :
  forall (dir : Aggregator.storage) (job_id : string),
    let matching :=
      filter (Aggregator.matches_job job_id) (Aggregator.listdir dir) in
    (matching <> [] ->
     forall result,
       Aggregator.get_analysis_results_for_job dir job_id = Some result ->
       (forall a, In a result ->
          exists f recs,
            In f matching /\ Aggregator.content f = Some recs /\ In a recs)
       /\ ((forall f, In f matching -> Aggregator.content f = None) ->
           result = []))
    /\
    (matching = [] ->
     (forall result a,
        Aggregator.get_analysis_results_for_job dir job_id = Some result ->
        In a result ->
        exists f recs,
          In f (Aggregator.listdir dir) /\ Aggregator.is_report f = true /\
          Aggregator.content f = Some recs /\ In a recs)
     /\ forall other,
          filter (Aggregator.matches_job other) (Aggregator.listdir dir) = []
          ->
          Aggregator.get_analysis_results_for_job dir other
          = Aggregator.get_analysis_results_for_job dir job_id).
Proof.
  intros dir job_id matching.
  unfold Aggregator.get_analysis_results_for_job, Aggregator.analysis_files.
  fold matching. split.
  - intros Hne result. destruct matching as [|m ms] eqn:Em; [congruence|].
    intros H. injection H as <-. split.
    + intros a Ha. apply aggregate_reports_In in Ha as (recs & Hr & Ha).
      apply in_map_iff in Hr as (f & Hc & Hf).
      apply (proj1 (In_sort_newest_first f (m :: ms))) in Hf.
      exists f, recs. auto.
    + intros Hall.
      rewrite aggregate_reports_merge. unfold Aggregator.records.
      assert (E : flat_map Aggregator.records_of
                    (map Aggregator.content
                         (Aggregator.sort_newest_first (m :: ms))) = []).
      { rewrite flat_map_concat_map, map_map. apply concat_nil_Forall.
        apply Forall_map, Forall_forall. intros f Hf.
        apply (proj1 (In_sort_newest_first f (m :: ms))) in Hf.
        now rewrite (Hall f Hf). }
      transitivity
        (Aggregator.merge
           (flat_map Aggregator.records_of
              (map Aggregator.content
                   (Aggregator.sort_newest_first (m :: ms)))));
        [reflexivity|]. now rewrite E.
  - intros Hm. rewrite Hm. split.
    + intros result a.
      destruct (filter Aggregator.is_report (Aggregator.listdir dir))
        as [|f0 fs] eqn:Ea; [discriminate|].
      intros H Ha. injection H as <-.
      apply aggregate_reports_In in Ha as (recs & Hr & Ha).
      apply in_map_iff in Hr as (f & Hc & Hf).
      apply (proj1 (In_sort_newest_first f (f0 :: fs))) in Hf.
      rewrite <- Ea in Hf.
      apply filter_In in Hf as [Hf Hrep]. exists f, recs. auto.
    + intros other Ho. now rewrite Ho.
Qed.

(** The only report of [j1] cannot be read: [j1] gets the empty list, while
    an id without any report gets the record of [j2]. *)
Lemma analysis_results_sources_witness :
  Aggregator.get_analysis_results_for_job Reports.unreadable_dir "j1"
  = Some []
  /\ Aggregator.get_analysis_results_for_job Reports.unreadable_dir "j7"
     = Aggregator.get_analysis_results_for_job Reports.unreadable_dir "j9".
Proof.
  destruct (analysis_results_sources Reports.unreadable_dir "j1")
    as [H1 _].
  destruct (analysis_results_sources Reports.unreadable_dir "j9")
    as [_ H9].
  split.
  - destruct (H1 ltac:(discriminate)
                 (Aggregator.aggregate_reports [None]) eq_refl) as [_ He].
    refine (f_equal Some (He _)). intros f [<-|[]]. reflexivity.
  - destruct (H9 eq_refl) as [_ Ho]. apply Ho. reflexivity.
Defined.

Example fallback_shows_other_jobs_records :
  Aggregator.get_analysis_results_for_job Reports.unreadable_dir "j7"
  = Some [Aggregator.rec_x].
Proof. reflexivity. Qed.

(** ** The monitoring statistics *)

Section MonitoringFacts.
Import Schemas Service Monitoring.

Lemma insert_recent_perm x l : Permutation (insert_recent x l) (x :: l).
Proof.
  induction l as [|y l IH]; simpl; [reflexivity|].
  destruct (CrawlJob.updated_at y <=? CrawlJob.updated_at x);
    [reflexivity|].
  eapply perm_trans; [apply perm_skip, IH | apply perm_swap].
Qed.

Lemma sorted_recent_perm l : Permutation (sorted_recent l) l.
Proof.
  induction l as [|x l IH]; simpl; [reflexivity|].
  eapply perm_trans; [apply insert_recent_perm | now apply perm_skip].
Qed.

Lemma insert_recent_sorted x l :
  StronglySorted not_older l -> StronglySorted not_older (insert_recent x l).
Proof.
  induction l as [|y l IH]; intros Hs; simpl.
  - constructor; constructor.
  - inversion Hs as [|? ? Hs' Hall]; subst.
    destruct (CrawlJob.updated_at y <=? CrawlJob.updated_at x) eqn:E.
    + apply Z.leb_le in E. constructor; [exact Hs|].
      constructor; [exact E|].
      eapply Forall_impl; [|exact Hall]. intros b Hb.
      unfold not_older in *. lia.
    + apply Z.leb_gt in E. constructor; [now apply IH|].
      apply Forall_forall. intros b Hb.
      apply (Permutation_in _ (insert_recent_perm x l)) in Hb.
      destruct Hb as [<-|Hb].
      * unfold not_older. lia.
      * rewrite Forall_forall in Hall. now apply Hall.
Qed.

Lemma sorted_recent_sorted l : StronglySorted not_older (sorted_recent l).
Proof.
  induction l as [|x l IH]; simpl; [constructor|].
  now apply insert_recent_sorted.
Qed.

Lemma StronglySorted_app_inv {A} (R : A -> A -> Prop) l1 l2 :
  StronglySorted R (l1 ++ l2) ->
  StronglySorted R l1 /\
  forall a b, In a l1 -> In b l2 -> R a b.
Proof.
  induction l1 as [|x l1 IH]; simpl; intros H.
  - split; [constructor|]. intros a b [].
  - inversion H as [|? ? Hs Hall]; subst.
    destruct (IH Hs) as [Hs1 Hc]. rewrite Forall_forall in Hall. split.
    + constructor; [exact Hs1|]. apply Forall_forall. intros b Hb.
      apply Hall, in_or_app. now left.
    + intros a b [<-|Ha] Hb; [|now apply Hc].
      apply Hall, in_or_app. now right.
Qed.

Lemma fold_add_shift l a : fold_left Z.add l a = a + fold_left Z.add l 0.
Proof.
  revert a. induction l as [|x l IH]; intros a; simpl; [lia|].
  rewrite IH, (IH x). lia.
Qed.

Lemma sum_cons x l : sum (x :: l) = x + sum l.
Proof. unfold sum. simpl. now rewrite fold_add_shift. Qed.

Lemma sum_app l1 l2 : sum (l1 ++ l2) = sum l1 + sum l2.
Proof.
  induction l1 as [|x l1 IH]; [reflexivity|].
  simpl app. rewrite !sum_cons, IH. lia.
Qed.

Lemma in_progress_counted job :
  Py.len (filter in_progress [job]) = counted job.
Proof.
  unfold in_progress, counted. simpl.
  now destruct (CrawlJob.status job).
Qed.

Lemma active_app l1 l2 :
  Py.len (filter in_progress (l1 ++ l2))
  = Py.len (filter in_progress l1) + Py.len (filter in_progress l2).
Proof. unfold Py.len. rewrite filter_app, length_app. lia. Qed.

Lemma active_split l :
  Py.len (filter in_progress l)
  + Py.len (filter (fun job => negb (counted job =? 1)) l)
  = Py.len l.
Proof.
  unfold Py.len. induction l as [|j l IH]; [reflexivity|].
  cbn [filter]. unfold in_progress at 1, counted at 1.
  destruct (CrawlJob.status j); cbn [value String.eqb Ascii.eqb Bool.eqb
    negb Z.eqb Pos.eqb List.length]; cbn [List.length]; lia.
Qed.

(** Assigning to a key that is present replaces its first entry. *)
Lemma dict_set_present {V} (d : list (string * V)) k old v :
  Py.dict_get String.eqb d k = Some old ->
  exists d1 d2 k',
    d = d1 ++ (k', old) :: d2 /\
    Py.dict_set String.eqb d k v = d1 ++ (k', v) :: d2.
Proof.
  induction d as [|[k0 v0] d IH]; simpl; [discriminate|].
  destruct (String.eqb k0 k).
  - intros H. injection H as ->. now exists [], d, k0.
  - intros H. destruct (IH H) as (d1 & d2 & k' & -> & ->).
    now exists ((k0, v0) :: d1), d2, k'.
Qed.

Context {outside : Outside}.

Lemma execute_crawl_background_replaces self job_id query limit w job :
  get_job_status self job_id = Some job ->
  exists final added,
    active_jobs
      (exec_service (_execute_crawl_background self job_id query limit w))
    = Py.dict_set String.eqb (active_jobs self) job_id final /\
    is_active (CrawlJob.status final) = false /\
    CrawlJob.pages final = CrawlJob.pages job ++ added.
Proof.
  intros Hget. unfold _execute_crawl_background, _execute_crawl.
  unfold get_job_status in Hget. rewrite Hget. unfold touch.
  destruct (datetime_now w) as [t0 w0].
  destruct (discover query limit w0) as [[links|e] w1].
  - destruct (fetch_loop _ links w1) as [x2 w2] eqn:EL.
    apply fetch_loop_pages in EL as (_ & _ & ps & Hp & _).
    destruct (datetime_now w2) as [t3 w3]. simpl in Hp.
    eexists. exists ps. split; [reflexivity|]. simpl. auto.
  - unfold fail, touch. destruct (datetime_now w1) as [t3 w3].
    eexists. exists []. split; [reflexivity|]. simpl.
    now rewrite app_nil_r.
Qed.

End MonitoringFacts.

(** X16. The monitoring statistics of a registry: [active_crawls] counts
    the jobs that are IN_PROGRESS and no others, so with the jobs that are
    PENDING, COMPLETED or FAILED it makes up [total_crawls];
    [recent_activity] shows the five most recently updated jobs, or all
    when there are fewer, most recent first, and no job left out was updated
    later than a job shown. *)
Theorem monitoring_stats_recent_and_active :
  forall (self : Service.CrawlerService),
    let jobs := Service.list_jobs self in
    let s := Monitoring.get_monitoring_stats self in
    Monitoring.active_crawls s
    + Py.len (filter (fun job =>
                        negb (Monitoring.counted job =? 1)) jobs)
    = Monitoring.total_crawls s /\
    Monitoring.total_crawls s = Py.len jobs /\
    exists shown left_out,
      Monitoring.recent_activity s = map Monitoring.activity_of shown /\
      Permutation (shown ++ left_out) jobs /\
      Py.len shown = Z.min 5 (Py.len jobs) /\
      StronglySorted Monitoring.not_older shown /\
      forall a b, In a shown -> In b left_out -> Monitoring.not_older a b.
Proof.
  intros self jobs s. split; [|split; [reflexivity|]].
  - apply active_split.
  - exists (firstn 5 (Monitoring.sorted_recent jobs)),
           (skipn 5 (Monitoring.sorted_recent jobs)).
    split; [reflexivity|]. split.
    { rewrite firstn_skipn. apply sorted_recent_perm. }
    split.
    { unfold Py.len. rewrite length_firstn.
      rewrite (Permutation_length (sorted_recent_perm jobs)). lia. }
    apply StronglySorted_app_inv. rewrite firstn_skipn.
    apply sorted_recent_sorted.
Qed.

(** X17. A submission as the monitor sees it: when the generated id is not
    registered yet, [start_crawl] leaves [active_crawls] and
    [total_pages_crawled] as they were, and raises [total_crawls] by one
    exactly when no PENDING or IN_PROGRESS job had the query; the job it
    creates is PENDING and so not counted as active. *)
Theorem monitoring_after_start_crawl :
  forall (outside : Service.Outside) (self : Service.CrawlerService)
         (query : string) (limit : option Z) (w : Service.World),
    ~ In (fst (Service.uuid4 w)) (map fst (Service.active_jobs self)) ->
    let s := Monitoring.get_monitoring_stats self in
    let s' :=
      Monitoring.get_monitoring_stats
        (Service.service (Service.start_crawl self query limit w)) in
    Monitoring.active_crawls s' = Monitoring.active_crawls s /\
    Monitoring.total_pages_crawled s' = Monitoring.total_pages_crawled s /\
    Monitoring.total_crawls s'
    = Monitoring.total_crawls s
      + match find (Service.same_active_query query)
                   (Service.list_jobs self) with
        | Some _ => 0
        | None => 1
        end.
Proof.
  intros outside self query limit w Hfresh s s'. unfold s, s'.
  destruct (find (Service.same_active_query query) (Service.list_jobs self))
    as [job|] eqn:Ef.
  - rewrite (@start_crawl_existing outside self query limit w job Ef).
    simpl.
    rewrite Z.add_0_r. repeat split.
  - destruct (@start_crawl_new outside self query limit w Ef)
      as (t1 & t2 & w' & ->). simpl Service.service.
    unfold Monitoring.get_monitoring_stats, Service.list_jobs. simpl.
    rewrite (@dict_set_fresh _ _ _ _ Hfresh). unfold Py.dict_values.
    rewrite !map_app. simpl map. split; [|split].
    + rewrite active_app, in_progress_counted. apply Z.add_0_r.
    + rewrite sum_app. apply Z.add_0_r.
    + unfold Py.len. rewrite length_app, Nat2Z.inj_add. reflexivity.
Qed.

Lemma monitoring_after_start_crawl_witness :
  Monitoring.active_crawls
    (Monitoring.get_monitoring_stats
       (Service.service Service.demo_submitted)) = 0
  /\ Monitoring.total_crawls
       (Monitoring.get_monitoring_stats
          (Service.service Service.demo_submitted)) = 1.
Proof.
  destruct (@monitoring_after_start_crawl Service.demo
              Service.empty_service "test" (Some 3) Service.demo_start)
    as (Ha & _ & Ht).
  - intros [].
  - split; [exact Ha | exact Ht].
Defined.

(** X18. An execution as the monitor sees it: running a registered job to
    its end leaves [total_crawls] as it was, never lowers
    [total_pages_crawled], and leaves the job out of [active_crawls]: the
    count goes down by one when the job was IN_PROGRESS before and is
    unchanged otherwise. *)
Theorem monitoring_after_execution :
  forall (outside : Service.Outside) (self : Service.CrawlerService)
         (job_id query : string) (limit : Z) (w : Service.World)
         (job : Schemas.CrawlJob.t),
    Service.get_job_status self job_id = Some job ->
    let s := Monitoring.get_monitoring_stats self in
    let s' :=
      Monitoring.get_monitoring_stats
        (Service.exec_service
           (Service._execute_crawl_background self job_id query limit w)) in
    Monitoring.total_crawls s' = Monitoring.total_crawls s /\
    Monitoring.active_crawls s'
    = Monitoring.active_crawls s - Monitoring.counted job /\
    Monitoring.total_pages_crawled s <= Monitoring.total_pages_crawled s'.
Proof.
  intros outside self job_id query limit w job Hget s s'. unfold s, s'.
  destruct (@execute_crawl_background_replaces outside self job_id query
              limit w job Hget)
    as (final & added & Hreg & Hterm & Hpages).
  unfold Service.get_job_status in Hget.
  destruct (@dict_set_present _ _ _ _ final Hget)
    as (d1 & d2 & k' & Hd & Hset).
  unfold Monitoring.get_monitoring_stats, Service.list_jobs. simpl.
  rewrite Hreg, Hset, Hd. unfold Py.dict_values.
  rewrite !map_app. simpl map.
  change (?x :: map snd d2) with ([x] ++ map snd d2).
  rewrite !active_app, !in_progress_counted, !sum_app. split; [|split].
  - unfold Py.len. rewrite !length_app. reflexivity.
  - assert (Monitoring.counted final = 0).
    { unfold Monitoring.counted.
      destruct (Schemas.CrawlJob.status final); try reflexivity.
      discriminate Hterm. }
    lia.
  - rewrite !sum_cons, Hpages. unfold Py.len at 2 5.
    rewrite length_app. lia.
Qed.

Lemma monitoring_after_execution_witness :
  Monitoring.total_crawls
    (Monitoring.get_monitoring_stats
       (Service.exec_service Service.demo_executed)) = 1
  /\ Monitoring.active_crawls
       (Monitoring.get_monitoring_stats
          (Service.exec_service Service.demo_executed)) = 0.
Proof.
  destruct (@monitoring_after_execution Service.demo
              (Service.service Service.demo_submitted) "job-0" "test" 3
              (Service.world Service.demo_submitted)
              (Schemas.CrawlJob.new "job-0" "test" Schemas.PENDING 1 1)
              eq_refl)
    as (Ht & Ha & _).
  split; [exact Ht | exact Ha].
Defined.

(** ** The summary of analyses *)

Section AIServiceFacts.
Import Schemas Service AIService.

Lemma count_level_cons l x xs :
  count_level l (x :: xs) = bump l x + count_level l xs.
Proof.
  unfold count_level, bump, Py.len. cbn [filter].
  destruct (level_is l x); cbn [List.length]; lia.
Qed.

Lemma visit_step a b c d kw hp x :
  visit (distribution a b c d, kw, hp) x
  = Py.Ok (distribution (a + bump LOW x) (b + bump MEDIUM x)
                        (c + bump HIGH x) (d + bump CRITICAL x),
           kw ++ AIAnalysis.keywords x,
           hp ++ (if is_high_risk x then [page_of x] else [])).
Proof.
  unfold visit, bump, is_high_risk, level_is, distribution.
  destruct (RiskAssessment.level (AIAnalysis.risk_assessment x));
    cbn; rewrite ?Z.add_0_r, ?app_nil_r; reflexivity.
Qed.

Lemma visit_all_run l : forall a b c d kw hp,
  visit_all (distribution a b c d, kw, hp) l
  = Py.Ok (distribution (a + count_level LOW l) (b + count_level MEDIUM l)
                        (c + count_level HIGH l)
                        (d + count_level CRITICAL l),
           kw ++ flat_map AIAnalysis.keywords l,
           hp ++ map page_of (filter is_high_risk l)).
Proof.
  induction l as [|x l IH]; intros a b c d kw hp.
  - cbn [visit_all flat_map filter map]. unfold count_level, Py.len.
    cbn [filter List.length Z.of_nat]. now rewrite !Z.add_0_r, !app_nil_r.
  - cbn [visit_all]. rewrite visit_step. cbn [bind]. rewrite IH.
    rewrite !count_level_cons, !Z.add_assoc, <- !app_assoc.
    cbn [flat_map filter]. destruct (is_high_risk x); reflexivity.
Qed.

(** The recommendations for a distribution with its four entries. *)
Lemma generate_recommendations_run a b c d hp :
  _generate_recommendations (distribution a b c d) hp
  = Py.Ok
      ((if 0 <? d
        then ["CRITICAL: Immediate attention required for critical risk pages"]
        else [])
       ++ (if 0 <? c then ["HIGH: Monitor high-risk pages closely"] else [])
       ++ (if 5 <? Py.len hp
           then ["Consider implementing automated monitoring for high-risk domains"]
           else [])
       ++ (if c + d <? a then ["Overall risk level appears manageable"]
           else [])).
Proof.
  unfold _generate_recommendations, distribution, index. cbn.
  destruct (0 <? d), (0 <? c), (5 <? Py.len hp), (c + d <? a); reflexivity.
Qed.

Lemma level_is_iff l x :
  level_is l x = true <->
  RiskAssessment.level (AIAnalysis.risk_assessment x) = l.
Proof.
  unfold level_is.
  destruct (RiskAssessment.level (AIAnalysis.risk_assessment x)), l;
    cbn; split; congruence.
Qed.

Lemma count_level_pos l xs :
  0 < count_level l xs <->
  exists x, In x xs /\
            RiskAssessment.level (AIAnalysis.risk_assessment x) = l.
Proof.
  unfold count_level, Py.len. split.
  - destruct (filter (level_is l) xs) as [|x r] eqn:E;
      cbn [List.length]; [lia|]. intros _.
    assert (Hx : In x (filter (level_is l) xs)) by (rewrite E; now left).
    apply filter_In in Hx as [Hx Hl]. exists x. split; [exact Hx|].
    now apply level_is_iff.
  - intros (x & Hx & Hl).
    assert (Hf : In x (filter (level_is l) xs)).
    { apply filter_In. split; [exact Hx|]. now apply level_is_iff. }
    destruct (filter (level_is l) xs); [destruct Hf|].
    cbn [List.length]. lia.
Qed.

Lemma bump_total x :
  bump LOW x + bump MEDIUM x + bump HIGH x + bump CRITICAL x = 1.
Proof.
  unfold bump, level_is.
  now destruct (RiskAssessment.level (AIAnalysis.risk_assessment x)).
Qed.

Lemma bump_high_risk x :
  Py.len (if is_high_risk x then [x] else [])
  = bump HIGH x + bump CRITICAL x.
Proof.
  unfold bump, is_high_risk, level_is.
  now destruct (RiskAssessment.level (AIAnalysis.risk_assessment x)).
Qed.

(** The four levels split the analyses. *)
Lemma count_level_total xs :
  count_level LOW xs + count_level MEDIUM xs + count_level HIGH xs
  + count_level CRITICAL xs = Py.len xs.
Proof.
  induction xs as [|x xs IH]; [reflexivity|].
  rewrite !count_level_cons. pose proof (bump_total x) as Hb.
  replace (Py.len (x :: xs)) with (1 + Py.len xs)
    by (unfold Py.len; cbn [List.length]; lia).
  lia.
Qed.

Lemma high_risk_count xs :
  Py.len (filter is_high_risk xs)
  = count_level HIGH xs + count_level CRITICAL xs.
Proof.
  induction xs as [|x xs IH]; [reflexivity|].
  rewrite !count_level_cons. pose proof (bump_high_risk x) as Hb.
  replace (Py.len (filter is_high_risk (x :: xs)))
    with (Py.len (if is_high_risk x then [x] else [])
          + Py.len (filter is_high_risk xs)).
  - lia.
  - cbn [filter]. unfold Py.len.
    destruct (is_high_risk x); cbn [List.length]; lia.
Qed.

(** *** The keyword frequencies *)

Lemma dict_get_set_other {V} (d : list (string * V)) k k' v :
  k <> k' ->
  Py.dict_get String.eqb (Py.dict_set String.eqb d k v) k'
  = Py.dict_get String.eqb d k'.
Proof.
  intros Hne. induction d as [|[k0 v0] d IH]; simpl.
  - destruct (String.eqb k k') eqn:E; [|reflexivity].
    apply String.eqb_eq in E. contradiction.
  - destruct (String.eqb k0 k) eqn:E; simpl.
    + apply String.eqb_eq in E. subst k0.
      destruct (String.eqb k k') eqn:E'; [|reflexivity].
      apply String.eqb_eq in E'. contradiction.
    + destruct (String.eqb k0 k'); [reflexivity | exact IH].
Qed.

Lemma count_keyword_freq d k k' :
  freq_of (count_keyword d k) k'
  = freq_of d k' + (if string_dec k k' then 1 else 0).
Proof.
  unfold freq_of, count_keyword. destruct (string_dec k k') as [<-|Hne].
  - now rewrite dict_get_set_same.
  - rewrite dict_get_set_other by assumption. lia.
Qed.

Lemma fold_count_keyword_freq l : forall d k,
  freq_of (fold_left count_keyword l d) k
  = freq_of d k + Z.of_nat (count_occ string_dec l k).
Proof.
  induction l as [|x l IH]; intros d k; simpl; [lia|].
  rewrite IH, count_keyword_freq.
  destruct (string_dec x k); lia.
Qed.

Lemma count_keyword_keys d k k' :
  In k' (map fst (count_keyword d k)) <-> In k' (map fst d) \/ k' = k.
Proof.
  unfold count_keyword. rewrite dict_set_keys.
  destruct (Py.mem k (map fst d)) eqn:E.
  - apply mem_In in E. split; [tauto|]. intros [H| ->]; auto.
  - rewrite in_app_iff. simpl. intuition congruence.
Qed.

Lemma fold_count_keyword_keys l : forall d k,
  In k (map fst (fold_left count_keyword l d)) <->
  In k (map fst d) \/ In k l.
Proof.
  induction l as [|x l IH]; intros d k; simpl; [tauto|].
  rewrite IH, count_keyword_keys. split;
    [intros [[H|H]|H] | intros [H|[H|H]]]; auto.
Qed.

Lemma count_keyword_NoDup d k :
  NoDup (map fst d) -> NoDup (map fst (count_keyword d k)).
Proof.
  intros ND. unfold count_keyword. rewrite dict_set_keys.
  destruct (Py.mem k (map fst d)) eqn:E; [exact ND|].
  apply (Permutation_NoDup (Permutation_cons_append (map fst d) k)).
  constructor; [|exact ND].
  intros C. apply mem_In in C. congruence.
Qed.

Lemma fold_count_keyword_NoDup l : forall d,
  NoDup (map fst d) -> NoDup (map fst (fold_left count_keyword l d)).
Proof.
  induction l as [|x l IH]; intros d ND; simpl; [exact ND|].
  now apply IH, count_keyword_NoDup.
Qed.

Lemma keyword_freq_entry l k v :
  In (k, v) (keyword_freq l) ->
  In k l /\ v = Z.of_nat (count_occ string_dec l k).
Proof.
  intros Hin. unfold keyword_freq in *. split.
  - assert (Hk : In k (map fst (fold_left count_keyword l [])))
      by (apply (in_map fst) in Hin; exact Hin).
    apply fold_count_keyword_keys in Hk as [[]|Hk]. exact Hk.
  - pose proof (fold_count_keyword_freq l [] k) as Hf.
    unfold freq_of in Hf.
    rewrite (In_dict_get _ _ _ (fold_count_keyword_NoDup l [] (NoDup_nil _))
                         Hin) in Hf.
    simpl in Hf. exact Hf.
Qed.

Lemma keyword_freq_length l :
  List.length (keyword_freq l) = List.length (nodup string_dec l).
Proof.
  rewrite <- (length_map fst). apply Permutation_length.
  apply NoDup_Permutation.
  - apply fold_count_keyword_NoDup. constructor.
  - apply NoDup_nodup.
  - intros k. unfold keyword_freq. rewrite fold_count_keyword_keys.
    rewrite nodup_In. simpl. tauto.
Qed.

Lemma insert_frequent_perm x l : Permutation (insert_frequent x l) (x :: l).
Proof.
  induction l as [|y l IH]; simpl; [reflexivity|].
  destruct (snd y <=? snd x); [reflexivity|].
  eapply perm_trans; [apply perm_skip, IH | apply perm_swap].
Qed.

Lemma sorted_frequent_perm l : Permutation (sorted_frequent l) l.
Proof.
  induction l as [|x l IH]; simpl; [reflexivity|].
  eapply perm_trans; [apply insert_frequent_perm | now apply perm_skip].
Qed.

Lemma insert_frequent_sorted x l :
  StronglySorted more_frequent l ->
  StronglySorted more_frequent (insert_frequent x l).
Proof.
  induction l as [|y l IH]; intros Hs; simpl.
  - constructor; constructor.
  - inversion Hs as [|? ? Hs' Hall]; subst.
    destruct (snd y <=? snd x) eqn:E.
    + apply Z.leb_le in E. constructor; [exact Hs|].
      constructor; [exact E|].
      eapply Forall_impl; [|exact Hall]. intros b Hb.
      unfold more_frequent in *. lia.
    + apply Z.leb_gt in E. constructor; [now apply IH|].
      apply Forall_forall. intros b Hb.
      apply (Permutation_in _ (insert_frequent_perm x l)) in Hb.
      destruct Hb as [<-|Hb].
      * unfold more_frequent. lia.
      * rewrite Forall_forall in Hall. now apply Hall.
Qed.

Lemma sorted_frequent_sorted l :
  StronglySorted more_frequent (sorted_frequent l).
Proof.
  induction l as [|x l IH]; simpl; [constructor|].
  now apply insert_frequent_sorted.
Qed.

Lemma StronglySorted_map {A B} (f : A -> B) (R : A -> A -> Prop)
    (S : B -> B -> Prop) l :
  (forall a b, R a b -> S (f a) (f b)) ->
  StronglySorted R l -> StronglySorted S (map f l).
Proof.
  intros HRS. induction 1 as [|a l Hs IH Hall]; simpl; constructor; auto.
  apply Forall_map. eapply Forall_impl; [|exact Hall]. intros b. apply HRS.
Qed.

Context {outside : Outside}.

(** What the summary of a list that is not empty is. *)
Lemma generate_summary_report_run analyses w :
  analyses <> [] ->
  exists recommendations,
    _generate_recommendations
      (distribution (count_level LOW analyses) (count_level MEDIUM analyses)
                    (count_level HIGH analyses)
                    (count_level CRITICAL analyses))
      (map page_of (filter is_high_risk analyses))
    = Py.Ok recommendations /\
    generate_summary_report analyses w
    = (Py.Ok (summary
         (SummaryReport.mk (Py.len analyses)
            (distribution (count_level LOW analyses)
                          (count_level MEDIUM analyses)
                          (count_level HIGH analyses)
                          (count_level CRITICAL analyses))
            (map page_of (filter is_high_risk analyses))
            (map (fun kf => TopKeyword.mk (fst kf) (snd kf))
                 (Py.slice_to
                    (sorted_frequent
                       (keyword_freq
                          (flat_map AIAnalysis.keywords analyses))) 10))
            (fst (datetime_now w)) recommendations)),
       snd (datetime_now w)).
Proof.
  intros Hne. eexists. split; [apply generate_recommendations_run|].
  destruct analyses as [|x xs]; [congruence|].
  unfold generate_summary_report.
  change [("low", 0); ("medium", 0); ("high", 0); ("critical", 0)]
    with (distribution 0 0 0 0).
  rewrite visit_all_run. cbn [app]. rewrite !Z.add_0_l.
  destruct (datetime_now w) as [now w']. cbn [fst snd].
  now rewrite generate_recommendations_run.
Qed.

End AIServiceFacts.

Section SummaryFacts.
Import Schemas Service AIService.

Lemma In_recommendations (x s1 s2 s3 s4 : string) (b1 b2 b3 b4 : bool) :
  In x ((if b1 then [s1] else []) ++ (if b2 then [s2] else [])
        ++ (if b3 then [s3] else []) ++ (if b4 then [s4] else []))
  <-> (b1 = true /\ x = s1) \/ (b2 = true /\ x = s2)
      \/ (b3 = true /\ x = s3) \/ (b4 = true /\ x = s4).
Proof.
  rewrite !in_app_iff.
  destruct b1, b2, b3, b4; simpl; intuition congruence.
Qed.

Lemma NoDup_firstn {A} n (l : list A) : NoDup l -> NoDup (firstn n l).
Proof.
  intros ND. rewrite <- (firstn_skipn n l) in ND.
  now apply NoDup_app_remove_r in ND.
Qed.

Lemma map_fst_top l :
  map TopKeyword.keyword
      (map (fun kf : string * Z => TopKeyword.mk (fst kf) (snd kf)) l)
  = map fst l.
Proof. rewrite map_map. reflexivity. Qed.

(** The ten most frequent keywords of a list. *)
Lemma top_keywords_facts all :
  let top :=
    map (fun kf : string * Z => TopKeyword.mk (fst kf) (snd kf))
        (Py.slice_to (sorted_frequent (keyword_freq all)) 10) in
  Py.len top = Z.min 10 (Py.len (nodup string_dec all)) /\
  NoDup (map TopKeyword.keyword top) /\
  (forall e, In e top ->
     In (TopKeyword.keyword e) all /\
     TopKeyword.frequency e
     = Z.of_nat (count_occ string_dec all (TopKeyword.keyword e))) /\
  StronglySorted not_rarer top /\
  (forall k e, In k all -> ~ In k (map TopKeyword.keyword top) ->
     In e top ->
     Z.of_nat (count_occ string_dec all k) <= TopKeyword.frequency e).
Proof.
  intros top. unfold top. rewrite slice_to_nonneg by lia.
  change (Z.to_nat 10) with 10%nat.
  pose proof (sorted_frequent_perm (keyword_freq all)) as Hperm.
  pose proof (sorted_frequent_sorted (keyword_freq all)) as Hsorted.
  assert (ND : NoDup (map fst (sorted_frequent (keyword_freq all)))).
  { apply (Permutation_NoDup (Permutation_map fst (Permutation_sym Hperm))).
    apply fold_count_keyword_NoDup. constructor. }
  rewrite <- (firstn_skipn 10 (sorted_frequent (keyword_freq all)))
    in Hsorted.
  apply StronglySorted_app_inv in Hsorted as [Hs1 Hcross].
  split; [|split; [|split; [|split]]].
  - unfold Py.len. rewrite length_map, length_firstn.
    rewrite (Permutation_length Hperm), keyword_freq_length. lia.
  - rewrite map_fst_top, <- firstn_map. now apply NoDup_firstn.
  - intros e He. apply in_map_iff in He as ([k v] & <- & Hkv). simpl.
    apply firstn_incl in Hkv.
    apply (Permutation_in _ Hperm) in Hkv.
    now apply keyword_freq_entry.
  - eapply StronglySorted_map; [|exact Hs1]. intros a b Hab. exact Hab.
  - intros k e Hk Hnot He.
    apply in_map_iff in He as ([k' v'] & <- & He). simpl.
    assert (Hkey : In k (map fst (keyword_freq all))).
    { unfold keyword_freq. apply fold_count_keyword_keys. now right. }
    apply in_map_iff in Hkey as ([k0 v] & Hk0 & Hkv). simpl in Hk0.
    subst k0. destruct (keyword_freq_entry _ _ _ Hkv) as [_ Hv].
    rewrite <- Hv.
    apply (Permutation_in _ (Permutation_sym Hperm)) in Hkv.
    rewrite <- (firstn_skipn 10 (sorted_frequent (keyword_freq all)))
      in Hkv.
    apply in_app_or in Hkv as [Hkv|Hkv].
    + exfalso. apply Hnot. rewrite map_fst_top.
      apply (in_map fst) in Hkv. exact Hkv.
    + apply (Hcross (k', v') (k, v) He Hkv).
Qed.

Lemma prefix_refl_app (p s : string) :
  String.prefix p (p ++ s)%string = true.
Proof.
  induction p as [|c p IH]; simpl; [now destruct s|].
  destruct (ascii_dec c c); [exact IH | congruence].
Qed.

Lemma prefix_exists (p s : string) :
  String.prefix p s = true -> exists r, s = (p ++ r)%string.
Proof.
  revert s. induction p as [|c p IH]; intros s.
  - intros _. now exists s.
  - destruct s as [|c' s]; simpl; [discriminate|].
    destruct (ascii_dec c c') as [<-|]; [|discriminate].
    intros H. destruct (IH _ H) as [r ->]. now exists r.
Qed.

Lemma append_assoc (a b c : string) :
  ((a ++ b) ++ c)%string = (a ++ (b ++ c))%string.
Proof. induction a as [|x a IH]; simpl; [reflexivity | now rewrite IH]. Qed.

Lemma length_append (a b : string) :
  String.length (a ++ b)%string = (String.length a + String.length b)%nat.
Proof. induction a as [|x a IH]; simpl; [reflexivity | now rewrite IH]. Qed.

Lemma substring_append (a b : string) :
  String.substring (String.length a) (String.length b) (a ++ b)%string = b.
Proof.
  induction a as [|x a IH]; simpl; [|exact IH].
  induction b as [|y b IHb]; simpl; [reflexivity|]. now rewrite IHb.
Qed.

Lemma endswith_append (a b : string) :
  Py.endswith (a ++ b)%string b = true.
Proof.
  unfold Py.endswith. rewrite length_append.
  replace (String.length a + String.length b - String.length b)%nat
    with (String.length a) by lia.
  rewrite substring_append, String.eqb_refl.
  apply andb_true_iff. split; [|reflexivity]. apply Nat.leb_le. lia.
Qed.

End SummaryFacts.

(** X19. The summary of a list of analyses never fails on its own
    dictionary: for no analyses it is the error entry
    [No analyses provided]; otherwise it is a summary whose
    [risk_distribution] holds, for each of the four levels, the number of
    analyses of that level, the four numbers adding up to
    [total_pages_analyzed], and whose [high_risk_pages] are the analyses of
    level high or critical in their order, as many as the two counts
    together. *)
Theorem summary_report_counts :
  forall (outside : Service.Outside) (analyses : list AIService.AIAnalysis.t)
         (w : Service.World),
    AIService.generate_summary_report [] w
    = (Py.Ok (AIService.error "No analyses provided"), w)
    /\
    (analyses <> [] ->
     exists s,
       fst (AIService.generate_summary_report analyses w)
       = Py.Ok (AIService.summary s) /\
       AIService.SummaryReport.total_pages_analyzed s = Py.len analyses /\
       AIService.SummaryReport.risk_distribution s
       = AIService.distribution
           (AIService.count_level AIService.LOW analyses)
           (AIService.count_level AIService.MEDIUM analyses)
           (AIService.count_level AIService.HIGH analyses)
           (AIService.count_level AIService.CRITICAL analyses) /\
       AIService.count_level AIService.LOW analyses
       + AIService.count_level AIService.MEDIUM analyses
       + AIService.count_level AIService.HIGH analyses
       + AIService.count_level AIService.CRITICAL analyses
       = AIService.SummaryReport.total_pages_analyzed s /\
       AIService.SummaryReport.high_risk_pages s
       = map AIService.page_of
             (filter AIService.is_high_risk analyses) /\
       Py.len (AIService.SummaryReport.high_risk_pages s)
       = AIService.count_level AIService.HIGH analyses
         + AIService.count_level AIService.CRITICAL analyses).
Proof.
  intros outside analyses w. split; [reflexivity|]. intros Hne.
  destruct (@generate_summary_report_run outside analyses w Hne)
    as (recs & _ & ->).
  eexists. split; [reflexivity|]. cbn.
  repeat split.
  - apply count_level_total.
  - unfold Py.len. rewrite length_map. apply high_risk_count.
Qed.

Lemma summary_report_counts_witness :
  exists s,
    fst (AIService.generate_summary_report (outside := Service.demo)
           AIService.demo_analyses Service.demo_start)
    = Py.Ok (AIService.summary s) /\
    AIService.SummaryReport.total_pages_analyzed s = 3.
Proof.
  destruct (@summary_report_counts Service.demo AIService.demo_analyses
              Service.demo_start) as [_ H].
  destruct H as (s & Hs & Ht & _); [discriminate|].
  exists s. split; [exact Hs | exact Ht].
Defined.

(** X20. The top keywords of a summary are the ten most frequent keywords
    of the analyses, or all of them when there are fewer than ten distinct
    ones: each is listed once with the number of its occurrences over all
    analyses, the most frequent first, and no keyword left out occurs more
    often than a listed one. *)
Theorem summary_top_keywords :
  forall (outside : Service.Outside) (analyses : list AIService.AIAnalysis.t)
         (w : Service.World),
    analyses <> [] ->
    exists s,
      fst (AIService.generate_summary_report analyses w)
      = Py.Ok (AIService.summary s) /\
      let all := flat_map AIService.AIAnalysis.keywords analyses in
      let top := AIService.SummaryReport.top_keywords s in
      Py.len top = Z.min 10 (Py.len (nodup string_dec all)) /\
      NoDup (map AIService.TopKeyword.keyword top) /\
      (forall e, In e top ->
         In (AIService.TopKeyword.keyword e) all /\
         AIService.TopKeyword.frequency e
         = Z.of_nat (count_occ string_dec all
                       (AIService.TopKeyword.keyword e))) /\
      StronglySorted AIService.not_rarer top /\
      (forall k e, In k all ->
         ~ In k (map AIService.TopKeyword.keyword top) ->
         In e top ->
         Z.of_nat (count_occ string_dec all k)
         <= AIService.TopKeyword.frequency e).
Proof.
  intros outside analyses w Hne.
  destruct (@generate_summary_report_run outside analyses w Hne)
    as (recs & _ & ->).
  eexists. split; [reflexivity|]. cbn [fst
    AIService.SummaryReport.top_keywords].
  apply top_keywords_facts.
Qed.

Lemma summary_top_keywords_witness :
  exists s,
    fst (AIService.generate_summary_report (outside := Service.demo)
           AIService.demo_analyses Service.demo_start)
    = Py.Ok (AIService.summary s) /\
    Py.len (AIService.SummaryReport.top_keywords s) = 3.
Proof.
  destruct (@summary_top_keywords Service.demo AIService.demo_analyses
              Service.demo_start) as (s & Hs & Hlen & _);
    [discriminate|].
  exists s. split; [exact Hs | exact Hlen].
Defined.

Example summary_top_keywords_demo :
  exists s,
    fst (AIService.generate_summary_report (outside := Service.demo)
           AIService.demo_analyses Service.demo_start)
    = Py.Ok (AIService.summary s) /\
    AIService.SummaryReport.top_keywords s
    = [AIService.TopKeyword.mk "market" 3;
       AIService.TopKeyword.mk "drugs" 2;
       AIService.TopKeyword.mk "forum" 1].
Proof. eexists. split; vm_compute; reflexivity. Qed.

(** X21. The recommendations of a summary follow the analyses: the
    critical one is given exactly when some analysis is critical, the high
    one exactly when some analysis is high, the one on automated monitoring
    exactly when more than five pages are high or critical, and the
    reassuring one exactly when the low analyses outnumber the high and
    critical ones together.  So the monitoring advice never comes without
    the critical or the high one, and analyses that are all of medium level
    get no recommendation at all. *)
Theorem summary_recommendations :
  forall (outside : Service.Outside) (analyses : list AIService.AIAnalysis.t)
         (w : Service.World),
    analyses <> [] ->
    exists s,
      fst (AIService.generate_summary_report analyses w)
      = Py.Ok (AIService.summary s) /\
      let recs := AIService.SummaryReport.recommendations s in
      let has l :=
        exists a, In a analyses /\
          AIService.RiskAssessment.level
            (AIService.AIAnalysis.risk_assessment a) = l in
      let critical :=
        "CRITICAL: Immediate attention required for critical risk pages" in
      let high := "HIGH: Monitor high-risk pages closely" in
      let monitoring :=
        "Consider implementing automated monitoring for high-risk domains" in
      let manageable := "Overall risk level appears manageable" in
      (In critical recs <-> has AIService.CRITICAL) /\
      (In high recs <-> has AIService.HIGH) /\
      (In monitoring recs
       <-> 5 < Py.len (AIService.SummaryReport.high_risk_pages s)) /\
      (In manageable recs
       <-> AIService.count_level AIService.HIGH analyses
           + AIService.count_level AIService.CRITICAL analyses
           < AIService.count_level AIService.LOW analyses) /\
      (In monitoring recs -> In critical recs \/ In high recs) /\
      ((forall a, In a analyses ->
          AIService.RiskAssessment.level
            (AIService.AIAnalysis.risk_assessment a) = AIService.MEDIUM) ->
       recs = []).
Proof.
  intros outside analyses w Hne.
  destruct (@generate_summary_report_run outside analyses w Hne)
    as (recs & Hrecs & ->).
  rewrite generate_recommendations_run in Hrecs. injection Hrecs as <-.
  eexists. split; [reflexivity|].
  intros recs has critical high monitoring manageable.
  cbn [AIService.SummaryReport.recommendations
       AIService.SummaryReport.high_risk_pages] in recs |- *.
  assert (Hc : In critical recs <-> has AIService.CRITICAL).
  { unfold recs, has. rewrite In_recommendations, <- count_level_pos,
      <- Z.ltb_lt.
    split; [intros [[H _]|[[_ H]|[[_ H]|[_ H]]]]|];
      try discriminate H; auto. }
  assert (Hh : In high recs <-> has AIService.HIGH).
  { unfold recs, has. rewrite In_recommendations, <- count_level_pos,
      <- Z.ltb_lt.
    split; [intros [[_ H]|[[H _]|[[_ H]|[_ H]]]]|];
      try discriminate H; auto. }
  assert (Hm : In monitoring recs
               <-> 5 < Py.len (map AIService.page_of
                             (filter AIService.is_high_risk analyses))).
  { unfold recs. rewrite In_recommendations, <- Z.ltb_lt.
    split; [intros [[_ H]|[[_ H]|[[H _]|[_ H]]]]|];
      try discriminate H; auto. }
  split; [exact Hc|]. split; [exact Hh|]. split; [exact Hm|].
  split; [|split].
  - unfold recs. rewrite In_recommendations, <- Z.ltb_lt.
    split; [intros [[_ H]|[[_ H]|[[_ H]|[H _]]]]|];
      try discriminate H; auto.
  - rewrite Hm, Hc, Hh. unfold has. rewrite <- !count_level_pos.
    unfold Py.len. rewrite length_map.
    pose proof (high_risk_count analyses) as Hcount.
    unfold Py.len in Hcount. lia.
  - intros Hall.
    assert (Hzero : forall l, l <> AIService.MEDIUM ->
                      AIService.count_level l analyses = 0).
    { intros l Hl.
      destruct (Z_lt_le_dec 0 (AIService.count_level l analyses))
        as [Hpos|Hle].
      - apply count_level_pos in Hpos as (a & Ha & Hlev).
        rewrite (Hall a Ha) in Hlev. congruence.
      - unfold AIService.count_level, Py.len in *. lia. }
    unfold recs.
    pose proof (high_risk_count analyses) as Hcount.
    unfold Py.len at 1. rewrite length_map.
    unfold Py.len in Hcount at 1. rewrite Hcount.
    rewrite !Hzero by discriminate. reflexivity.
Qed.

Lemma summary_recommendations_witness :
  exists s,
    fst (AIService.generate_summary_report (outside := Service.demo)
           AIService.demo_analyses Service.demo_start)
    = Py.Ok (AIService.summary s) /\
    In "CRITICAL: Immediate attention required for critical risk pages"
       (AIService.SummaryReport.recommendations s).
Proof.
  destruct (@summary_recommendations Service.demo AIService.demo_analyses
              Service.demo_start) as (s & Hs & Hc & _);
    [discriminate|].
  exists s. split; [exact Hs|]. apply Hc.
  eexists. split; [left; reflexivity | reflexivity].
Defined.

(** X22. The report that [save_analysis_report] writes for a crawl id is
    found again under that id: its file name passes the test that
    [get_analysis_results_for_job] applies for the id.  The test compares
    prefixes, so the file passes for every job id that is a prefix of the
    crawl id as well, and in a directory that holds the file such a job is
    given reports by name, this one among them, not the fallback. *)
Theorem saved_report_found_by_prefix :
  forall (crawl_id stamp : string) (ctime : Z)
         (content : Aggregator.report),
    let f :=
      Aggregator.mkFile (AIService.report_filename crawl_id stamp) ctime
                        content in
    Aggregator.matches_job crawl_id f = true /\
    Aggregator.is_report f = true /\
    forall job_id,
      String.prefix job_id crawl_id = true ->
      Aggregator.matches_job job_id f = true /\
      forall dir,
        In f (Aggregator.listdir dir) ->
        exists files,
          Aggregator.files_read dir job_id = Some files /\
          In f files /\
          forall g, In g files -> Aggregator.matches_job job_id g = true.
Proof.
  intros crawl_id stamp ctime content f.
  assert (Hpre : forall job_id,
             String.prefix job_id crawl_id = true ->
             Aggregator.matches_job job_id f = true).
  { intros job_id Hp. apply prefix_exists in Hp as [r ->].
    unfold Aggregator.matches_job, f, AIService.report_filename.
    cbn [Aggregator.filename]. apply andb_true_iff. split.
    - unfold Py.startswith.
      rewrite !append_assoc, <- (append_assoc "analysis_report_" job_id).
      apply prefix_refl_app.
    - rewrite <- !append_assoc. apply endswith_append. }
  assert (Hself : Aggregator.matches_job crawl_id f = true).
  { apply Hpre. pose proof (prefix_refl_app crawl_id "") as H.
    replace (crawl_id ++ "")%string with crawl_id in H; [exact H|].
    clear. induction crawl_id as [|c s IH]; simpl; congruence. }
  split; [exact Hself|]. split; [now apply matches_job_is_report in Hself|].
  intros job_id Hp. split; [now apply Hpre|]. intros dir Hin.
  unfold Aggregator.files_read, Aggregator.analysis_files.
  assert (Hf : In f (filter (Aggregator.matches_job job_id)
                            (Aggregator.listdir dir))).
  { apply filter_In. split; [exact Hin | now apply Hpre]. }
  destruct (filter (Aggregator.matches_job job_id) (Aggregator.listdir dir))
    as [|m ms] eqn:Em; [destruct Hf|].
  eexists. split; [reflexivity|]. split.
  - apply (Permutation_in _
             (Permutation_sym (sort_newest_first_perm (m :: ms)))).
    exact Hf.
  - intros g Hg.
    apply (Permutation_in _ (sort_newest_first_perm (m :: ms))) in Hg.
    rewrite <- Em in Hg. now apply filter_In in Hg.
Qed.

Lemma saved_report_found_by_prefix_witness :
  Aggregator.matches_job "job-1"
    (Aggregator.mkFile
       (AIService.report_filename "job-10" "20250101_000000") 5 None)
  = true.
Proof.
  destruct (saved_report_found_by_prefix "job-10" "20250101_000000" 5 None)
    as (_ & _ & H).
  destruct (H "job-1") as [Hm _]; [reflexivity | exact Hm].
Defined.


(* ================================================================== *)
(** * Part IV: the limiter on its file, and executions under other
      settings *)
(* ================================================================== *)

Section LimitedFileFacts.
Import Service.
Context {outside : Outside}.

(** The function writes [limited_results], and nothing when the reading
    raised. *)
Lemma limit_results_per_engine_limited_results csv_file k w :
  _limit_results_per_engine csv_file k w
  = match LimitedFile.limited_results csv_file k w with
    | Py.Raise _ => (csv_file, w)
    | Py.Ok written =>
        match write_csv (Py.replace csv_file ".csv" "_limited.csv")
                        written w with
        | (w', None) => (Py.replace csv_file ".csv" "_limited.csv", w')
        | (w', Some _) => (csv_file, w')
        end
    end.
Proof.
  unfold _limit_results_per_engine, LimitedFile.limited_results.
  destruct (read_engine_results csv_file Extract.try_encodings [] w);
    reflexivity.
Qed.

Lemma limited_results_clean csv_file k w rows :
  read_csv csv_file Extract.utf_8 w = (rows, None) ->
  LimitedFile.limited_results csv_file k w
  = Py.Ok (Limiter.limit_rows rows k).
Proof.
  intros Hr. unfold LimitedFile.limited_results. simpl. now rewrite Hr.
Qed.

Lemma limited_results_fallback csv_file k w rows1 rows2 :
  read_csv csv_file Extract.utf_8 w = (rows1, Some Py.UnicodeDecodeError) ->
  read_csv csv_file Extract.windows_1252 w = (rows2, None) ->
  LimitedFile.limited_results csv_file k w
  = Py.Ok (Limiter.limit_rows (rows1 ++ rows2) k).
Proof.
  intros H1 H2. unfold LimitedFile.limited_results. simpl.
  rewrite H1, H2, <- group_rows_app. reflexivity.
Qed.

End LimitedFileFacts.



(** The same file with a cap of five and with a cap of two: the first row
    is written twice, and with the cap of two the second row is lost to the
    copy of the first. *)
Example limit_results_per_engine_late_error :
  Service.read_csv (Outside := Worlds.late_error)
    "data/onionsearch_q.csv" Extract.windows_1252 []
  = ([Worlds.row_one; Worlds.row_two], None)
  /\ LimitedFile.limited_results (outside := Worlds.late_error)
       "data/onionsearch_q.csv" 5 []
     = Py.Ok [Worlds.row_one; Worlds.row_one; Worlds.row_two]
  /\ LimitedFile.limited_results (outside := Worlds.late_error)
       "data/onionsearch_q.csv" 2 []
     = Py.Ok [Worlds.row_one; Worlds.row_one]
  /\ Limiter.limit_rows [Worlds.row_one; Worlds.row_two] 2
     = [Worlds.row_one; Worlds.row_two].
Proof. repeat split. Qed.

(** X7. [_limit_results_per_engine] never invents rows, and when the first
    encoding reads the file it never duplicates them: every row it writes
    is a row read with at least three fields; the rows written together
    with some dropped rows are, up to order, exactly the rows read that have
    three fields or more; with a cap of at least the number of rows read
    nothing is dropped; and at most the cap times the number of engines are
    written.  After a decoding error of the first reading every row written
    is still a row of one of the two readings, and the rows written with
    some dropped rows are the rows filed by the two readings together. *)
Theorem limit_results_per_engine_rows :
  forall (outside : Service.Outside) (csv_file : string) (k : Z)
         (w : Service.World),
    Service._limit_results_per_engine csv_file k w
    = match LimitedFile.limited_results csv_file k w with
      | Py.Raise _ => (csv_file, w)
      | Py.Ok written =>
          match Service.write_csv
                  (Py.replace csv_file ".csv" "_limited.csv") written w with
          | (w', None) => (Py.replace csv_file ".csv" "_limited.csv", w')
          | (w', Some _) => (csv_file, w')
          end
      end
    /\
    (forall rows,
        Service.read_csv csv_file Extract.utf_8 w = (rows, None) ->
        exists written,
          LimitedFile.limited_results csv_file k w = Py.Ok written /\
          (forall r, In r written -> In r rows /\ 3 <= Py.len r) /\
          (exists dropped,
              Permutation (written ++ dropped)
                          (filter (fun r => 3 <=? Py.len r) rows)) /\
          (Py.len rows <= k ->
           Permutation written (filter (fun r => 3 <=? Py.len r) rows)) /\
          (0 <= k ->
           Py.len written <= k * Py.len (Limiter.group_rows [] rows)))
    /\
    (forall rows1 rows2,
        Service.read_csv csv_file Extract.utf_8 w
        = (rows1, Some Py.UnicodeDecodeError) ->
        Service.read_csv csv_file Extract.windows_1252 w = (rows2, None) ->
        exists written,
          LimitedFile.limited_results csv_file k w = Py.Ok written /\
          (forall r, In r written ->
                     (In r rows1 \/ In r rows2) /\ 3 <= Py.len r) /\
          exists dropped,
            Permutation (written ++ dropped)
              (filter (fun r => 3 <=? Py.len r) rows1
               ++ filter (fun r => 3 <=? Py.len r) rows2)).
Proof.
  intros outside csv_file k w.
  split; [apply limit_results_per_engine_limited_results|]. split.
  - intros rows Hr. exists (Limiter.limit_rows rows k).
    split; [now apply limited_results_clean|].
    destruct (limit_rows_bounds rows k) as (Hin & Hdrop & Hall & _ & Hb).
    auto.
  - intros rows1 rows2 H1 H2. exists (Limiter.limit_rows (rows1 ++ rows2) k).
    split; [now apply limited_results_fallback|].
    destruct (limit_rows_bounds (rows1 ++ rows2) k)
      as (Hin & Hdrop & _). split.
    + intros r Hr. destruct (Hin r Hr) as [Hr' H3]. split; [|exact H3].
      now apply in_app_or.
    + rewrite filter_app in Hdrop. exact Hdrop.
Qed.

Lemma limit_results_per_engine_rows_witness :
  exists written,
    LimitedFile.limited_results (outside := Worlds.late_error)
      "data/onionsearch_q.csv" 5 [] = Py.Ok written /\
    forall r, In r written ->
      (In r [Worlds.row_one] \/ In r [Worlds.row_one; Worlds.row_two])
      /\ 3 <= Py.len r.
Proof.
  destruct (@limit_results_per_engine_rows Worlds.late_error
              "data/onionsearch_q.csv" 5 []) as (_ & _ & H).
  destruct (H [Worlds.row_one] [Worlds.row_one; Worlds.row_two]
              eq_refl eq_refl) as (written & Hw & Hin & _).
  exists written. split; [exact Hw | exact Hin].
Defined.

(** C7. The counters can exceed the total.  When [time.sleep] raises for the
    delay of the settings (a negative delay, or one that is not a number),
    the exception is raised inside the [try] of the loop after a counter was
    already incremented for the link, and the [except] increments
    [failed_links] once more: a job whose discovery returned ends COMPLETED
    with every link counted twice, so that for a fresh job with at least one
    link [crawled_links + failed_links] is twice [total_links]. *)
Theorem execute_crawl_counts_links_twice :
  forall (outside : Service.Outside) (self : Service.CrawlerService)
         (job_id query : string) (limit : Z) (w : Service.World)
         (job : Schemas.CrawlJob.t) (links : list Schemas.OnionLink.t)
         (w1 : Service.World),
    (forall w0,
        snd (Service.time_sleep (Config.CRAWL_DELAY Service.settings) w0)
        <> None) ->
    Service.get_job_status self job_id = Some job ->
    Service.discover query limit (snd (Service.datetime_now w))
    = (Py.Ok links, w1) ->
    exists r final,
      Service._execute_crawl self job_id query limit w = Py.Ok r /\
      Service.get_job_status (Service.exec_service r) job_id = Some final /\
      Schemas.CrawlJob.status final = Schemas.COMPLETED /\
      Schemas.CrawlJob.total_links final = Py.len links /\
      Schemas.CrawlJob.crawled_links final
      + Schemas.CrawlJob.failed_links final
      = Schemas.CrawlJob.crawled_links job
        + Schemas.CrawlJob.failed_links job + 2 * Py.len links /\
      (Schemas.CrawlJob.crawled_links job = 0 ->
       Schemas.CrawlJob.failed_links job = 0 ->
       links <> [] ->
       Schemas.CrawlJob.total_links final
       < Schemas.CrawlJob.crawled_links final
         + Schemas.CrawlJob.failed_links final).
Proof.
  intros outside self job_id query limit w job links w1 Hbad Hget Hd.
  assert (Hraise : exists e, forall w0,
             Service.time_sleep (Config.CRAWL_DELAY Service.settings) w0
             = (w0, Some e)).
  { destruct (time_sleep_cases (Config.CRAWL_DELAY Service.settings))
      as [Hok|H]; [|exact H].
    exfalso. apply (Hbad w), Hok. }
  unfold Service._execute_crawl. unfold Service.get_job_status in Hget.
  rewrite Hget. unfold Service.touch.
  destruct (Service.datetime_now w) as [t0 w0]. simpl in Hd. rewrite Hd.
  destruct (Service.fetch_loop _ links w1) as [x2 w2] eqn:EL.
  pose proof (fetch_loop_same _ _ _ EL) as ((_ & _ & _ & Htot) & _).
  apply (fetch_loop_twice _ _ _ Hraise) in EL as [Ha _].
  destruct (Service.datetime_now w2) as [t3 w3].
  eexists. eexists. split; [reflexivity|].
  cbn [Service.exec_service Service.finish].
  split; [apply dict_get_set_same|].
  unfold Service.attempted in Ha.
  cbn -[Z.mul Z.add Py.len] in Htot, Ha |- *.
  split; [reflexivity|]. split; [exact Htot|]. split; [exact Ha|].
  intros Hc Hf Hne.
  assert (Hpos : 0 < Py.len links).
  { destruct links as [|l ls]; [congruence|].
    unfold Py.len. cbn [List.length]. lia. }
  lia.
Qed.

(** The small world started with [CRAWL_DELAY=-1]: fifteen links, thirty
    counted. *)
Lemma execute_crawl_counts_links_twice_witness :
  exists r final,
    Service._execute_crawl (outside := Environments.negative_delay)
      (Service.service Service.demo_submitted) "job-0" "test" 3
      (Service.world Service.demo_submitted) = Py.Ok r /\
    Service.get_job_status (Service.exec_service r) "job-0" = Some final /\
    Schemas.CrawlJob.total_links final = 15 /\
    Schemas.CrawlJob.crawled_links final + Schemas.CrawlJob.failed_links final
    = 0 + 0 + 2 * 15.
Proof.
  edestruct (@execute_crawl_counts_links_twice Environments.negative_delay
               (Service.service Service.demo_submitted) "job-0" "test" 3
               (Service.world Service.demo_submitted)
               (Schemas.CrawlJob.new "job-0" "test" Schemas.PENDING 1 1))
    as (r & final & Hr & Hf & _ & Ht & Ha & _).
  - intros w0. discriminate.
  - reflexivity.
  - vm_compute. reflexivity.
  - exists r, final.
    split; [exact Hr|]. split; [exact Hf|]. split; [exact Ht | exact Ha].
Defined.

Example negative_delay_job :
  option_map
    (fun j => (Schemas.CrawlJob.status j, Schemas.CrawlJob.total_links j,
               Schemas.CrawlJob.crawled_links j,
               Schemas.CrawlJob.failed_links j))
    (Service.get_job_status
       (Service.exec_service
          (Service._execute_crawl_background
             (outside := Environments.negative_delay)
             (Service.service Service.demo_submitted) "job-0" "test" 3
             (Service.world Service.demo_submitted))) "job-0")
  = Some (Schemas.COMPLETED, 15, 14, 16).
Proof. vm_compute. reflexivity. Qed.

(** When the analysis service cannot be imported, the job of the small world
    ends COMPLETED with its fourteen pages and no analysis task. *)
Example import_fails_no_task :
  let r := Service._execute_crawl_background
             (outside := Environments.import_fails)
             (Service.service Service.demo_submitted) "job-0" "test" 3
             (Service.world Service.demo_submitted) in
  Service.exec_spawned r = []
  /\ option_map (fun j => Py.len (Schemas.CrawlJob.pages j))
       (Service.get_job_status (Service.exec_service r) "job-0")
     = Some 14.
Proof. vm_compute. split; reflexivity. Qed.
